(** * Decoders of the style-transfer ViT: [model/decoders.py]

    A shallow embedding of [TransformerDecoder] and [CNNDecoder] together
    with the part of the tensor library their [forward] methods go through
    ([view], [permute], [nn.Conv2d], [nn.ReLU], [nn.Upsample],
    [nn.Sequential], [nn.TransformerDecoder]).

    Tensors are kept as the library keeps a contiguous tensor: a list of
    sizes and a flat row-major buffer (inputs are taken contiguous, as the
    output of the sequence decoder is).  Python integers are [Z]; an
    exception is a value of [error] returned through the [result] type.
    Sizes are integers without a bound, where the library keeps signed
    64-bit ones and refuses what does not fit: the statements that list
    the ways in which [forward] fails bound the image dimensions.
    Scalars are abstract ([Scalar]), with IEEE binary32 as an instance;
    an input is a tensor of the scalar type of the parameters. *)

From Stdlib Require Import ZArith List Lia Bool QArith SpecFloat.
Import ListNotations.
Local Open Scope Z_scope.

Set Implicit Arguments.

(** ** Exceptions *)

Inductive error : Type :=
| UnpackError          (* ValueError: wrong number of values to unpack   *)
| ViewInvalidDim       (* RuntimeError: invalid shape dimension           *)
| ViewTwoInferred      (* RuntimeError: only one dimension can be inferred *)
| ViewAmbiguous        (* RuntimeError: unspecified dimension is ambiguous *)
| ViewInvalidShape     (* RuntimeError: shape is invalid for input of size *)
| PermuteDims          (* RuntimeError: permute dims do not match the rank *)
| ConvRank             (* RuntimeError: expected a 4D input to conv2d      *)
| ConvOutChannels      (* RuntimeError: weight smaller than groups         *)
| ConvChannels         (* RuntimeError: expected input to have C channels  *)
| ConvKernelTooLarge   (* RuntimeError: kernel larger than padded input    *)
| UpsampleRank         (* input and scale factor ranks disagree            *)
| UpsampleEmpty        (* RuntimeError: non-empty 4D tensor expected       *)
| NegativeDimension    (* RuntimeError: tensor with negative dimension     *)
| HeadsNotPositive     (* ValueError: embed_dim and num_heads must be > 0  *)
| HeadsNotDividing     (* AssertionError: embed_dim must be divisible      *)
| DropoutRange         (* ValueError: dropout probability not in [0, 1]    *)
| NotBatched           (* AssertionError: query, key, value not 2D or 3D   *)
| NormShape            (* RuntimeError: layer_norm normalized_shape        *)
| EmbedDim             (* AssertionError: was expecting embedding dim      *)
| KeyShape             (* AssertionError: key shape does not match value   *)
| AttnMaskShape        (* RuntimeError: attn_mask shape is not correct     *)
| PaddingMaskShape     (* AssertionError: key_padding_mask shape           *)
| LinearShape          (* RuntimeError: mat1 and mat2 cannot be multiplied *)
| BroadcastShape       (* RuntimeError: sizes of the operands must match   *)
| LayersIndex          (* IndexError: index 0 is out of range (layers[0])  *)
| SizeIndex            (* IndexError: tuple index out of range (size()[1]) *)
| DimIndex             (* IndexError: dimension out of range (transpose)   *)
| MaskRank             (* AssertionError: mask of an unsupported rank      *)
| AttnMaskHeads.       (* AssertionError: unbatched 3D attn_mask shape     *)

Inductive result (A : Type) : Type :=
| Ok (a : A)
| Err (e : error).
Arguments Ok {A} a.
Arguments Err {A} e.

Definition bind {A B : Type} (r : result A) (k : A -> result B) : result B :=
  match r with
  | Ok a => k a
  | Err e => Err e
  end.

Notation "x <- c1 ;; c2" := (bind c1 (fun x => c2))
  (at level 61, c1 at next level, right associativity).

Definition result_map {A B : Type} (f : A -> B) (r : result A) : result B :=
  x <- r ;; Ok (f x).

Definition is_ok {A : Type} (r : result A) : bool :=
  match r with Ok _ => true | Err _ => false end.

(** ** Scalars

    The element type of a tensor: the operations the convolution and the
    ReLU use.  [sltb_zero] is the one law the development relies on
    (zero is not below zero); IEEE arithmetic satisfies it. *)

Class Scalar (F : Type) : Type := {
  szero : F;
  sadd : F -> F -> F;
  smul : F -> F -> F;
  sltb : F -> F -> bool;
  sltb_zero : sltb szero szero = false
}.

(** IEEE-754 binary32, the default dtype of the library. *)
Definition float32 : Type := spec_float.

#[export] Instance float32_Scalar : Scalar float32 := {
  szero := S754_zero false;
  sadd := SFadd 24 128;
  smul := SFmul 24 128;
  sltb := SFltb;
  sltb_zero := eq_refl
}.

(** ** Shapes and row-major addressing *)

Fixpoint numel (s : list Z) : Z :=
  match s with
  | [] => 1
  | d :: r => d * numel r
  end.

(** Offset of a multi-index in a contiguous buffer. *)
Fixpoint ravel (s idx : list Z) : Z :=
  match s, idx with
  | _ :: r, i :: idx' => i * numel r + ravel r idx'
  | _, _ => 0
  end.

(** Multi-index of an offset. *)
Fixpoint unravel (s : list Z) (o : Z) : list Z :=
  match s with
  | [] => []
  | _ :: r => o / numel r :: unravel r (o mod numel r)
  end.

Definition zrange (n : Z) : list Z := map Z.of_nat (seq 0 (Z.to_nat n)).

Definition inb (d i : Z) : bool := (0 <=? i) && (i <? d).

Definition in_range (s idx : list Z) : Prop :=
  Forall2 (fun d i => 0 <= i < d) s idx.

Definition shape_ok (s : list Z) : Prop := Forall (fun d => 0 <= d) s.

Section Tensors.
Context {A : Type}.

Record tensor : Type := mkTensor {
  sizes : list Z;
  data : list A
}.

Definition wf (t : tensor) : Prop :=
  shape_ok (sizes t) /\ length (data t) = Z.to_nat (numel (sizes t)).

(** Element at a multi-index; [d] stands for a read outside the buffer. *)
Definition get_def (d : A) (t : tensor) (idx : list Z) : A :=
  nth (Z.to_nat (ravel (sizes t) idx)) (data t) d.

Definition tabulate (s : list Z) (f : list Z -> A) : tensor :=
  {| sizes := s; data := map (fun o => f (unravel s o)) (zrange (numel s)) |}.

(** Reordering along the batch axis, [t[perm]]: element [b] of the result
    is element [p b] of the argument. *)
Definition batch_permute (d : A) (p : Z -> Z) (t : tensor) : tensor :=
  tabulate (sizes t)
    (fun idx =>
       match idx with
       | b :: r => get_def d t (p b :: r)
       | [] => get_def d t []
       end).

End Tensors.
Arguments tensor A : clear implicits.

Definition maps_into (n : Z) (p : Z -> Z) : Prop :=
  forall b, 0 <= b < n -> 0 <= p b < n.

(** [p] and [q] are inverse permutations of the batch positions below [n]. *)
Definition permutes (n : Z) (p q : Z -> Z) : Prop :=
  forall b, 0 <= b < n ->
    (0 <= p b < n /\ q (p b) = b) /\ (0 <= q b < n /\ p (q b) = b).

Section ScalarTensors.
Context {F : Type} {SF : Scalar F}.

Definition get (t : tensor F) (idx : list Z) : F := get_def szero t idx.

Definition bperm (p : Z -> Z) (t : tensor F) : tensor F :=
  batch_permute szero p t.

Definition sum_over (l : list Z) (f : Z -> F) : F :=
  fold_left (fun acc i => sadd acc (f i)) l szero.

(** A value is non-negative when it is not below zero (an IEEE NaN, which
    compares with nothing, is neither below zero nor above). *)
Definition not_below_zero (v : F) : Prop := sltb v szero = false.

End ScalarTensors.

(** ** Tensor operations used by [CNNDecoder.forward] *)

Section Operations.
Context {F : Type} {SF : Scalar F}.

(** [Tensor.view]: the requested sizes may hold one [-1], which is then
    inferred from the number of elements; the buffer is shared. *)
Fixpoint infer_scan (shape : list Z) (newsize : Z) (infer_dim : option nat)
  (dim : nat) : result (Z * option nat) :=
  match shape with
  | [] => Ok (newsize, infer_dim)
  | d :: r =>
      if d =? -1 then
        match infer_dim with
        | Some _ => Err ViewTwoInferred
        | None => infer_scan r newsize (Some dim) (S dim)
        end
      else if 0 <=? d then infer_scan r (newsize * d) infer_dim (S dim)
      else Err ViewInvalidDim
  end.

Definition set_nth (k : nat) (v : Z) (l : list Z) : list Z :=
  firstn k l ++ v :: skipn (S k) l.

Definition infer_size (shape : list Z) (n : Z) : result (list Z) :=
  p <- infer_scan shape 1 None 0 ;;
  match snd p with
  | None => if n =? fst p then Ok shape else Err ViewInvalidShape
  | Some k =>
      if (n =? fst p) || ((0 <? fst p) && (n mod fst p =? 0)) then
        if fst p =? 0 then Err ViewAmbiguous
        else Ok (set_nth k (n / fst p) shape)
      else Err ViewInvalidShape
  end.

Definition view (t : tensor F) (shape : list Z) : result (tensor F) :=
  s <- infer_size shape (numel (sizes t)) ;;
  Ok {| sizes := s; data := data t |}.

(** [Tensor.permute]: axis [k] of the result is axis [nth k dims] of the
    argument. *)
Fixpoint position (d : nat) (dims : list nat) : nat :=
  match dims with
  | [] => O
  | e :: r => if Nat.eqb e d then O else S (position d r)
  end.

Definition is_axis_permutation (dims : list nat) (rank : nat) : bool :=
  Nat.eqb (length dims) rank
  && forallb (fun d => existsb (Nat.eqb d) dims) (seq 0 rank).

Definition permute (t : tensor F) (dims : list nat) : result (tensor F) :=
  let rank := length (sizes t) in
  if is_axis_permutation dims rank then
    Ok (tabulate (map (fun d => nth d (sizes t) 0) dims)
          (fun idx =>
             get t (map (fun d => nth (position d dims) idx 0) (seq 0 rank))))
  else Err PermuteDims.

(** ** Layers *)

Inductive upsample_mode : Type := nearest.

Inductive nn_Module : Type :=
| Conv2d (in_channels out_channels kernel_size padding : Z)
         (weight bias : tensor F)
| ReLU (inplace : bool)
| Upsample (scale_factor : Z) (mode : upsample_mode).

(** Initial values of the parameters of one convolution (the constructor
    draws them from the generator; an optimizer rewrites them later). *)
Record conv_init : Type := {
  weight0 : list Z -> F;
  bias0 : list Z -> F
}.

(** [nn.Conv2d(in_channels, out_channels, kernel_size, padding)], with the
    defaults stride 1, dilation 1, groups 1, bias, zero padding. *)
Definition nn_Conv2d (in_channels out_channels kernel_size padding : Z)
  (i : conv_init) : result nn_Module :=
  if (in_channels <? 0) || (out_channels <? 0) then Err NegativeDimension
  else Ok (Conv2d in_channels out_channels kernel_size padding
             (tabulate [out_channels; in_channels; kernel_size; kernel_size]
                (weight0 i))
             (tabulate [out_channels] (bias0 i))).

(** Read with zero padding around the two spatial axes. *)
Definition get_padded (x : tensor F) (h w b c i j : Z) : F :=
  if inb h i && inb w j then get x [b; c; i; j] else szero.

Definition conv2d_at (cin k p : Z) (weight bias x : tensor F) (h w : Z)
  (b co i j : Z) : F :=
  sadd
    (sum_over (zrange cin) (fun ci =>
       sum_over (zrange k) (fun ki =>
         sum_over (zrange k) (fun kj =>
           smul (get_padded x h w b ci (i + ki - p) (j + kj - p))
                (get weight [co; ci; ki; kj])))))
    (get bias [co]).

(** [F.conv2d] on a batched input, with the checks the library makes on
    the channel counts and on the kernel against the padded input. *)
Definition conv2d (cin cout k p : Z) (weight bias x : tensor F)
  : result (tensor F) :=
  match sizes x with
  | [n; c; h; w] =>
      if cout <? 1 then Err ConvOutChannels
      else if negb (c =? cin) then Err ConvChannels
      else if (h + 2 * p <? k) || (w + 2 * p <? k) then Err ConvKernelTooLarge
      else
        Ok (tabulate [n; cout; h + 2 * p - k + 1; w + 2 * p - k + 1]
              (fun idx =>
                 match idx with
                 | [b; co; i; j] => conv2d_at cin k p weight bias x h w b co i j
                 | _ => szero
                 end))
  | _ => Err ConvRank
  end.

(** [nn.ReLU]: values below zero become zero, every other value (a NaN
    included) stays.  With [inplace=True] the buffer overwritten is the
    output of the convolution before it, which nothing else refers to, so
    the flag does not show in the result. *)
Definition relu_scalar (v : F) : F := if sltb v szero then szero else v.

Definition relu (x : tensor F) : tensor F :=
  {| sizes := sizes x; data := map relu_scalar (data x) |}.

(** Nearest-neighbour interpolation by an integer factor: output position
    [i] reads input position [i / scale_factor]. *)
Definition upsample_nearest2d (scale_factor : Z) (x : tensor F)
  : result (tensor F) :=
  match sizes x with
  | [n; c; h; w] =>
      if (c =? 0) || (h =? 0) || (w =? 0) then Err UpsampleEmpty
      else
        Ok (tabulate [n; c; h * scale_factor; w * scale_factor]
              (fun idx =>
                 match idx with
                 | [b; ch; i; j] =>
                     get x [b; ch; i / scale_factor; j / scale_factor]
                 | _ => szero
                 end))
  | _ => Err UpsampleRank
  end.

Definition Module_forward (m : nn_Module) (x : tensor F) : result (tensor F) :=
  match m with
  | Conv2d cin cout k p weight bias => conv2d cin cout k p weight bias x
  | ReLU _ => Ok (relu x)
  | Upsample s nearest => upsample_nearest2d s x
  end.

(** [nn.Sequential]: the layers in order, each on the previous output. *)
Fixpoint Sequential_forward (ms : list nn_Module) (x : tensor F)
  : result (tensor F) :=
  match ms with
  | [] => Ok x
  | m :: r => y <- Module_forward m x ;; Sequential_forward r y
  end.

(** One stage as [CNNDecoder] builds its three: convolution, ReLU,
    2x nearest upsample. *)
Definition stage (cin cout : Z) (weight bias : tensor F) : list nn_Module :=
  [Conv2d cin cout 3 1 weight bias; ReLU true; Upsample 2 nearest].

(** ** [CNNDecoder] *)

Record CNNDecoder : Type := {
  img_height : Z;
  img_width : Z;
  grid_h : Z;
  grid_w : Z;
  layer1 : list nn_Module;
  layer2 : list nn_Module;
  layer3 : list nn_Module
}.

Definition CNNDecoder_init (embed_dim img_height img_width : Z)
  (i1 i2 i3 : conv_init) : result CNNDecoder :=
  c1 <- nn_Conv2d embed_dim embed_dim 3 1 i1 ;;
  c2 <- nn_Conv2d embed_dim embed_dim 3 1 i2 ;;
  c3 <- nn_Conv2d embed_dim 3 3 1 i3 ;;
  Ok {| img_height := img_height;
        img_width := img_width;
        grid_h := img_height / 8;
        grid_w := img_width / 8;
        layer1 := [c1; ReLU true; Upsample 2 nearest];
        layer2 := [c2; ReLU true; Upsample 2 nearest];
        layer3 := [c3; ReLU true; Upsample 2 nearest] |}.

Definition CNNDecoder_forward (self : CNNDecoder) (x : tensor F)
  : result (tensor F) :=
  match sizes x with
  | [batch_size; num_tokens; channels] =>
      x <- view x [batch_size; grid_h self; grid_w self; channels] ;;
      x <- permute x [0; 3; 1; 2]%nat ;;
      x <- Sequential_forward (layer1 self) x ;;
      x <- Sequential_forward (layer2 self) x ;;
      x <- Sequential_forward (layer3 self) x ;;
      Ok x
  | _ => Err UnpackError
  end.

(** The parameter tensors [nn_Conv2d] allocates for a 3x3 kernel. *)
Definition conv_weight (cout cin : Z) (i : conv_init) : tensor F :=
  tabulate [cout; cin; 3; 3] (weight0 i).

Definition conv_bias (cout : Z) (i : conv_init) : tensor F :=
  tabulate [cout] (bias0 i).

(** The decoder with other values in its two stored image dimensions. *)
Definition with_img (self : CNNDecoder) (h w : Z) : CNNDecoder :=
  {| img_height := h;
     img_width := w;
     grid_h := grid_h self;
     grid_w := grid_w self;
     layer1 := layer1 self;
     layer2 := layer2 self;
     layer3 := layer3 self |}.

End Operations.
Arguments nn_Module F : clear implicits.
Arguments CNNDecoder F : clear implicits.
Arguments conv_init F : clear implicits.

(** ** The attention stack behind [TransformerDecoder]

    [nn.TransformerDecoder] and its layers, in batch-first layout.  The
    numerical row kernels of the library and its random generator are taken
    as parameters: nothing below depends on how they round.

    The attention is the one [nn.MultiheadAttention] runs while gradients
    are recorded for its parameters, the state a module is constructed in
    ([F.multi_head_attention_forward] with [need_weights=False], as the
    decoder layer calls it).  The fused inference kernel the library may
    pick instead for a module in evaluation mode under [torch.no_grad()]
    is not part of the model. *)

Class Library (F G : Type) : Type := {
  layer_norm_row : Q -> list F -> list F -> list F -> list F;
  softmax_row : list F -> list F;
  scale_dot : Z -> F -> F;
  neg_inf : F;
  dropout_keep : Q -> F -> F;
  bernoulli : G -> Q -> nat -> list bool * G
}.

Section Transformer.
Context {F : Type} {SF : Scalar F} {G : Type} {LB : Library F G}.

(** Computations that may raise and that thread the generator state. *)
Definition M (A : Type) : Type := G -> result (A * G).

Definition lift {A : Type} (r : result A) : M A :=
  fun g => match r with Ok a => Ok (a, g) | Err e => Err e end.

Definition mbind {A B : Type} (m : M A) (k : A -> M B) : M B :=
  fun g => match m g with Ok (a, g') => k a g' | Err e => Err e end.

Notation "x <~ c1 ;; c2" := (mbind c1 (fun x => c2))
  (at level 61, c1 at next level, right associativity).

(** Masks are boolean ([true] forbids a position) or additive floats. *)
Inductive mask : Type :=
| BoolMask (m : tensor bool)
| FloatMask (m : tensor F).

Definition canonical_mask (m : mask) : tensor F :=
  match m with
  | BoolMask m =>
      {| sizes := sizes m;
         data := map (fun b : bool => if b then neg_inf else szero) (data m) |}
  | FloatMask m => m
  end.

(** [nn.Dropout] / [F.dropout]. *)
Fixpoint mask_apply (p : Q) (bits : list bool) (vs : list F) : list F :=
  match vs with
  | [] => []
  | v :: r =>
      (if hd false bits then dropout_keep p v else szero)
        :: mask_apply p (tl bits) r
  end.

Definition Dropout_forward (p : Q) (training : bool) (x : tensor F)
  : M (tensor F) :=
  fun g =>
    if negb training || Qeq_bool p 0 || (numel (sizes x) =? 0) then Ok (x, g)
    else
      let bg := bernoulli g p (length (data x)) in
      Ok ({| sizes := sizes x; data := mask_apply p (fst bg) (data x) |},
          snd bg).

(** Layers acting on the last axis of a (batch, length, features) tensor. *)
Definition row (x : tensor F) (b t e : Z) : list F :=
  map (fun i => get x [b; t; i]) (zrange e).

Definition rowwise (out : Z) (k : list F -> list F) (x : tensor F)
  (n l e : Z) : tensor F :=
  tabulate [n; l; out]
    (fun idx =>
       match idx with
       | [b; t; o] => nth (Z.to_nat o) (k (row x b t e)) szero
       | _ => szero
       end).

(** The same on a tensor of any rank: [k] on every row along the last
    axis.  On a (batch, length, features) tensor this is [rowwise]. *)
Definition rows (out : Z) (k : list F -> list F) (x : tensor F) : tensor F :=
  tabulate (removelast (sizes x) ++ [out])
    (fun idx =>
       nth (Z.to_nat (last idx 0))
         (k (map (fun i => get x (removelast idx ++ [i]))
               (zrange (last (sizes x) 0))))
         szero).

Record LayerNorm : Type := {
  normalized_shape : Z;
  eps : Q;
  ln_weight : tensor F;
  ln_bias : tensor F
}.

Definition LayerNorm_forward (m : LayerNorm) (x : tensor F)
  : result (tensor F) :=
  match sizes x with
  | [] => Err NormShape
  | _ :: _ =>
      if last (sizes x) 0 =? normalized_shape m then
        Ok (rows (normalized_shape m)
              (fun r =>
                 layer_norm_row (eps m) r (data (ln_weight m))
                   (data (ln_bias m)))
              x)
      else Err NormShape
  end.

Record Linear : Type := {
  in_features : Z;
  out_features : Z;
  lin_weight : tensor F;
  lin_bias : tensor F
}.

(** One row through [y = x W^T + b], reading the rows of [w] from
    [first] on. *)
Definition affine_row (w b : tensor F) (first inn out : Z) (r : list F)
  : list F :=
  map (fun o =>
         sadd
           (sum_over (zrange inn)
              (fun i => smul (nth (Z.to_nat i) r szero)
                             (get w [first + o; i])))
           (get b [first + o]))
      (zrange out).

Definition Linear_forward (m : Linear) (x : tensor F) : result (tensor F) :=
  match sizes x with
  | [] => Err LinearShape
  | _ :: _ =>
      if last (sizes x) 0 =? in_features m then
        Ok (rows (out_features m)
              (affine_row (lin_weight m) (lin_bias m) 0 (in_features m)
                 (out_features m))
              x)
      else Err LinearShape
  end.

(** Residual connection. *)
Fixpoint zip_add (xs ys : list F) : list F :=
  match xs, ys with
  | x :: xs', y :: ys' => sadd x y :: zip_add xs' ys'
  | _, _ => []
  end.

Definition add (x y : tensor F) : result (tensor F) :=
  if list_eq_dec Z.eq_dec (sizes x) (sizes y) then
    Ok {| sizes := sizes x; data := zip_add (data x) (data y) |}
  else Err BroadcastShape.

(** [nn.MultiheadAttention] with [batch_first=True] and [kdim = vdim =
    embed_dim]; the three input projections are the three thirds of
    [in_proj_weight]. *)
Record MultiheadAttention : Type := {
  embed_dim : Z;
  num_heads : Z;
  attn_dropout : Q;
  in_proj_weight : tensor F;
  in_proj_bias : tensor F;
  out_proj : Linear
}.

Definition head_dim (m : MultiheadAttention) : Z :=
  embed_dim m / num_heads m.

(** The ranks [_mha_shape_check] asks of the masks. *)
Definition check_rank (m : option (tensor F)) (ok : nat -> bool)
  : result unit :=
  match m with
  | None => Ok tt
  | Some t => if ok (length (sizes t)) then Ok tt else Err MaskRank
  end.

Definition rank_1 (r : nat) : bool := Nat.eqb r 1.

Definition rank_2 (r : nat) : bool := Nat.eqb r 2.

Definition rank_2_or_3 (r : nat) : bool := Nat.eqb r 2 || Nat.eqb r 3.

(** The shape [_mha_shape_check] asks of a three-dimensional mask that
    comes with an unbatched query. *)
Definition check_unbatched_mask (am : option (tensor F)) (heads l s : Z)
  : result unit :=
  match am with
  | None => Ok tt
  | Some m =>
      match sizes m with
      | [mh; ml; ms] =>
          if (mh =? heads) && (ml =? l) && (ms =? s) then Ok tt
          else Err AttnMaskHeads
      | _ => Ok tt
      end
  end.

Definition check_attn_mask (am : option (tensor F)) (bh l s : Z)
  : result unit :=
  match am with
  | None => Ok tt
  | Some m =>
      match sizes m with
      | [ml; ms] =>
          if (ml =? l) && (ms =? s) then Ok tt else Err AttnMaskShape
      | [mn; ml; ms] =>
          if (mn =? bh) && (ml =? l) && (ms =? s) then Ok tt
          else Err AttnMaskShape
      | _ => Err AttnMaskShape
      end
  end.

Definition check_padding_mask (kpm : option (tensor F)) (b s : Z)
  : result unit :=
  match kpm with
  | None => Ok tt
  | Some m =>
      match sizes m with
      | [mb; ms] =>
          if (mb =? b) && (ms =? s) then Ok tt else Err PaddingMaskShape
      | _ => Err PaddingMaskShape
      end
  end.

(** Sizes of the merged mask: a two-dimensional [attn_mask] alone is
    shared by the batch and the heads; a three-dimensional one, or any
    mask merged with a [key_padding_mask], has one block per (batch
    element, head). *)
Definition merged_sizes (am kpm : option (tensor F)) (n heads l s : Z)
  : option (list Z) :=
  match am, kpm with
  | None, None => None
  | Some m, None =>
      match sizes m with
      | [_; _] => Some [1; l; s]
      | _ => Some [n * heads; l; s]
      end
  | None, Some _ => Some [n * heads; 1; s]
  | Some _, Some _ => Some [n * heads; l; s]
  end.

(** [attn_mask.view(bsz, num_heads, -1, src_len)], which the attention
    runs on a merged mask whose leading size is not one. *)
Definition check_mask_view (am kpm : option (tensor F)) (n heads l s : Z)
  : result unit :=
  match merged_sizes am kpm n heads l s with
  | None => Ok tt
  | Some sz =>
      if hd 0 sz =? 1 then Ok tt
      else _ <- infer_size [n; heads; -1; s] (numel sz) ;; Ok tt
  end.

(** The additive mask seen by head [h] of batch element [b]. *)
Definition merged_mask (am kpm : option (tensor F)) (heads b h l s : Z)
  : option F :=
  let a :=
    match am with
    | None => None
    | Some m =>
        match sizes m with
        | [_; _] => Some (get m [l; s])
        | _ => Some (get m [b * heads + h; l; s])
        end
    end in
  let k :=
    match kpm with
    | None => None
    | Some m => Some (get m [b; s])
    end in
  match a, k with
  | Some u, Some v => Some (sadd u v)
  | Some u, None => Some u
  | None, Some v => Some v
  | None, None => None
  end.

Definition attn_score (m : MultiheadAttention) (q k : tensor F)
  (am kpm : option (tensor F)) (b h l s : Z) : F :=
  let hd := head_dim m in
  let dot :=
    sum_over (zrange hd)
      (fun d => smul (get q [b; l; h * hd + d]) (get k [b; s; h * hd + d])) in
  match merged_mask am kpm (num_heads m) b h l s with
  | None => scale_dot hd dot
  | Some v => sadd (scale_dot hd dot) v
  end.

Definition attn_weights (m : MultiheadAttention) (q k : tensor F)
  (am kpm : option (tensor F)) (n l s : Z) : tensor F :=
  tabulate [n; num_heads m; l; s]
    (fun idx =>
       match idx with
       | [b; h; i; j] =>
           nth (Z.to_nat j)
             (softmax_row
                (map (fun j' => attn_score m q k am kpm b h i j') (zrange s)))
             szero
       | _ => szero
       end).

Definition attn_output (m : MultiheadAttention) (w v : tensor F)
  (n l s : Z) : tensor F :=
  tabulate [n; l; embed_dim m]
    (fun idx =>
       match idx with
       | [b; i; e] =>
           sum_over (zrange s)
             (fun j => smul (get w [b; e / head_dim m; i; j])
                            (get v [b; j; e]))
       | _ => szero
       end).

(** [F.multi_head_attention_forward] on batched inputs, its checks in the
    order the library makes them: the embedding width of the query, the
    head split, key against value, the input projections, the shape of
    [attn_mask], the reshape of the projected keys to
    [(src_len, bsz * num_heads, head_dim)] (which is where a key of
    another batch size is refused), the shape of [key_padding_mask], and
    the reshape of the merged mask. *)
Definition attention (m : MultiheadAttention) (training : bool)
  (query key value : tensor F) (kpm am : option (tensor F))
  : M (tensor F) :=
  match sizes query, sizes key, sizes value with
  | [n; l; e], [kn; s; ke], [vn; vs; ve] =>
      if negb (e =? embed_dim m) then lift (Err EmbedDim)
      else if negb (head_dim m * num_heads m =? embed_dim m) then
        lift (Err HeadsNotDividing)
      else if negb ((kn =? vn) && (s =? vs) && (ke =? ve)) then
        lift (Err KeyShape)
      else if negb (ke =? e) then lift (Err LinearShape)
      else
        _ <~ lift (check_attn_mask am (n * num_heads m) l s) ;;
        _ <~ lift (infer_size [s; n * num_heads m; head_dim m]
                     (numel [s; kn; e])) ;;
        _ <~ lift (check_padding_mask kpm n s) ;;
        _ <~ lift (check_mask_view am kpm n (num_heads m) l s) ;;
        let proj part :=
          affine_row (in_proj_weight m) (in_proj_bias m) (part * e) e e in
        let q := rowwise e (proj 0) query n l e in
        let k := rowwise e (proj 1) key n s e in
        let v := rowwise e (proj 2) value n s e in
        w <~ Dropout_forward (attn_dropout m) training
               (attn_weights m q k am kpm n l s) ;;
        lift (Linear_forward (out_proj m) (attn_output m w v n l s))
  | _, _, _ => lift (Err NotBatched)
  end.

(** Adding and dropping a leading axis of size one; the buffer stays. *)
Definition unsqueeze0 (t : tensor F) : tensor F :=
  {| sizes := 1 :: sizes t; data := data t |}.

Definition squeeze0 (t : tensor F) : tensor F :=
  {| sizes := tl (sizes t); data := data t |}.

(** [nn.MultiheadAttention.forward] with [batch_first=True].  A
    three-dimensional query is a batch: key and value are transposed with
    it (which needs two axes) and must be three-dimensional.  A
    two-dimensional query is one unbatched sequence, run as a batch of
    one. *)
Definition MultiheadAttention_forward (m : MultiheadAttention)
  (training : bool) (query key value : tensor F)
  (key_padding_mask attn_mask : option mask) : M (tensor F) :=
  let am := option_map canonical_mask attn_mask in
  let kpm := option_map canonical_mask key_padding_mask in
  let rank_is (t : tensor F) (r : nat) := Nat.eqb (length (sizes t)) r in
  match sizes query with
  | [_; _; _] =>
      if (length (sizes key) <? 2)%nat || (length (sizes value) <? 2)%nat
      then lift (Err DimIndex)
      else if negb (rank_is key 3%nat && rank_is value 3%nat) then
        lift (Err NotBatched)
      else
        _ <~ lift (check_rank kpm rank_2) ;;
        _ <~ lift (check_rank am rank_2_or_3) ;;
        attention m training query key value kpm am
  | [l; _] =>
      if negb (rank_is key 2%nat && rank_is value 2%nat) then
        lift (Err NotBatched)
      else
        _ <~ lift (check_rank kpm rank_1) ;;
        _ <~ lift (check_rank am rank_2_or_3) ;;
        _ <~ lift (check_unbatched_mask am (num_heads m) l
                     (hd 0 (sizes key))) ;;
        out <~ attention m training (unsqueeze0 query) (unsqueeze0 key)
                 (unsqueeze0 value) (option_map unsqueeze0 kpm) am ;;
        lift (Ok (squeeze0 out))
  | _ => lift (Err NotBatched)
  end.

(** [nn.TransformerDecoderLayer] with the ReLU activation; the layout is
    batch-first throughout, as the source asks with [batch_first=True]. *)
Record TransformerDecoderLayer : Type := {
  self_attn : MultiheadAttention;
  multihead_attn : MultiheadAttention;
  linear1 : Linear;
  dropout : Q;
  linear2 : Linear;
  norm_first : bool;
  norm1 : LayerNorm;
  norm2 : LayerNorm;
  norm3 : LayerNorm;
  dropout1 : Q;
  dropout2 : Q;
  dropout3 : Q
}.

Definition sa_block (ly : TransformerDecoderLayer) (training : bool)
  (x : tensor F) (attn_mask key_padding_mask : option mask) : M (tensor F) :=
  x <~ MultiheadAttention_forward (self_attn ly) training x x x
         key_padding_mask attn_mask ;;
  Dropout_forward (dropout1 ly) training x.

Definition mha_block (ly : TransformerDecoderLayer) (training : bool)
  (x mem : tensor F) (attn_mask key_padding_mask : option mask)
  : M (tensor F) :=
  x <~ MultiheadAttention_forward (multihead_attn ly) training x mem mem
         key_padding_mask attn_mask ;;
  Dropout_forward (dropout2 ly) training x.

Definition ff_block (ly : TransformerDecoderLayer) (training : bool)
  (x : tensor F) : M (tensor F) :=
  x <~ lift (Linear_forward (linear1 ly) x) ;;
  x <~ Dropout_forward (dropout ly) training (relu x) ;;
  x <~ lift (Linear_forward (linear2 ly) x) ;;
  Dropout_forward (dropout3 ly) training x.

Definition TransformerDecoderLayer_forward (ly : TransformerDecoderLayer)
  (training : bool) (tgt memory : tensor F)
  (tgt_mask memory_mask tgt_key_padding_mask memory_key_padding_mask
     : option mask) : M (tensor F) :=
  if norm_first ly then
    y <~ lift (LayerNorm_forward (norm1 ly) tgt) ;;
    y <~ sa_block ly training y tgt_mask tgt_key_padding_mask ;;
    x <~ lift (add tgt y) ;;
    y <~ lift (LayerNorm_forward (norm2 ly) x) ;;
    y <~ mha_block ly training y memory memory_mask memory_key_padding_mask ;;
    x <~ lift (add x y) ;;
    y <~ lift (LayerNorm_forward (norm3 ly) x) ;;
    y <~ ff_block ly training y ;;
    lift (add x y)
  else
    y <~ sa_block ly training tgt tgt_mask tgt_key_padding_mask ;;
    x <~ lift (add tgt y) ;;
    x <~ lift (LayerNorm_forward (norm1 ly) x) ;;
    y <~ mha_block ly training x memory memory_mask memory_key_padding_mask ;;
    x <~ lift (add x y) ;;
    x <~ lift (LayerNorm_forward (norm2 ly) x) ;;
    y <~ ff_block ly training x ;;
    x <~ lift (add x y) ;;
    lift (LayerNorm_forward (norm3 ly) x).

(** [nn.TransformerDecoder]: the cloned layers in order (no final norm).
    Before its loop [forward] reads the layout flag of [layers[0]] and the
    sequence length of the target, [size()[1]] of a target that is not
    two-dimensional. *)
Record nn_TransformerDecoder : Type := {
  layers : list TransformerDecoderLayer
}.

Fixpoint layers_forward (ls : list TransformerDecoderLayer) (training : bool)
  (output memory : tensor F)
  (tgt_mask memory_mask tgt_key_padding_mask memory_key_padding_mask
     : option mask) : M (tensor F) :=
  match ls with
  | [] => lift (Ok output)
  | ly :: r =>
      output <~ TransformerDecoderLayer_forward ly training output memory
                  tgt_mask memory_mask tgt_key_padding_mask
                  memory_key_padding_mask ;;
      layers_forward r training output memory tgt_mask memory_mask
        tgt_key_padding_mask memory_key_padding_mask
  end.

Definition nn_TransformerDecoder_forward (m : nn_TransformerDecoder)
  (training : bool) (tgt memory : tensor F)
  (tgt_mask memory_mask tgt_key_padding_mask memory_key_padding_mask
     : option mask) : M (tensor F) :=
  match layers m with
  | [] => lift (Err LayersIndex)
  | _ :: _ =>
      if (length (sizes tgt) <? 2)%nat then lift (Err SizeIndex)
      else
        layers_forward (layers m) training tgt memory tgt_mask memory_mask
          tgt_key_padding_mask memory_key_padding_mask
  end.

(** *** Construction *)

(** Initial value of parameter number [k] at a multi-index. *)
Definition param_init : Type := nat -> list Z -> F.

Definition nn_Linear (inn out : Z) (i : param_init) (k : nat)
  : result Linear :=
  if (inn <? 0) || (out <? 0) then Err NegativeDimension
  else
    Ok {| in_features := inn;
          out_features := out;
          lin_weight := tabulate [out; inn] (i k);
          lin_bias := tabulate [out] (i (S k)) |}.

Definition nn_LayerNorm (d : Z) (i : param_init) (k : nat)
  : result LayerNorm :=
  if d <? 0 then Err NegativeDimension
  else
    Ok {| normalized_shape := d;
          eps := 1 # 100000;
          ln_weight := tabulate [d] (i k);
          ln_bias := tabulate [d] (i (S k)) |}.

Definition nn_MultiheadAttention (e heads : Z) (p : Q) (i : param_init)
  (k : nat) : result MultiheadAttention :=
  if (e <=? 0) || (heads <=? 0) then Err HeadsNotPositive
  else if negb ((e / heads) * heads =? e) then Err HeadsNotDividing
  else
    o <- nn_Linear e e i (k + 2) ;;
    Ok {| embed_dim := e;
          num_heads := heads;
          attn_dropout := p;
          in_proj_weight := tabulate [3 * e; e] (i k);
          in_proj_bias := tabulate [3 * e] (i (S k));
          out_proj := o |}.

Definition nn_Dropout (p : Q) : result Q :=
  if Qle_bool 0 p && Qle_bool p 1 then Ok p else Err DropoutRange.

Definition nn_TransformerDecoderLayer (d_model nhead dim_feedforward : Z)
  (p : Q) (nrm_first : bool) (i : param_init)
  : result TransformerDecoderLayer :=
  sa <- nn_MultiheadAttention d_model nhead p i 0 ;;
  ca <- nn_MultiheadAttention d_model nhead p i 4 ;;
  l1 <- nn_Linear d_model dim_feedforward i 8 ;;
  d0 <- nn_Dropout p ;;
  l2 <- nn_Linear dim_feedforward d_model i 10 ;;
  n1 <- nn_LayerNorm d_model i 12 ;;
  n2 <- nn_LayerNorm d_model i 14 ;;
  n3 <- nn_LayerNorm d_model i 16 ;;
  d1 <- nn_Dropout p ;;
  d2 <- nn_Dropout p ;;
  d3 <- nn_Dropout p ;;
  Ok {| self_attn := sa; multihead_attn := ca; linear1 := l1; dropout := d0;
        linear2 := l2; norm_first := nrm_first; norm1 := n1; norm2 := n2;
        norm3 := n3; dropout1 := d1; dropout2 := d2; dropout3 := d3 |}.

(** ** [TransformerDecoder] *)

Record TransformerDecoder : Type := {
  decoder_layer : TransformerDecoderLayer;
  transformer_decoder : nn_TransformerDecoder;
  training : bool
}.

Definition TransformerDecoder_init (d_model nhead dim_feedforward : Z)
  (dropout : Q) (n_layers : Z) (i : param_init) : result TransformerDecoder :=
  ly <- nn_TransformerDecoderLayer d_model nhead dim_feedforward dropout
          true i ;;
  Ok {| decoder_layer := ly;
        transformer_decoder := {| layers := repeat ly (Z.to_nat n_layers) |};
        training := true |}.

Definition TransformerDecoder_forward (self : TransformerDecoder)
  (target_tokens memory : tensor F)
  (tgt_mask memory_mask tgt_key_padding_mask memory_key_padding_mask
     : option mask) : M (tensor F) :=
  out <~ nn_TransformerDecoder_forward (transformer_decoder self)
           (training self) target_tokens memory tgt_mask memory_mask
           tgt_key_padding_mask memory_key_padding_mask ;;
  lift (Ok out).

(** [Module.eval()] and [Module.train()]. *)
Definition eval (self : TransformerDecoder) : TransformerDecoder :=
  {| decoder_layer := decoder_layer self;
     transformer_decoder := transformer_decoder self;
     training := false |}.

(** *** Dimensions a constructed decoder keeps *)

Definition linear_dims (inn out : Z) (m : Linear) : Prop :=
  in_features m = inn /\ out_features m = out.

Definition mha_dims (e heads : Z) (m : MultiheadAttention) : Prop :=
  embed_dim m = e /\ num_heads m = heads
  /\ 0 < e /\ 0 < heads /\ (e / heads) * heads = e
  /\ linear_dims e e (out_proj m).

Definition layer_dims (e heads : Z) (ly : TransformerDecoderLayer) : Prop :=
  mha_dims e heads (self_attn ly)
  /\ mha_dims e heads (multihead_attn ly)
  /\ linear_dims e (out_features (linear1 ly)) (linear1 ly)
  /\ 0 <= out_features (linear1 ly)
  /\ linear_dims (out_features (linear1 ly)) e (linear2 ly)
  /\ normalized_shape (norm1 ly) = e
  /\ normalized_shape (norm2 ly) = e
  /\ normalized_shape (norm3 ly) = e.

Definition decoder_dims (e heads : Z) (self : TransformerDecoder) : Prop :=
  Forall (layer_dims e heads) (layers (transformer_decoder self)).

(** Masks of the shapes the attention accepts. *)
Definition attn_mask_ok (am : option mask) (n heads l s : Z) : Prop :=
  match am with
  | None => True
  | Some m =>
      sizes (canonical_mask m) = [l; s]
      \/ sizes (canonical_mask m) = [n * heads; l; s]
  end.

Definition padding_mask_ok (kpm : option mask) (n s : Z) : Prop :=
  match kpm with
  | None => True
  | Some m => sizes (canonical_mask m) = [n; s]
  end.

(** Dropout draws nothing when the module is in evaluation mode or its
    probability is zero. *)
Definition dropout_off (training : bool) (p : Q) : Prop :=
  training = false \/ Qeq_bool p 0 = true.

Definition layer_dropout_off (training : bool) (ly : TransformerDecoderLayer)
  : Prop :=
  dropout_off training (attn_dropout (self_attn ly))
  /\ dropout_off training (attn_dropout (multihead_attn ly))
  /\ dropout_off training (dropout ly)
  /\ dropout_off training (dropout1 ly)
  /\ dropout_off training (dropout2 ly)
  /\ dropout_off training (dropout3 ly).

Definition no_active_dropout (self : TransformerDecoder) : Prop :=
  Forall (layer_dropout_off (training self))
    (layers (transformer_decoder self)).

(** The masks that go with a reordered batch: a mask with one row block per
    (batch element, head) moves its blocks, a mask shared by the batch
    stays, a padding mask moves its rows. *)
Definition head_perm (heads : Z) (p : Z -> Z) (k : Z) : Z :=
  p (k / heads) * heads + k mod heads.

Definition mask_map (f : forall A : Type, A -> tensor A -> tensor A)
  (m : mask) : mask :=
  match m with
  | BoolMask t => BoolMask (f bool false t)
  | FloatMask t => FloatMask (f F szero t)
  end.

Definition attn_mask_permute (heads : Z) (p : Z -> Z) (m : mask) : mask :=
  match sizes (canonical_mask m) with
  | [_; _] => m
  | _ => mask_map (fun A d => batch_permute d (head_perm heads p)) m
  end.

Definition padding_mask_permute (p : Z -> Z) (m : mask) : mask :=
  mask_map (fun A d => batch_permute d p) m.

(** [m] returns, whatever the generator state, a tensor of sizes [s]. *)
Definition returns_shape (m : M (tensor F)) (s : list Z) : Prop :=
  forall g, exists a g', m g = Ok (a, g') /\ sizes a = s.

(** [m] draws nothing: it is a result that does not depend on the
    generator state, and it leaves that state as it found it. *)
Definition pure (A : Type) (m : M A) : Prop :=
  exists r : result A, forall g, m g = lift r g.

(** [m] on some inputs and [m'] on the reordered inputs both draw nothing,
    and the result of [m'] is the reordered result of [m], or both raise
    the same error. *)
Definition sync (p : Z -> Z) (m m' : M (tensor F)) (s : list Z) : Prop :=
  (exists a,
     wf a /\ sizes a = s
     /\ (forall g, m g = Ok (a, g))
     /\ (forall g, m' g = Ok (bperm p a, g)))
  \/ (exists e, (forall g, m g = Err e) /\ (forall g, m' g = Err e)).

End Transformer.
Arguments M G A : clear implicits.
Arguments mask F : clear implicits.

Notation "x <~ c1 ;; c2" := (mbind c1 (fun x => c2))
  (at level 61, c1 at next level, right associativity).

Arguments TransformerDecoder F : clear implicits.
Arguments TransformerDecoderLayer F : clear implicits.
Arguments nn_TransformerDecoder F : clear implicits.
Arguments MultiheadAttention F : clear implicits.
Arguments Linear F : clear implicits.
Arguments LayerNorm F : clear implicits.

(** ** Sample values

    Small binary32 inputs on which the model is run in the examples. *)

Definition f32_one : float32 := S754_finite false 8388608 (-23).
Definition f32_two : float32 := S754_finite false 8388608 (-22).
Definition f32_minus_one : float32 := S754_finite true 8388608 (-23).

Definition const_init (v : float32) : conv_init float32 :=
  {| weight0 := fun _ => v; bias0 := fun _ => S754_zero false |}.

(** One image of 2x2 tokens with two channels each. *)
Definition tokens_1x4x2 : tensor float32 :=
  {| sizes := [1; 4; 2];
     data := [f32_one; f32_two; f32_one; f32_one;
              f32_two; f32_two; f32_one; f32_minus_one] |}.

(** An empty batch of five-token sequences. *)
Definition tokens_0x5x2 : tensor float32 := {| sizes := [0; 5; 2]; data := [] |}.

(** A library instance over binary32 to run the attention stack with.  The
    generator is a tape of bits drawn beforehand.  The normalisation and
    the scaling follow their formulas; the row normaliser divides by the
    row sum where the library exponentiates first (there is no exponential
    over [spec_float]).  Every statement below is proved for all
    instances; this one only serves to evaluate the model on examples. *)
Definition f32_of_Z (z : Z) : float32 := binary_normalize 24 128 z 0 false.

Definition f32_of_Q (q : Q) : float32 :=
  SFdiv 24 128 (f32_of_Z (Qnum q)) (f32_of_Z (Zpos (Qden q))).

Definition f32_sum (r : list float32) : float32 :=
  fold_left (SFadd 24 128) r (S754_zero false).

Definition f32_layer_norm (eps : Q) (r w b : list float32) : list float32 :=
  let n := f32_of_Z (Z.of_nat (length r)) in
  let mean := SFdiv 24 128 (f32_sum r) n in
  let sq v := SFmul 24 128 (SFsub 24 128 v mean) (SFsub 24 128 v mean) in
  let var := SFdiv 24 128 (f32_sum (map sq r)) n in
  let den := SFsqrt 24 128 (SFadd 24 128 var (f32_of_Q eps)) in
  map (fun vwb =>
         SFadd 24 128
           (SFmul 24 128 (SFdiv 24 128 (SFsub 24 128 (fst (fst vwb)) mean) den)
              (snd (fst vwb)))
           (snd vwb))
      (combine (combine r w) b).

#[export] Instance tape_library : Library float32 (list bool) := {
  layer_norm_row := f32_layer_norm;
  softmax_row := fun r => map (fun v => SFdiv 24 128 v (f32_sum r)) r;
  scale_dot := fun hd v => SFdiv 24 128 v (SFsqrt 24 128 (f32_of_Z hd));
  neg_inf := S754_infinity true;
  dropout_keep := fun p v => SFdiv 24 128 v (f32_of_Q (1 - p));
  bernoulli := fun g p n => (firstn n g, skipn n g)
}.

Definition const_param (v : float32) : param_init (F := float32) :=
  fun _ _ => v.

(** One sequence of two target tokens and one of three memory tokens, four
    features each. *)
Definition target_1x2x4 : tensor float32 :=
  {| sizes := [1; 2; 4];
     data := [f32_one; f32_two; f32_one; f32_minus_one;
              f32_two; f32_one; f32_one; f32_two] |}.

Definition memory_1x3x4 : tensor float32 :=
  {| sizes := [1; 3; 4];
     data := [f32_one; f32_one; f32_two; f32_one;
              f32_two; f32_minus_one; f32_one; f32_one;
              f32_one; f32_two; f32_two; f32_one] |}.

(** Batches of two, and the exchange of their two elements. *)
Definition tokens_2x4x2 : tensor float32 :=
  {| sizes := [2; 4; 2];
     data := [f32_one; f32_two; f32_one; f32_one;
              f32_two; f32_two; f32_one; f32_minus_one;
              f32_two; f32_one; f32_minus_one; f32_one;
              f32_one; f32_one; f32_two; f32_two] |}.

Definition target_2x2x4 : tensor float32 :=
  {| sizes := [2; 2; 4];
     data := [f32_one; f32_two; f32_one; f32_minus_one;
              f32_two; f32_one; f32_one; f32_two;
              f32_two; f32_two; f32_minus_one; f32_one;
              f32_one; f32_one; f32_two; f32_one] |}.

Definition memory_2x3x4 : tensor float32 :=
  {| sizes := [2; 3; 4];
     data := [f32_one; f32_one; f32_two; f32_one;
              f32_two; f32_minus_one; f32_one; f32_one;
              f32_one; f32_two; f32_two; f32_one;
              f32_two; f32_one; f32_one; f32_one;
              f32_one; f32_one; f32_minus_one; f32_two;
              f32_two; f32_two; f32_one; f32_one] |}.

Definition swap01 (b : Z) : Z := 1 - b.

(** * Properties *)

Unset Implicit Arguments.

(** ** Row-major addressing *)

Lemma numel_nonneg (s : list Z) : shape_ok s -> 0 <= numel s.
Proof.
  induction 1 as [|d r Hd _ IH]; simpl; [lia | nia].
Qed.

Lemma in_range_shape_ok (s idx : list Z) : in_range s idx -> shape_ok s.
Proof.
  induction 1 as [|d i r idx' Hi _ IH]; constructor; [lia | exact IH].
Qed.

Lemma in_range_length (s idx : list Z) :
  in_range s idx -> length idx = length s.
Proof.
  induction 1; simpl; congruence.
Qed.

Lemma ravel_bounds (s idx : list Z) :
  in_range s idx -> 0 <= ravel s idx < numel s.
Proof.
  induction 1 as [|d i r idx' Hi _ IH]; simpl; [lia | nia].
Qed.

Lemma unravel_ravel (s idx : list Z) :
  in_range s idx -> unravel s (ravel s idx) = idx.
Proof.
  induction 1 as [|d i r idx' Hi Hr IH]; simpl; [reflexivity |].
  pose proof (ravel_bounds _ _ Hr) as Hb.
  assert (Hq : (i * numel r + ravel r idx') / numel r = i)
    by (symmetry; apply Z.div_unique with (r := ravel r idx'); lia).
  assert (Hm : (i * numel r + ravel r idx') mod numel r = ravel r idx')
    by (symmetry; apply Z.mod_unique with (q := i); lia).
  now rewrite Hq, Hm, IH.
Qed.

Lemma unravel_in_range (s : list Z) :
  shape_ok s -> forall o, 0 <= o < numel s -> in_range s (unravel s o).
Proof.
  induction 1 as [|d r Hd Hr IH]; intros o Ho; simpl in *; [constructor |].
  pose proof (numel_nonneg _ Hr) as Hn.
  assert (0 < numel r) by nia.
  constructor.
  - split; [apply Z.div_pos; lia | apply Z.div_lt_upper_bound; lia].
  - apply IH. apply Z.mod_pos_bound. lia.
Qed.

Lemma ravel_unravel (s : list Z) :
  shape_ok s -> forall o, 0 <= o < numel s -> ravel s (unravel s o) = o.
Proof.
  induction 1 as [|d r Hd Hr IH]; intros o Ho; simpl in *; [lia |].
  pose proof (numel_nonneg _ Hr) as Hn.
  assert (0 < numel r) by nia.
  rewrite IH by (apply Z.mod_pos_bound; lia).
  pose proof (Z.div_mod o (numel r)). lia.
Qed.

Lemma zrange_length (n : Z) : length (zrange n) = Z.to_nat n.
Proof.
  unfold zrange. now rewrite length_map, length_seq.
Qed.

Lemma in_zrange (n i : Z) : In i (zrange n) <-> 0 <= i < n.
Proof.
  unfold zrange. rewrite in_map_iff. split.
  - intros [k [<- Hk]]. apply in_seq in Hk. lia.
  - intros Hi. exists (Z.to_nat i). split; [lia | apply in_seq; lia].
Qed.

Lemma nth_map_zrange (A : Type) (f : Z -> A) (n o : Z) (d : A) :
  0 <= o < n -> nth (Z.to_nat o) (map f (zrange n)) d = f o.
Proof.
  intros Ho. unfold zrange. rewrite map_map.
  rewrite nth_indep with (d' := f (Z.of_nat 0%nat))
    by (rewrite length_map, length_seq; lia).
  rewrite (map_nth (fun k => f (Z.of_nat k)) (seq 0 (Z.to_nat n)) 0%nat).
  rewrite seq_nth by lia. simpl. f_equal. lia.
Qed.

Lemma map_nth_zrange (A : Type) (l : list A) (d : A) :
  map (fun o => nth (Z.to_nat o) l d) (zrange (Z.of_nat (length l))) = l.
Proof.
  apply nth_ext with (d := d) (d' := d).
  - now rewrite length_map, zrange_length, Nat2Z.id.
  - intros k Hk. rewrite length_map, zrange_length, Nat2Z.id in Hk.
    rewrite <- (Nat2Z.id k) at 1.
    rewrite nth_map_zrange by lia. now rewrite Nat2Z.id.
Qed.

Section TensorFacts.
Context {A : Type}.
Implicit Types (t : tensor A) (s idx : list Z) (f g : list Z -> A).

Lemma get_tabulate d s f idx :
  in_range s idx -> get_def d (tabulate s f) idx = f idx.
Proof.
  intros Hi. unfold get_def, tabulate. simpl.
  rewrite nth_map_zrange by (apply ravel_bounds; exact Hi).
  now rewrite unravel_ravel.
Qed.

Lemma tabulate_ext s f g :
  shape_ok s ->
  (forall idx, in_range s idx -> f idx = g idx) ->
  tabulate s f = tabulate s g.
Proof.
  intros Hs Hfg. unfold tabulate. f_equal.
  apply map_ext_in. intros o Ho. apply Hfg.
  apply unravel_in_range; [exact Hs | now apply in_zrange].
Qed.

Lemma unravel_length s (o : Z) : length (unravel s o) = length s.
Proof.
  revert o. induction s as [|d r IH]; intros o; simpl; [reflexivity |].
  now rewrite IH.
Qed.

Lemma tabulate_ext_length s f g :
  (forall idx, length idx = length s -> f idx = g idx) ->
  tabulate s f = tabulate s g.
Proof.
  intros Hfg. unfold tabulate. f_equal.
  apply map_ext. intros o. apply Hfg. apply unravel_length.
Qed.

Lemma tabulate_wf s f : shape_ok s -> wf (tabulate s f).
Proof.
  intros Hs. split; [exact Hs |].
  simpl. now rewrite length_map, zrange_length.
Qed.

Lemma tabulate_get d t : wf t -> tabulate (sizes t) (get_def d t) = t.
Proof.
  intros [Hs Hl]. destruct t as [s l]. simpl in *.
  unfold tabulate. f_equal. unfold get_def. simpl.
  pose proof (numel_nonneg _ Hs) as Hn.
  transitivity (map (fun o => nth (Z.to_nat o) l d) (zrange (numel s))).
  - apply map_ext_in. intros o Ho. apply in_zrange in Ho.
    now rewrite ravel_unravel.
  - replace (numel s) with (Z.of_nat (length l)) by lia.
    apply map_nth_zrange.
Qed.

Lemma tensor_ext d t1 t2 :
  wf t1 -> wf t2 -> sizes t1 = sizes t2 ->
  (forall idx, in_range (sizes t1) idx -> get_def d t1 idx = get_def d t2 idx) ->
  t1 = t2.
Proof.
  intros H1 H2 Hs Hg.
  rewrite <- (tabulate_get d _ H1), <- (tabulate_get d _ H2), <- Hs.
  apply tabulate_ext; [apply H1 | exact Hg].
Qed.

End TensorFacts.

(** ** Shapes through [view], [permute] and the layers *)

Lemma bind_ok (A B : Type) (r : result A) (k : A -> result B) (b : B) :
  (x <- r ;; k x) = Ok b -> exists a, r = Ok a /\ k a = Ok b.
Proof.
  destruct r as [a|e]; simpl; [eauto | discriminate].
Qed.

Lemma infer_scan_nonneg (shape : list Z) :
  shape_ok shape ->
  forall n o k, infer_scan shape n o k = Ok (n * numel shape, o).
Proof.
  induction 1 as [|d r Hd _ IH]; intros n o k; simpl.
  - f_equal. f_equal. lia.
  - destruct (Z.eqb_spec d (-1)); [lia |].
    destruct (Z.leb_spec 0 d); [| lia].
    rewrite IH. f_equal. f_equal. lia.
Qed.

Lemma infer_size_nonneg (shape : list Z) (n : Z) :
  shape_ok shape ->
  infer_size shape n
  = if n =? numel shape then Ok shape else Err ViewInvalidShape.
Proof.
  intros Hs. unfold infer_size.
  rewrite (infer_scan_nonneg _ Hs). unfold bind. cbn [fst snd].
  now replace (1 * numel shape) with (numel shape) by lia.
Qed.

Section ShapeFacts.
Context {F : Type} {SF : Scalar F}.
Implicit Types (x y : tensor F).

Lemma view_nonneg x (shape : list Z) :
  shape_ok shape ->
  view x shape
  = if numel (sizes x) =? numel shape
    then Ok {| sizes := shape; data := data x |}
    else Err ViewInvalidShape.
Proof.
  intros Hs. unfold view. rewrite (infer_size_nonneg _ _ Hs).
  now destruct (numel (sizes x) =? numel shape).
Qed.

Lemma permute_0312 x (n h w c : Z) :
  sizes x = [n; h; w; c] ->
  permute x [0; 3; 1; 2]%nat
  = Ok (tabulate [n; c; h; w]
          (fun idx =>
             get x [nth 0 idx 0; nth 2 idx 0; nth 3 idx 0; nth 1 idx 0])).
Proof.
  intros Hx. unfold permute. rewrite Hx. reflexivity.
Qed.

Lemma conv2d_same_ok (cin cout : Z) (wt bs : tensor F) x (n h w : Z) :
  sizes x = [n; cin; h; w] -> 1 <= cout -> 1 <= h -> 1 <= w ->
  exists y, conv2d cin cout 3 1 wt bs x = Ok y /\ sizes y = [n; cout; h; w].
Proof.
  intros Hx Hc Hh Hw. unfold conv2d. rewrite Hx.
  destruct (Z.ltb_spec cout 1); [lia |].
  rewrite Z.eqb_refl. simpl negb. cbv iota.
  destruct (Z.ltb_spec (h + 2 * 1) 3); [lia |].
  destruct (Z.ltb_spec (w + 2 * 1) 3); [lia |].
  simpl orb. cbv iota.
  eexists. split; [reflexivity |]. simpl. repeat f_equal; lia.
Qed.

Lemma conv2d_same_inv (cin cout : Z) (wt bs : tensor F) x y :
  conv2d cin cout 3 1 wt bs x = Ok y ->
  exists n h w,
    sizes x = [n; cin; h; w] /\ sizes y = [n; cout; h; w]
    /\ 1 <= cout /\ 1 <= h /\ 1 <= w.
Proof.
  unfold conv2d.
  destruct (sizes x) as [|n [|c [|h [|w [|]]]]]; try discriminate.
  destruct (Z.ltb_spec cout 1); [discriminate |].
  destruct (Z.eqb_spec c cin); [| discriminate]. simpl negb. cbv iota.
  destruct (Z.ltb_spec (h + 2 * 1) 3); [discriminate |].
  destruct (Z.ltb_spec (w + 2 * 1) 3); [discriminate |].
  simpl orb. cbv iota. intros [= <-]. subst c.
  exists n, h, w. simpl. repeat split; try lia. repeat f_equal; lia.
Qed.

Lemma relu_sizes x : sizes (relu x) = sizes x.
Proof. reflexivity. Qed.

Lemma upsample_ok (k : Z) x (n c h w : Z) :
  sizes x = [n; c; h; w] -> c <> 0 -> h <> 0 -> w <> 0 ->
  exists y,
    upsample_nearest2d k x = Ok y /\ sizes y = [n; c; h * k; w * k].
Proof.
  intros Hx Hc Hh Hw. unfold upsample_nearest2d. rewrite Hx.
  destruct (Z.eqb_spec c 0); [contradiction |].
  destruct (Z.eqb_spec h 0); [contradiction |].
  destruct (Z.eqb_spec w 0); [contradiction |].
  simpl. eauto.
Qed.

Lemma upsample_inv (k : Z) x y :
  upsample_nearest2d k x = Ok y ->
  exists n c h w,
    sizes x = [n; c; h; w] /\ sizes y = [n; c; h * k; w * k].
Proof.
  unfold upsample_nearest2d.
  destruct (sizes x) as [|n [|c [|h [|w [|]]]]]; try discriminate.
  destruct ((c =? 0) || (h =? 0) || (w =? 0)); [discriminate |].
  intros [= <-]. exists n, c, h, w. auto.
Qed.

Lemma stage_ok (cin cout : Z) (wt bs : tensor F) x (n h w : Z) :
  sizes x = [n; cin; h; w] -> 1 <= cout -> 1 <= h -> 1 <= w ->
  exists y,
    Sequential_forward (stage cin cout wt bs) x = Ok y
    /\ sizes y = [n; cout; h * 2; w * 2].
Proof.
  intros Hx Hc Hh Hw. simpl.
  destruct (conv2d_same_ok cin cout wt bs x n h w Hx Hc Hh Hw)
    as [y1 [-> Hy1]].
  simpl.
  destruct (upsample_ok 2 (relu y1) n cout h w) as [y2 [-> Hy2]];
    try lia; [now rewrite relu_sizes |].
  simpl. eauto.
Qed.

Lemma stage_inv (cin cout : Z) (wt bs : tensor F) x y :
  Sequential_forward (stage cin cout wt bs) x = Ok y ->
  exists n h w,
    sizes x = [n; cin; h; w] /\ sizes y = [n; cout; h * 2; w * 2].
Proof.
  simpl. intros H.
  destruct (conv2d cin cout 3 1 wt bs x) as [y1|] eqn:H1;
    simpl in H; [| discriminate].
  destruct (upsample_nearest2d 2 (relu y1)) as [y3|] eqn:H3;
    simpl in H; [| discriminate].
  injection H as <-.
  apply conv2d_same_inv in H1. destruct H1 as (n & h & w & Hx & Hy1 & _).
  apply upsample_inv in H3. destruct H3 as (n' & c' & h' & w' & Hr & Hy3).
  rewrite relu_sizes, Hy1 in Hr. injection Hr as <- <- <- <-.
  exists n, h, w. auto.
Qed.

End ShapeFacts.

(** ** [CNNDecoder]: construction and the shape of [forward] *)

Section DecoderShape.
Context {F : Type} {SF : Scalar F}.
Implicit Types (x y : tensor F) (d : CNNDecoder F) (i : conv_init F).

Lemma CNNDecoder_init_spec (E H W : Z) i1 i2 i3 :
  CNNDecoder_init E H W i1 i2 i3
  = if E <? 0 then Err NegativeDimension
    else Ok {| img_height := H;
               img_width := W;
               grid_h := H / 8;
               grid_w := W / 8;
               layer1 := stage E E (conv_weight E E i1) (conv_bias E i1);
               layer2 := stage E E (conv_weight E E i2) (conv_bias E i2);
               layer3 := stage E 3 (conv_weight 3 E i3) (conv_bias 3 i3) |}.
Proof.
  unfold CNNDecoder_init, nn_Conv2d.
  destruct (Z.ltb_spec E 0) as [Hneg | Hpos]; simpl; reflexivity.
Qed.

Lemma CNNDecoder_init_inv (E H W : Z) i1 i2 i3 d :
  CNNDecoder_init E H W i1 i2 i3 = Ok d ->
  0 <= E
  /\ d = {| img_height := H;
            img_width := W;
            grid_h := H / 8;
            grid_w := W / 8;
            layer1 := stage E E (conv_weight E E i1) (conv_bias E i1);
            layer2 := stage E E (conv_weight E E i2) (conv_bias E i2);
            layer3 := stage E 3 (conv_weight 3 E i3) (conv_bias 3 i3) |}.
Proof.
  rewrite CNNDecoder_init_spec.
  destruct (Z.ltb_spec E 0); [discriminate |].
  intros [= <-]. split; [assumption | reflexivity].
Qed.

(** The steps of [forward], named. *)
Lemma CNNDecoder_forward_steps d x y :
  CNNDecoder_forward d x = Ok y ->
  exists B T C x1 x2 x3 x4,
    sizes x = [B; T; C]
    /\ view x [B; grid_h d; grid_w d; C] = Ok x1
    /\ permute x1 [0; 3; 1; 2]%nat = Ok x2
    /\ Sequential_forward (layer1 d) x2 = Ok x3
    /\ Sequential_forward (layer2 d) x3 = Ok x4
    /\ Sequential_forward (layer3 d) x4 = Ok y.
Proof.
  unfold CNNDecoder_forward.
  destruct (sizes x) as [|B [|T [|C [|]]]]; try discriminate.
  intros H.
  apply bind_ok in H. destruct H as [x1 [H1 H]].
  apply bind_ok in H. destruct H as [x2 [H2 H]].
  apply bind_ok in H. destruct H as [x3 [H3 H]].
  apply bind_ok in H. destruct H as [x4 [H4 H]].
  apply bind_ok in H. destruct H as [x5 [H5 [= <-]]].
  exists B, T, C, x1, x2, x3, x4. repeat split; assumption.
Qed.

Lemma CNNDecoder_forward_compose d x (B T C : Z) x1 x2 x3 x4 y :
  sizes x = [B; T; C] ->
  view x [B; grid_h d; grid_w d; C] = Ok x1 ->
  permute x1 [0; 3; 1; 2]%nat = Ok x2 ->
  Sequential_forward (layer1 d) x2 = Ok x3 ->
  Sequential_forward (layer2 d) x3 = Ok x4 ->
  Sequential_forward (layer3 d) x4 = Ok y ->
  CNNDecoder_forward d x = Ok y.
Proof.
  intros Hx H1 H2 H3 H4 H5. unfold CNNDecoder_forward.
  rewrite Hx, H1. simpl. rewrite H2. simpl. rewrite H3. simpl.
  rewrite H4. simpl. rewrite H5. reflexivity.
Qed.

Lemma CNNDecoder_forward_ok (E H W B : Z) i1 i2 i3 d x :
  CNNDecoder_init E H W i1 i2 i3 = Ok d ->
  1 <= E -> 8 <= H -> 8 <= W -> 0 <= B ->
  sizes x = [B; (H / 8) * (W / 8); E] ->
  exists y,
    CNNDecoder_forward d x = Ok y
    /\ sizes y = [B; 3; 8 * (H / 8); 8 * (W / 8)].
Proof.
  intros Hd HE HH HW HB Hx.
  apply CNNDecoder_init_inv in Hd. destruct Hd as [_ ->].
  assert (Hgh : 1 <= H / 8) by (apply Z.div_le_lower_bound; lia).
  assert (Hgw : 1 <= W / 8) by (apply Z.div_le_lower_bound; lia).
  set (x1 := {| sizes := [B; H / 8; W / 8; E]; data := data x |}).
  assert (H1 : view x [B; H / 8; W / 8; E] = Ok x1).
  { rewrite view_nonneg by (repeat constructor; lia).
    rewrite Hx. simpl numel.
    replace (B * (H / 8 * (W / 8) * (E * 1)) =?
             B * (H / 8 * (W / 8 * (E * 1)))) with true
      by (symmetry; apply Z.eqb_eq; ring).
    reflexivity. }
  destruct (permute x1 [0; 3; 1; 2]%nat) as [x2|] eqn:H2;
    [| rewrite (permute_0312 x1 B (H / 8) (W / 8) E) in H2 by reflexivity;
       discriminate].
  assert (Hs2 : sizes x2 = [B; E; H / 8; W / 8]).
  { rewrite (permute_0312 x1 B (H / 8) (W / 8) E) in H2 by reflexivity.
    now injection H2 as <-. }
  destruct (stage_ok E E (conv_weight E E i1) (conv_bias E i1) x2
              B (H / 8) (W / 8) Hs2) as [x3 [H3 Hs3]]; try lia.
  destruct (stage_ok E E (conv_weight E E i2) (conv_bias E i2) x3
              B (H / 8 * 2) (W / 8 * 2) Hs3) as [x4 [H4 Hs4]]; try lia.
  destruct (stage_ok E 3 (conv_weight 3 E i3) (conv_bias 3 i3) x4
              B (H / 8 * 2 * 2) (W / 8 * 2 * 2) Hs4) as [y [H5 Hs5]];
    try lia.
  exists y. split.
  - eapply CNNDecoder_forward_compose; eauto.
  - rewrite Hs5. f_equal. f_equal. f_equal; [lia |]. f_equal. lia.
Qed.

Lemma CNNDecoder_forward_sizes (E H W : Z) i1 i2 i3 d x y :
  CNNDecoder_init E H W i1 i2 i3 = Ok d ->
  0 <= H -> 0 <= W -> shape_ok (sizes x) ->
  CNNDecoder_forward d x = Ok y ->
  exists B T,
    sizes x = [B; T; E]
    /\ B * T * E = B * (H / 8) * (W / 8) * E
    /\ sizes y = [B; 3; 8 * (H / 8); 8 * (W / 8)].
Proof.
  intros Hd HH HW Hok Hf.
  apply CNNDecoder_init_inv in Hd. destruct Hd as [HE ->].
  apply CNNDecoder_forward_steps in Hf.
  destruct Hf as (B & T & C & x1 & x2 & x3 & x4 & Hx & H1 & H2 & H3 & H4 & H5).
  cbn [grid_h grid_w layer1 layer2 layer3] in H1, H3, H4, H5.
  rewrite Hx in Hok.
  assert (HB : 0 <= B) by (inversion Hok; assumption).
  assert (HC : 0 <= C)
    by (inversion Hok as [|? ? _ Hr]; inversion Hr as [|? ? _ Hr'];
        inversion Hr'; assumption).
  assert (Hgh : 0 <= H / 8) by (apply Z.div_pos; lia).
  assert (Hgw : 0 <= W / 8) by (apply Z.div_pos; lia).
  rewrite view_nonneg in H1 by (repeat constructor; lia).
  rewrite Hx in H1. simpl numel in H1.
  destruct (Z.eqb_spec (B * (T * (C * 1)))
              (B * (H / 8 * (W / 8 * (C * 1))))) as [Hn|]; [| discriminate].
  injection H1 as <-.
  rewrite (permute_0312 _ B (H / 8) (W / 8) C) in H2 by reflexivity.
  injection H2 as <-.
  apply stage_inv in H3. destruct H3 as (n3 & h3 & w3 & Hi3 & Ho3).
  simpl in Hi3. injection Hi3 as <- <- <- <-.
  apply stage_inv in H4. destruct H4 as (n4 & h4 & w4 & Hi4 & Ho4).
  rewrite Ho3 in Hi4. injection Hi4 as <- <- <-.
  apply stage_inv in H5. destruct H5 as (n5 & h5 & w5 & Hi5 & Ho5).
  rewrite Ho4 in Hi5. injection Hi5 as <- <- <-.
  exists B, T. split; [exact Hx |]. split; [lia |].
  rewrite Ho5. f_equal. f_equal. f_equal; [lia |]. f_equal. lia.
Qed.

End DecoderShape.

(** ** Claims on the construction and the output shape of [CNNDecoder] *)

Section DecoderClaims.
Context {F : Type} {SF : Scalar F}.
Implicit Types (x y : tensor F) (d : CNNDecoder F) (i : conv_init F).

(** C1, as amended.  The constructor has no divisibility check: for every
    [img_height] and [img_width], a multiple of 8 or not, and every
    non-negative [embed_dim], construction succeeds and stores the floor
    quotients [img_height // 8] and [img_width // 8] as the grid. *)
Theorem CNNDecoder_init_truncates (E H W : Z) i1 i2 i3 :
  0 <= E ->
  exists d,
    CNNDecoder_init E H W i1 i2 i3 = Ok d
    /\ img_height d = H /\ img_width d = W
    /\ grid_h d = H / 8 /\ grid_w d = W / 8.
Proof.
  intros HE. rewrite CNNDecoder_init_spec.
  destruct (Z.ltb_spec E 0); [lia |].
  eexists. split; [reflexivity |]. simpl. auto.
Qed.

(** C2.  With [img_height] and [img_width] positive multiples of 8, a
    positive [embed_dim] and any batch size, the decoder is constructed and
    [forward] maps a sequence of shape
    [(batch, (img_height/8)*(img_width/8), embed_dim)] to a tensor of shape
    exactly [(batch, 3, img_height, img_width)].  The scenario with 512
    channels and a 256x256 image is [CNNDecoder_forward_256] below. *)
Theorem CNNDecoder_forward_exact_shape (E H W B : Z) i1 i2 i3 x :
  0 < E -> 0 < H -> 0 < W -> H mod 8 = 0 -> W mod 8 = 0 -> 0 <= B ->
  sizes x = [B; (H / 8) * (W / 8); E] ->
  exists d y,
    CNNDecoder_init E H W i1 i2 i3 = Ok d
    /\ CNNDecoder_forward d x = Ok y
    /\ sizes y = [B; 3; H; W].
Proof.
  intros HE HH HW H8 W8 HB Hx.
  destruct (CNNDecoder_init E H W i1 i2 i3) as [d|] eqn:Hd.
  2:{ rewrite CNNDecoder_init_spec in Hd.
      destruct (Z.ltb_spec E 0); [lia | discriminate]. }
  pose proof (Z.div_mod H 8 ltac:(lia)) as HdivH.
  pose proof (Z.div_mod W 8 ltac:(lia)) as HdivW.
  assert (H <> 0 /\ W <> 0) as [HH0 HW0] by lia.
  assert (H8' : 8 <= H) by lia.
  assert (W8' : 8 <= W) by lia.
  destruct (CNNDecoder_forward_ok E H W B i1 i2 i3 d x Hd
              ltac:(lia) H8' W8' HB Hx) as [y [Hy Hs]].
  exists d, y. split; [reflexivity |]. split; [exact Hy |].
  rewrite Hs. f_equal. f_equal. f_equal; [lia |]. f_equal. lia.
Qed.

(** C3, as amended.  There is no explicit validation; for an input with a
    non-empty batch and a non-zero channel count whose token count differs
    from [grid_h * grid_w], the reshape [x.view], which is the first tensor
    operation of [forward], raises its shape error and [forward] fails with
    it: nothing is padded or truncated. *)
Theorem CNNDecoder_forward_token_mismatch (E H W B T C : Z) i1 i2 i3 d x :
  CNNDecoder_init E H W i1 i2 i3 = Ok d ->
  0 <= H -> 0 <= W ->
  sizes x = [B; T; C] -> 0 < B -> 0 < C ->
  T <> grid_h d * grid_w d ->
  view x [B; grid_h d; grid_w d; C] = Err ViewInvalidShape
  /\ CNNDecoder_forward d x = Err ViewInvalidShape.
Proof.
  intros Hd HH HW Hx HB HC HT.
  apply CNNDecoder_init_inv in Hd. destruct Hd as [_ ->].
  cbn [grid_h grid_w] in *.
  assert (Hgh : 0 <= H / 8) by (apply Z.div_pos; lia).
  assert (Hgw : 0 <= W / 8) by (apply Z.div_pos; lia).
  assert (Hv : view x [B; H / 8; W / 8; C] = Err ViewInvalidShape).
  { rewrite view_nonneg by (repeat constructor; lia).
    rewrite Hx. simpl numel.
    destruct (Z.eqb_spec (B * (T * (C * 1)))
                (B * (H / 8 * (W / 8 * (C * 1))))) as [Hn|]; [| reflexivity].
    exfalso. apply HT.
    apply Z.mul_reg_l with (p := B); [lia |].
    apply Z.mul_reg_r with (p := C); [lia |]. lia. }
  split; [exact Hv |].
  unfold CNNDecoder_forward. rewrite Hx. cbn [grid_h grid_w].
  rewrite Hv. reflexivity.
Qed.

End DecoderClaims.

(** C1, as stated, fails: a height of 100 is accepted and the grid height is
    the truncated 12. *)
Lemma CNNDecoder_init_100_accepted :
  100 mod 8 <> 0
  /\ is_ok (CNNDecoder_init 512 100 256
              (const_init f32_one) (const_init f32_one) (const_init f32_one))
     = true
  /\ result_map (@grid_h float32)
       (CNNDecoder_init 512 100 256
          (const_init f32_one) (const_init f32_one) (const_init f32_one))
     = Ok 12.
Proof.
  split; [discriminate |]. split; reflexivity.
Qed.

Lemma CNNDecoder_init_truncates_witness :
  exists d,
    CNNDecoder_init 2 100 16
      (const_init f32_one) (const_init f32_one) (const_init f32_one) = Ok d
    /\ img_height d = 100 /\ img_width d = 16
    /\ grid_h d = 100 / 8 /\ grid_w d = 16 / 8.
Proof.
  apply (CNNDecoder_init_truncates 2 100 16). lia.
Defined.

Lemma CNNDecoder_forward_exact_shape_witness :
  exists d y,
    CNNDecoder_init 2 16 16
      (const_init f32_one) (const_init f32_one) (const_init f32_one) = Ok d
    /\ CNNDecoder_forward d tokens_1x4x2 = Ok y
    /\ sizes y = [1; 3; 16; 16].
Proof.
  apply (CNNDecoder_forward_exact_shape 2 16 16 1);
    try lia; reflexivity.
Defined.

(** The scenario of the specification: 512 channels, a 256x256 image and a
    batch of two sequences of 1024 tokens. *)
Example CNNDecoder_forward_256 (i1 i2 i3 : conv_init float32)
  (x : tensor float32) :
  sizes x = [2; 1024; 512] ->
  exists d y,
    CNNDecoder_init 512 256 256 i1 i2 i3 = Ok d
    /\ CNNDecoder_forward d x = Ok y
    /\ sizes y = [2; 3; 256; 256].
Proof.
  intros Hx.
  destruct (CNNDecoder_init 512 256 256 i1 i2 i3) as [d|] eqn:Hd;
    [| rewrite CNNDecoder_init_spec in Hd; discriminate].
  destruct (CNNDecoder_forward_ok 512 256 256 2 i1 i2 i3 d x Hd)
    as [y [Hy Hs]]; try lia; [exact Hx |].
  exists d, y. auto.
Qed.

(** C3, as stated, fails: an empty batch of five-token sequences goes
    through a decoder whose grid is 2x2; the reshape accepts it, and so does
    every later step. *)
Lemma CNNDecoder_forward_empty_batch_accepted :
  5 <> 2 * 2
  /\ exists d,
       CNNDecoder_init 2 16 16
         (const_init f32_one) (const_init f32_one) (const_init f32_one) = Ok d
       /\ grid_h d * grid_w d = 2 * 2
       /\ view tokens_0x5x2 [0; grid_h d; grid_w d; 2]
          = Ok {| sizes := [0; 2; 2; 2]; data := [] |}
       /\ CNNDecoder_forward d tokens_0x5x2
          = Ok {| sizes := [0; 3; 16; 16]; data := [] |}.
Proof.
  split; [discriminate |].
  eexists. split; [reflexivity |]. repeat split; reflexivity.
Qed.

Lemma CNNDecoder_forward_token_mismatch_witness :
  exists d,
    CNNDecoder_init 2 16 16
      (const_init f32_one) (const_init f32_one) (const_init f32_one) = Ok d
    /\ view {| sizes := [1; 5; 2]; data := repeat f32_one 10 |}
         [1; grid_h d; grid_w d; 2] = Err ViewInvalidShape
    /\ CNNDecoder_forward d {| sizes := [1; 5; 2]; data := repeat f32_one 10 |}
       = Err ViewInvalidShape.
Proof.
  eexists. split; [reflexivity |].
  apply (CNNDecoder_forward_token_mismatch 2 16 16 1 5 2
           (const_init f32_one) (const_init f32_one) (const_init f32_one));
    try reflexivity; try lia; discriminate.
Defined.

(** ** The three stages *)

Section StageClaims.
Context {F : Type} {SF : Scalar F}.
Implicit Types (x y u v c : tensor F) (d : CNNDecoder F) (i : conv_init F).

(** What one stage computes: a convolution that keeps the spatial size,
    the ReLU on its result, and a nearest-neighbour copy of every value
    into a 2x2 block. *)
Lemma stage_run (cin cout : Z) (wt bs : tensor F) u v :
  Sequential_forward (stage cin cout wt bs) u = Ok v ->
  exists n h w c,
    sizes u = [n; cin; h; w]
    /\ conv2d cin cout 3 1 wt bs u = Ok c
    /\ sizes c = [n; cout; h; w]
    /\ upsample_nearest2d 2 (relu c) = Ok v
    /\ sizes v = [n; cout; h * 2; w * 2]
    /\ v = tabulate [n; cout; h * 2; w * 2]
             (fun idx =>
                match idx with
                | [b; ch; p; q] => get (relu c) [b; ch; p / 2; q / 2]
                | _ => szero
                end).
Proof.
  simpl. intros H.
  destruct (conv2d cin cout 3 1 wt bs u) as [c|] eqn:H1;
    simpl in H; [| discriminate].
  destruct (upsample_nearest2d 2 (relu c)) as [v'|] eqn:H3;
    simpl in H; [| discriminate].
  injection H as ->.
  destruct (conv2d_same_inv _ _ _ _ _ _ H1) as (n & h & w & Hu & Hc & _).
  exists n, h, w, c. repeat split; try assumption.
  - apply upsample_inv in H3. destruct H3 as (n' & c' & h' & w' & Hr & Hv).
    rewrite relu_sizes, Hc in Hr. injection Hr as <- <- <- <-. exact Hv.
  - unfold upsample_nearest2d in H3. rewrite relu_sizes, Hc in H3.
    destruct ((cout =? 0) || (h =? 0) || (w =? 0)); [discriminate |].
    now injection H3 as <-.
Qed.


(** C9.  For a constructed decoder with non-negative image dimensions:
    every accepted input yields spatial dimensions
    [8 * (img_height // 8)] by [8 * (img_width // 8)]; the stored
    [img_height] and [img_width] do not influence [forward]; a dimension
    that is not a multiple of 8 therefore gives an output strictly smaller
    than requested, and such inputs are accepted, not rejected. *)
Theorem CNNDecoder_output_truncated (E H W : Z) i1 i2 i3 d :
  CNNDecoder_init E H W i1 i2 i3 = Ok d ->
  0 <= H -> 0 <= W ->
  (forall x y,
     wf x -> CNNDecoder_forward d x = Ok y ->
     exists B T,
       sizes x = [B; T; E]
       /\ sizes y = [B; 3; 8 * (img_height d / 8); 8 * (img_width d / 8)])
  /\ (forall h' w' x,
        CNNDecoder_forward (with_img d h' w') x = CNNDecoder_forward d x)
  /\ (H mod 8 <> 0 -> 8 * (H / 8) < H)
  /\ (W mod 8 <> 0 -> 8 * (W / 8) < W)
  /\ (1 <= E -> 8 <= H -> 8 <= W ->
      forall B x,
        0 <= B -> sizes x = [B; (H / 8) * (W / 8); E] ->
        exists y, CNNDecoder_forward d x = Ok y).
Proof.
  intros Hd HH HW. split; [| split; [| split; [| split]]].
  - intros x y [Hs _] Hf.
    destruct (CNNDecoder_forward_sizes E H W i1 i2 i3 d x y Hd HH HW Hs Hf)
      as (B & T & Hx & _ & Hy).
    apply CNNDecoder_init_inv in Hd. destruct Hd as [_ ->].
    exists B, T. split; assumption.
  - reflexivity.
  - intros Hm. pose proof (Z.div_mod H 8 ltac:(lia)).
    pose proof (Z.mod_pos_bound H 8 ltac:(lia)). lia.
  - intros Hm. pose proof (Z.div_mod W 8 ltac:(lia)).
    pose proof (Z.mod_pos_bound W 8 ltac:(lia)). lia.
  - intros HE H8 W8 B x HB Hx.
    destruct (CNNDecoder_forward_ok E H W B i1 i2 i3 d x Hd HE H8 W8 HB Hx)
      as [y [Hy _]].
    exists y. exact Hy.
Qed.

End StageClaims.


Lemma CNNDecoder_output_truncated_witness :
  exists d,
    CNNDecoder_init 2 100 16
      (const_init f32_one) (const_init f32_one) (const_init f32_one) = Ok d
    /\ 8 * (100 / 8) < 100.
Proof.
  eexists. split; [reflexivity |].
  refine (proj1 (proj2 (proj2 (CNNDecoder_output_truncated 2 100 16
              (const_init f32_one) (const_init f32_one) (const_init f32_one)
              _ eq_refl _ _))) _); [lia | lia | discriminate].
Defined.

(** ** Values: the ReLU before the last upsample, and the token grid *)

Section ValueClaims.
Context {F : Type} {SF : Scalar F}.
Implicit Types (x y u v c : tensor F) (d : CNNDecoder F) (i : conv_init F).

Lemma relu_scalar_not_below (v : F) : not_below_zero (relu_scalar v).
Proof.
  unfold not_below_zero, relu_scalar.
  destruct (sltb v szero) eqn:Hv; [apply sltb_zero | exact Hv].
Qed.

Lemma nth_Forall (P : F -> Prop) (l : list F) (k : nat) (dflt : F) :
  Forall P l -> P dflt -> P (nth k l dflt).
Proof.
  intros Hl Hd. destruct (Nat.lt_ge_cases k (length l)) as [Hk | Hk].
  - rewrite Forall_forall in Hl. apply Hl. now apply nth_In.
  - now rewrite nth_overflow.
Qed.

Lemma relu_not_below x : Forall not_below_zero (data (relu x)).
Proof.
  simpl. apply Forall_forall. intros v Hv. apply in_map_iff in Hv.
  destruct Hv as [w [<- _]]. apply relu_scalar_not_below.
Qed.

Lemma get_relu_not_below x idx : not_below_zero (get (relu x) idx).
Proof.
  unfold get, get_def. apply nth_Forall; [apply relu_not_below |].
  apply sltb_zero.
Qed.

Lemma relu_scalar_zero : relu_scalar (szero : F) = szero.
Proof.
  unfold relu_scalar. now destruct (sltb szero szero).
Qed.

Lemma get_relu x idx : get (relu x) idx = relu_scalar (get x idx).
Proof.
  unfold get, get_def. cbn [relu sizes data].
  rewrite <- relu_scalar_zero at 1. apply map_nth.
Qed.

(** C6.  Every element of the image returned by [forward] is
    non-negative, that is, not below zero: the image is the 2x nearest
    upsample of the ReLU of the third convolution, so each of its elements
    is a value that the ReLU produced, read at half its position. *)
Theorem CNNDecoder_forward_not_negative (E H W : Z) i1 i2 i3 d x y :
  CNNDecoder_init E H W i1 i2 i3 = Ok d ->
  CNNDecoder_forward d x = Ok y ->
  Forall not_below_zero (data y)
  /\ (forall idx, not_below_zero (get y idx))
  /\ exists x4 c n h w,
       Sequential_forward (layer3 d) x4 = Ok y
       /\ conv2d E 3 3 1 (conv_weight 3 E i3) (conv_bias 3 i3) x4 = Ok c
       /\ sizes y = [n; 3; h * 2; w * 2]
       /\ forall b ch p q,
            in_range (sizes y) [b; ch; p; q] ->
            get y [b; ch; p; q]
            = relu_scalar (get c [b; ch; p / 2; q / 2]).
Proof.
  intros Hd Hf. apply CNNDecoder_init_inv in Hd. destruct Hd as [HE ->].
  apply CNNDecoder_forward_steps in Hf.
  destruct Hf as (B & T & C & x1 & x2 & x3 & x4 & Hx & H1 & H2 & H3 & H4 & H5).
  cbn [layer3] in *.
  destruct (stage_run _ _ _ _ _ _ H5)
    as (n & h & w & c & Hu & Hc & Hsc & Hup & Hsv & Hv).
  assert (Hall : Forall not_below_zero (data y)).
  { rewrite Hv. unfold tabulate. cbn [data].
    apply Forall_forall. intros v Hin.
    apply in_map_iff in Hin. destruct Hin as [o [<- _]].
    destruct (unravel [n; 3; h * 2; w * 2] o) as [|b [|ch [|p [|q [|]]]]];
      try apply sltb_zero.
    apply get_relu_not_below. }
  split; [exact Hall |]. split.
  - intros idx. unfold get, get_def. apply nth_Forall; [exact Hall |].
    apply sltb_zero.
  - exists x4, c, n, h, w. repeat split; try assumption.
    intros b ch p q Hin. rewrite Hsv in Hin.
    rewrite Hv at 1. unfold get at 1. rewrite get_tabulate by exact Hin.
    apply get_relu.
Qed.

End ValueClaims.

Lemma float32_not_below_zero (v : float32) :
  not_below_zero v -> v = S754_nan \/ SFleb (S754_zero false) v = true.
Proof.
  unfold not_below_zero. simpl.
  destruct v as [s | s | | s m e]; try destruct s; try discriminate; auto.
Qed.

Lemma CNNDecoder_forward_not_negative_witness :
  match CNNDecoder_init 2 16 16 (const_init f32_one) (const_init f32_one)
          (const_init f32_minus_one) with
  | Ok d =>
      match CNNDecoder_forward d tokens_1x4x2 with
      | Ok y => Forall not_below_zero (data y)
      | Err _ => False
      end
  | Err _ => False
  end.
Proof.
  destruct (CNNDecoder_init 2 16 16 (const_init f32_one) (const_init f32_one)
              (const_init f32_minus_one)) as [d|] eqn:Hd;
    [| discriminate].
  destruct (CNNDecoder_forward d tokens_1x4x2) as [y|] eqn:Hy.
  - exact (proj1 (CNNDecoder_forward_not_negative 2 16 16
                    (const_init f32_one) (const_init f32_one)
                    (const_init f32_minus_one) d tokens_1x4x2 y Hd Hy)).
  - injection Hd as <-. vm_compute in Hy. discriminate.
Defined.

(** ** The token grid is row-major *)

Lemma in_range_cons_inv (d : Z) (s idx : list Z) :
  in_range (d :: s) idx ->
  exists i r, idx = i :: r /\ 0 <= i < d /\ in_range s r.
Proof.
  intros H. inversion H as [|? i ? r Hi Hr]; subst. eauto.
Qed.

Lemma in_range_nil_inv (idx : list Z) : in_range [] idx -> idx = [].
Proof.
  intros H. now inversion H.
Qed.

Lemma in_range_3 (a b c : Z) (idx : list Z) :
  in_range [a; b; c] idx ->
  exists i j k,
    idx = [i; j; k] /\ 0 <= i < a /\ 0 <= j < b /\ 0 <= k < c.
Proof.
  intros H.
  apply in_range_cons_inv in H. destruct H as (i & r1 & -> & Hi & H).
  apply in_range_cons_inv in H. destruct H as (j & r2 & -> & Hj & H).
  apply in_range_cons_inv in H. destruct H as (k & r3 & -> & Hk & H).
  apply in_range_nil_inv in H. subst. exists i, j, k. auto.
Qed.

Lemma in_range_4 (a b c e : Z) (idx : list Z) :
  in_range [a; b; c; e] idx ->
  exists i j k l,
    idx = [i; j; k; l]
    /\ 0 <= i < a /\ 0 <= j < b /\ 0 <= k < c /\ 0 <= l < e.
Proof.
  intros H.
  apply in_range_cons_inv in H. destruct H as (i & r1 & -> & Hi & H).
  apply in_range_3 in H. destruct H as (j & k & l & -> & Hj & Hk & Hl).
  exists i, j, k, l. auto.
Qed.

Ltac range_intro := repeat constructor; try lia.

Section GridClaims.
Context {F : Type} {SF : Scalar F}.
Implicit Types (x y : tensor F) (d : CNNDecoder F).

(** C10.  On an input of shape [(batch, grid_h * grid_w, C)], [forward]
    is its three stages run on the grid [x2] that its reshape and its
    permutation make of the tokens, and to nothing else of the input.  The
    reshape keeps the buffer as it is, and in [x2] the token at sequence
    index [t] sits at grid row [t / grid_w] and grid column
    [t mod grid_w]; conversely grid cell [(r, q)] holds the token
    [r * grid_w + q].  The two directions make the correspondence
    one-to-one: no value is moved to another token, repeated or lost. *)
Theorem CNNDecoder_grid_row_major d x (B C : Z) :
  0 <= grid_h d -> 0 <= grid_w d -> shape_ok (sizes x) ->
  sizes x = [B; grid_h d * grid_w d; C] ->
  exists x1 x2,
    view x [B; grid_h d; grid_w d; C] = Ok x1
    /\ permute x1 [0; 3; 1; 2]%nat = Ok x2
    /\ CNNDecoder_forward d x
       = (y1 <- Sequential_forward (layer1 d) x2 ;;
          y2 <- Sequential_forward (layer2 d) y1 ;;
          Sequential_forward (layer3 d) y2)
    /\ data x1 = data x
    /\ sizes x1 = [B; grid_h d; grid_w d; C]
    /\ sizes x2 = [B; C; grid_h d; grid_w d]
    /\ (forall b t c,
          in_range (sizes x) [b; t; c] ->
          in_range (sizes x2) [b; c; t / grid_w d; t mod grid_w d]
          /\ get x2 [b; c; t / grid_w d; t mod grid_w d] = get x [b; t; c])
    /\ (forall b c r q,
          in_range (sizes x2) [b; c; r; q] ->
          in_range (sizes x) [b; r * grid_w d + q; c]
          /\ (r * grid_w d + q) / grid_w d = r
          /\ (r * grid_w d + q) mod grid_w d = q
          /\ get x2 [b; c; r; q] = get x [b; r * grid_w d + q; c]).
Proof.
  intros Hgh Hgw Hok Hx.
  set (gh := grid_h d) in *. set (gw := grid_w d) in *.
  assert (HB : 0 <= B) by (rewrite Hx in Hok; inversion Hok; assumption).
  assert (HC : 0 <= C).
  { rewrite Hx in Hok. inversion Hok as [|? ? _ Hr].
    inversion Hr as [|? ? _ Hr']. inversion Hr'. assumption. }
  set (x1 := {| sizes := [B; gh; gw; C]; data := data x |}).
  assert (H1 : view x [B; gh; gw; C] = Ok x1).
  { rewrite view_nonneg by range_intro. rewrite Hx. simpl numel.
    replace (B * (gh * gw * (C * 1)) =? B * (gh * (gw * (C * 1)))) with true
      by (symmetry; apply Z.eqb_eq; ring).
    reflexivity. }
  pose proof (permute_0312 x1 B gh gw C eq_refl) as H2.
  eexists x1, _. split; [exact H1 |]. split; [exact H2 |].
  split.
  { unfold CNNDecoder_forward. rewrite Hx. fold gh gw.
    rewrite H1. cbn [bind]. rewrite H2. cbn [bind].
    destruct (Sequential_forward (layer1 d) _) as [y1|]; [| reflexivity].
    cbn [bind].
    destruct (Sequential_forward (layer2 d) y1) as [y2|]; [| reflexivity].
    cbn [bind].
    now destruct (Sequential_forward (layer3 d) y2). }
  split; [reflexivity |]. split; [reflexivity |]. split; [reflexivity |].
  assert (Hcell : forall b c r q,
            0 <= b < B -> 0 <= c < C -> 0 <= r < gh -> 0 <= q < gw ->
            get (tabulate [B; C; gh; gw]
                   (fun idx =>
                      get x1 [nth 0 idx 0; nth 2 idx 0; nth 3 idx 0;
                              nth 1 idx 0]))
              [b; c; r; q]
            = get x [b; r * gw + q; c]).
  { intros b c r q Hb Hc Hr Hq. unfold get at 1.
    rewrite get_tabulate by range_intro.
    cbn [nth]. unfold get, get_def. cbn [sizes data x1]. rewrite Hx.
    f_equal. f_equal. simpl ravel. ring. }
  split.
  - intros b t c Hin. rewrite Hx in Hin.
    apply in_range_3 in Hin.
    destruct Hin as (b' & t' & c' & [= <- <- <-] & Hb & Ht & Hc).
    assert (0 < gw) by nia.
    pose proof (Z.div_mod t gw ltac:(lia)) as Hdm.
    pose proof (Z.mod_pos_bound t gw ltac:(lia)) as Hm.
    assert (0 <= t / gw) by (apply Z.div_pos; lia).
    assert (t / gw < gh) by (apply Z.div_lt_upper_bound; nia).
    split; [cbn [sizes tabulate]; range_intro |].
    rewrite Hcell by lia. do 3 f_equal. lia.
  - intros b c r q Hin. cbn [sizes tabulate] in Hin.
    apply in_range_4 in Hin.
    destruct Hin as (b' & c' & r' & q' & [= <- <- <- <-] & Hb & Hc & Hr & Hq).
    split; [rewrite Hx; range_intro; nia |].
    split; [symmetry; apply Z.div_unique with (r := q); lia |].
    split; [symmetry; apply Z.mod_unique with (q := r); lia |].
    apply Hcell; lia.
Qed.

End GridClaims.

Lemma CNNDecoder_grid_row_major_witness :
  match CNNDecoder_init 2 16 16 (const_init f32_one) (const_init f32_one)
          (const_init f32_one) with
  | Ok d =>
      exists x1 x2,
        view tokens_1x4x2 [1; grid_h d; grid_w d; 2] = Ok x1
        /\ permute x1 [0; 3; 1; 2]%nat = Ok x2
        /\ CNNDecoder_forward d tokens_1x4x2
           = (y1 <- Sequential_forward (layer1 d) x2 ;;
              y2 <- Sequential_forward (layer2 d) y1 ;;
              Sequential_forward (layer3 d) y2)
        /\ get x2 [0; 1; 3 / grid_w d; 3 mod grid_w d]
           = get tokens_1x4x2 [0; 3; 1]
  | Err _ => False
  end.
Proof.
  destruct (CNNDecoder_init 2 16 16 (const_init f32_one) (const_init f32_one)
              (const_init f32_one)) as [d|] eqn:Hd;
    [| discriminate].
  injection Hd as <-.
  destruct (CNNDecoder_grid_row_major
              {| img_height := 16; img_width := 16;
                 grid_h := 16 / 8; grid_w := 16 / 8;
                 layer1 := stage 2 2 (conv_weight 2 2 (const_init f32_one))
                             (conv_bias 2 (const_init f32_one));
                 layer2 := stage 2 2 (conv_weight 2 2 (const_init f32_one))
                             (conv_bias 2 (const_init f32_one));
                 layer3 := stage 2 3 (conv_weight 3 2 (const_init f32_one))
                             (conv_bias 3 (const_init f32_one)) |}
              tokens_1x4x2 1 2)
    as (x1 & x2 & H1 & H2 & Hfd & _ & _ & _ & Hfw & _).
  - discriminate.
  - discriminate.
  - unfold shape_ok. simpl. range_intro.
  - reflexivity.
  - exists x1, x2. split; [exact H1 |]. split; [exact H2 |].
    split; [exact Hfd |].
    apply (Hfw 0 3 1). simpl. range_intro.
Defined.

(** ** Reordering the batch *)

Section BatchPermuteFacts.
Context {A : Type}.
Implicit Types (t : tensor A) (p q : Z -> Z).

Lemma batch_permute_wf (d : A) p t :
  shape_ok (sizes t) -> wf (batch_permute d p t).
Proof.
  intros Hs. apply tabulate_wf. exact Hs.
Qed.

Lemma get_batch_permute (d : A) p t (b : Z) (r : list Z) :
  in_range (sizes t) (b :: r) ->
  get_def d (batch_permute d p t) (b :: r) = get_def d t (p b :: r).
Proof.
  intros Hin. unfold batch_permute. now rewrite get_tabulate.
Qed.

Lemma batch_permute_tabulate (d : A) p (n : Z) (s : list Z)
  (f : list Z -> A) :
  shape_ok (n :: s) ->
  (forall b, 0 <= b < n -> 0 <= p b < n) ->
  batch_permute d p (tabulate (n :: s) f)
  = tabulate (n :: s)
      (fun idx => match idx with b :: r => f (p b :: r) | [] => d end).
Proof.
  intros Hs Hp. unfold batch_permute. cbn [sizes tabulate].
  apply tabulate_ext; [exact Hs |].
  intros idx Hin. apply in_range_cons_inv in Hin.
  destruct Hin as (b & r & -> & Hb & Hr).
  apply get_tabulate. constructor; [apply Hp; exact Hb | exact Hr].
Qed.

Lemma batch_permute_inverse (d : A) p q t (n : Z) (s : list Z) :
  wf t -> sizes t = n :: s -> permutes n p q ->
  batch_permute d q (batch_permute d p t) = t.
Proof.
  intros Hwf Hs Hpq.
  apply (tensor_ext d); [apply batch_permute_wf; apply Hwf | exact Hwf | reflexivity |].
  cbn [sizes batch_permute tabulate]. intros idx Hin.
  rewrite Hs in Hin. pose proof Hin as Hin'.
  apply in_range_cons_inv in Hin'. destruct Hin' as (b & r & -> & Hb & Hr).
  destruct (Hpq b Hb) as [_ [Hq Hpq']].
  rewrite get_batch_permute by (cbn [sizes batch_permute tabulate];
                                rewrite Hs; exact Hin).
  rewrite get_batch_permute by (rewrite Hs; constructor; assumption).
  now rewrite Hpq'.
Qed.

(** On the buffer, the reordering moves whole blocks of [numel s]
    elements. *)
Lemma batch_permute_data (d : A) p t (n : Z) (s : list Z) :
  shape_ok (n :: s) -> sizes t = n :: s ->
  data (batch_permute d p t)
  = map (fun o =>
           nth (Z.to_nat (p (o / numel s) * numel s + o mod numel s))
             (data t) d)
        (zrange (numel (n :: s))).
Proof.
  intros Hs Ht. unfold batch_permute, tabulate. cbn [data]. rewrite Ht.
  apply map_ext_in. intros o Ho. apply in_zrange in Ho.
  cbn [unravel]. unfold get_def. rewrite Ht. cbn [ravel].
  inversion Hs as [|? ? Hn Hs']; subst.
  pose proof (numel_nonneg _ Hs') as Hm. simpl numel in Ho.
  assert (0 < numel s) by nia.
  rewrite ravel_unravel by (try assumption; apply Z.mod_pos_bound; lia).
  reflexivity.
Qed.

Lemma view_batch_permute (d : A) p t (n : Z) (s s' : list Z) :
  shape_ok (n :: s) -> sizes t = n :: s -> shape_ok (n :: s') ->
  numel (n :: s) = numel (n :: s') ->
  {| sizes := n :: s'; data := data (batch_permute d p t) |}
  = batch_permute d p {| sizes := n :: s'; data := data t |}.
Proof.
  intros Hs Ht Hs' Hn. unfold batch_permute at 2. unfold tabulate.
  cbn [sizes]. f_equal.
  rewrite (batch_permute_data d p t n s Hs Ht), Hn.
  apply map_ext_in. intros o Ho. apply in_zrange in Ho.
  cbn [unravel]. unfold get_def. cbn [sizes data ravel].
  inversion Hs as [|? ? Hn0 Hss]; subst.
  inversion Hs' as [|? ? _ Hss']; subst.
  pose proof (numel_nonneg _ Hss) as Hm.
  pose proof (numel_nonneg _ Hss') as Hm'.
  simpl numel in Ho, Hn.
  assert (0 < numel s') by nia.
  assert (Heq : numel s = numel s') by nia.
  rewrite ravel_unravel by (try assumption; apply Z.mod_pos_bound; lia).
  now rewrite Heq.
Qed.

End BatchPermuteFacts.

Section DecoderBatch.
Context {F : Type} {SF : Scalar F}.
Implicit Types (x y u v : tensor F) (d : CNNDecoder F) (p q : Z -> Z).

Lemma permutes_maps_into (n : Z) p q : permutes n p q -> maps_into n p.
Proof.
  intros Hpq b Hb. apply (Hpq b Hb).
Qed.

Lemma get_bperm p x (b : Z) (r : list Z) :
  in_range (sizes x) (b :: r) -> get (bperm p x) (b :: r) = get x (p b :: r).
Proof.
  apply get_batch_permute.
Qed.

Lemma bperm_tabulate p (n : Z) (s : list Z) (f : list Z -> F) :
  shape_ok (n :: s) -> maps_into n p ->
  bperm p (tabulate (n :: s) f)
  = tabulate (n :: s)
      (fun idx => match idx with b :: r => f (p b :: r) | [] => szero end).
Proof.
  apply batch_permute_tabulate.
Qed.

Lemma view_bperm p x (n : Z) (s s' : list Z) :
  shape_ok (n :: s) -> sizes x = n :: s -> shape_ok (n :: s') ->
  numel (n :: s) = numel (n :: s') ->
  {| sizes := n :: s'; data := data (bperm p x) |}
  = bperm p {| sizes := n :: s'; data := data x |}.
Proof.
  apply view_batch_permute.
Qed.

Lemma sum_over_ext (l : list Z) (f g : Z -> F) :
  (forall i, In i l -> f i = g i) -> sum_over l f = sum_over l g.
Proof.
  unfold sum_over. generalize (szero : F) as acc.
  induction l as [|a l IH]; intros acc Hfg; simpl; [reflexivity |].
  rewrite (Hfg a) by (now left). apply IH. intros i Hi. apply Hfg. now right.
Qed.

Lemma inb_true (n i : Z) : inb n i = true <-> 0 <= i < n.
Proof.
  unfold inb. rewrite andb_true_iff, Z.leb_le, Z.ltb_lt. tauto.
Qed.

Lemma permute_0312_bperm p x x2 (n h w c : Z) :
  sizes x = [n; h; w; c] -> shape_ok (sizes x) -> maps_into n p ->
  permute x [0; 3; 1; 2]%nat = Ok x2 ->
  permute (bperm p x) [0; 3; 1; 2]%nat = Ok (bperm p x2).
Proof.
  intros Hx Hs Hp H2.
  rewrite (permute_0312 x n h w c Hx) in H2. injection H2 as <-.
  rewrite (permute_0312 (bperm p x) n h w c) by exact Hx.
  rewrite Hx in Hs.
  assert (Hs' : shape_ok [n; c; h; w]).
  { inversion Hs as [|? ? ? Hs1]; inversion Hs1 as [|? ? ? Hs2];
      inversion Hs2 as [|? ? ? Hs3]; inversion Hs3; subst.
    range_intro. }
  rewrite bperm_tabulate by assumption. f_equal.
  apply tabulate_ext; [exact Hs' |].
  intros idx Hin. apply in_range_4 in Hin.
  destruct Hin as (b & ch & i & j & -> & Hb & Hc & Hi & Hj).
  cbn [nth]. apply get_bperm. rewrite Hx. range_intro.
Qed.

Lemma conv2d_bperm (cin cout k pd : Z) (wt bs : tensor F) p x (n : Z)
  (s : list Z) :
  sizes x = n :: s -> shape_ok (sizes x) -> maps_into n p ->
  conv2d cin cout k pd wt bs (bperm p x)
  = result_map (bperm p) (conv2d cin cout k pd wt bs x).
Proof.
  intros Hx Hs Hp. unfold conv2d.
  replace (sizes (bperm p x)) with (sizes x) by reflexivity.
  destruct (sizes x) as [|n' [|c [|h [|w [|]]]]] eqn:Hsz; try reflexivity.
  injection Hx as -> <-.
  destruct (Z.ltb_spec cout 1); [reflexivity |].
  destruct (Z.eqb_spec c cin); [| reflexivity]. subst c. simpl negb.
  cbv iota.
  destruct (Z.ltb_spec (h + 2 * pd) k); [reflexivity |].
  destruct (Z.ltb_spec (w + 2 * pd) k); [reflexivity |].
  simpl orb. cbv iota. unfold result_map, bind. f_equal.
  assert (Hs' : shape_ok [n; cout; h + 2 * pd - k + 1; w + 2 * pd - k + 1]).
  { inversion Hs; subst. range_intro. }
  rewrite bperm_tabulate by assumption.
  apply tabulate_ext; [exact Hs' |].
  intros idx Hin. apply in_range_4 in Hin.
  destruct Hin as (b & co & i & j & -> & Hb & Hco & Hi & Hj).
  unfold conv2d_at. f_equal.
  apply sum_over_ext. intros ci Hci. apply in_zrange in Hci.
  apply sum_over_ext. intros ki _. apply sum_over_ext. intros kj _.
  f_equal. unfold get_padded.
  destruct (inb h (i + ki - pd)) eqn:Hii; [| reflexivity].
  destruct (inb w (j + kj - pd)) eqn:Hjj; [| reflexivity].
  apply inb_true in Hii. apply inb_true in Hjj. cbn [andb].
  apply get_bperm. rewrite Hsz. range_intro.
Qed.

Lemma relu_bperm p x : relu (bperm p x) = bperm p (relu x).
Proof.
  unfold bperm, batch_permute, relu, tabulate. cbn [sizes data]. f_equal.
  rewrite map_map. apply map_ext. intros o.
  destruct (unravel (sizes x) o) as [|b r]; symmetry; apply get_relu.
Qed.

Lemma upsample_bperm (k : Z) p x (n : Z) (s : list Z) :
  0 <= k ->
  sizes x = n :: s -> shape_ok (sizes x) -> maps_into n p ->
  upsample_nearest2d k (bperm p x)
  = result_map (bperm p) (upsample_nearest2d k x).
Proof.
  intros Hk Hx Hs Hp. unfold upsample_nearest2d.
  replace (sizes (bperm p x)) with (sizes x) by reflexivity.
  destruct (sizes x) as [|n' [|c [|h [|w [|]]]]] eqn:Hsz; try reflexivity.
  injection Hx as -> <-.
  destruct ((c =? 0) || (h =? 0) || (w =? 0)); [reflexivity |].
  unfold result_map, bind. f_equal.
  assert (Hpos : 0 <= n /\ 0 <= c /\ 0 <= h /\ 0 <= w).
  { inversion Hs as [|? ? ? Hs1]; inversion Hs1 as [|? ? ? Hs2];
      inversion Hs2 as [|? ? ? Hs3]; inversion Hs3; subst. lia. }
  assert (Hs' : shape_ok [n; c; h * k; w * k]) by (range_intro; nia).
  rewrite bperm_tabulate by assumption.
  apply tabulate_ext; [exact Hs' |].
  intros idx Hin. apply in_range_4 in Hin.
  destruct Hin as (b & ch & i & j & -> & Hb & Hc & Hi & Hj).
  assert (0 < k) by nia.
  apply get_bperm. rewrite Hsz. range_intro.
  - apply Z.div_pos; lia.
  - apply Z.div_lt_upper_bound; lia.
  - apply Z.div_pos; lia.
  - apply Z.div_lt_upper_bound; lia.
Qed.

Lemma stage_bperm (cin cout : Z) (wt bs : tensor F) p u (n : Z)
  (s : list Z) :
  sizes u = n :: s -> shape_ok (sizes u) -> maps_into n p ->
  Sequential_forward (stage cin cout wt bs) (bperm p u)
  = result_map (bperm p) (Sequential_forward (stage cin cout wt bs) u).
Proof.
  intros Hu Hs Hp. cbn [Sequential_forward stage Module_forward].
  rewrite (conv2d_bperm cin cout 3 1 wt bs p u n s Hu Hs Hp).
  destruct (conv2d cin cout 3 1 wt bs u) as [c|] eqn:Hc; [| reflexivity].
  cbn [result_map bind].
  destruct (conv2d_same_inv _ _ _ _ _ _ Hc)
    as (n' & h & w & Hu' & Hsc & Hco & Hh & Hw).
  rewrite Hu in Hu'. injection Hu' as <- ->.
  rewrite relu_bperm.
  assert (Hr : sizes (relu c) = n :: [cout; h; w])
    by (rewrite relu_sizes; exact Hsc).
  assert (Hro : shape_ok (sizes (relu c))).
  { rewrite Hr. rewrite Hu in Hs. inversion Hs; subst. range_intro. }
  rewrite (upsample_bperm 2 p (relu c) n [cout; h; w] ltac:(lia) Hr Hro Hp).
  destruct (upsample_nearest2d 2 (relu c)); reflexivity.
Qed.

Lemma stage_shape_ok (cin cout : Z) (wt bs : tensor F) u v :
  shape_ok (sizes u) ->
  Sequential_forward (stage cin cout wt bs) u = Ok v ->
  shape_ok (sizes v) /\ exists s, sizes v = hd 0 (sizes u) :: s.
Proof.
  intros Hs Hf.
  destruct (stage_run _ _ _ _ _ _ Hf)
    as (n & h & w & c & Hu & Hc & Hsc & Hup & Hsv & Hv).
  destruct (conv2d_same_inv _ _ _ _ _ _ Hc)
    as (n' & h' & w' & Hu' & Hsc' & Hco & Hh & Hw).
  rewrite Hu in Hu'. injection Hu' as <- <- <-.
  rewrite Hu in Hs. inversion Hs; subst.
  rewrite Hsv, Hu. split; [range_intro | eexists; reflexivity].
Qed.

Lemma CNNDecoder_forward_bperm (E H W : Z) i1 i2 i3 d p x (n : Z)
  (s : list Z) :
  CNNDecoder_init E H W i1 i2 i3 = Ok d ->
  0 <= H -> 0 <= W ->
  sizes x = n :: s -> shape_ok (sizes x) -> maps_into n p ->
  CNNDecoder_forward d (bperm p x)
  = result_map (bperm p) (CNNDecoder_forward d x).
Proof.
  intros Hd HH HW Hx Hs Hp.
  apply CNNDecoder_init_inv in Hd. destruct Hd as [HE ->].
  unfold CNNDecoder_forward. cbn [grid_h grid_w layer1 layer2 layer3].
  replace (sizes (bperm p x)) with (sizes x) by reflexivity.
  destruct (sizes x) as [|B [|T [|C [|]]]] eqn:Hsz; try reflexivity.
  injection Hx as -> <-.
  assert (Hgh : 0 <= H / 8) by (apply Z.div_pos; lia).
  assert (Hgw : 0 <= W / 8) by (apply Z.div_pos; lia).
  assert (HBC : 0 <= n /\ 0 <= C).
  { inversion Hs as [|? ? ? Hs1]; inversion Hs1 as [|? ? ? Hs2];
      inversion Hs2; subst. lia. }
  assert (Hs1 : shape_ok [n; H / 8; W / 8; C]) by range_intro.
  rewrite !view_nonneg by exact Hs1.
  replace (sizes (bperm p x)) with (sizes x) by reflexivity.
  destruct (Z.eqb_spec (numel (sizes x)) (numel [n; H / 8; W / 8; C]))
    as [Hn |]; [| reflexivity].
  cbn [bind].
  rewrite (view_bperm p x n [T; C] [H / 8; W / 8; C])
    by (try assumption; rewrite <- Hsz; assumption).
  set (x1 := {| sizes := [n; H / 8; W / 8; C]; data := data x |}).
  destruct (permute x1 [0; 3; 1; 2]%nat) as [x2|] eqn:H2.
  2:{ rewrite (permute_0312 x1 n (H / 8) (W / 8) C eq_refl) in H2.
      discriminate. }
  rewrite (permute_0312_bperm p x1 x2 n (H / 8) (W / 8) C eq_refl Hs1 Hp H2).
  cbn [bind].
  assert (Hs2 : sizes x2 = [n; C; H / 8; W / 8]).
  { rewrite (permute_0312 x1 n (H / 8) (W / 8) C eq_refl) in H2.
    now injection H2 as <-. }
  assert (Hok2 : shape_ok (sizes x2)) by (rewrite Hs2; range_intro).
  rewrite (stage_bperm _ _ _ _ p x2 n _ Hs2 Hok2 Hp).
  destruct (Sequential_forward _ x2) as [x3|] eqn:H3; [| reflexivity].
  cbn [result_map bind].
  destruct (stage_shape_ok _ _ _ _ _ _ Hok2 H3) as [Hok3 [s3 Hs3]].
  rewrite Hs2 in Hs3. cbn [hd] in Hs3.
  rewrite (stage_bperm _ _ _ _ p x3 n _ Hs3 Hok3 Hp).
  destruct (Sequential_forward _ x3) as [x4|] eqn:H4; [| reflexivity].
  cbn [result_map bind].
  destruct (stage_shape_ok _ _ _ _ _ _ Hok3 H4) as [Hok4 [s4 Hs4]].
  rewrite Hs3 in Hs4. cbn [hd] in Hs4.
  rewrite (stage_bperm _ _ _ _ p x4 n _ Hs4 Hok4 Hp).
  destruct (Sequential_forward _ x4) as [y|] eqn:H5; reflexivity.
Qed.

End DecoderBatch.

(** ** The attention stack: shapes *)

Section TransformerShape.
Context {F : Type} {SF : Scalar F} {G : Type} {LB : Library F G}.
Implicit Types (x y : tensor F) (g : G) (m : M G (tensor F)).

Lemma returns_shape_lift (r : result (tensor F)) (a : tensor F)
  (s : list Z) :
  r = Ok a -> sizes a = s -> returns_shape (G := G) (lift r) s.
Proof.
  intros -> Hs g. exists a, g. split; [reflexivity | exact Hs].
Qed.

Lemma returns_shape_bind m (k : tensor F -> M G (tensor F))
  (s s' : list Z) :
  returns_shape m s ->
  (forall a, sizes a = s -> returns_shape (k a) s') ->
  returns_shape (mbind m k) s'.
Proof.
  intros Hm Hk g. destruct (Hm g) as (a & g1 & Hmg & Ha).
  unfold mbind. rewrite Hmg. apply Hk. exact Ha.
Qed.

Lemma Dropout_forward_shape (p : Q) (tr : bool) x :
  returns_shape (Dropout_forward p tr x) (sizes x).
Proof.
  intros g. unfold Dropout_forward.
  destruct (negb tr || Qeq_bool p 0 || (numel (sizes x) =? 0));
    eexists; eexists; split; reflexivity.
Qed.

Lemma rows_rowwise (out : Z) (k : list F -> list F) x (n l e : Z) :
  sizes x = [n; l; e] -> rows out k x = rowwise out k x n l e.
Proof.
  intros Hx. unfold rows, rowwise. rewrite Hx. cbn [removelast last app].
  apply tabulate_ext_length. intros idx Hlen.
  destruct idx as [|b [|t [|o [|]]]]; try discriminate.
  reflexivity.
Qed.

Lemma LayerNorm_forward_eq (ln : LayerNorm F) x (n l e : Z) :
  sizes x = [n; l; e] -> normalized_shape ln = e ->
  LayerNorm_forward ln x
  = Ok (rowwise e
          (fun r => layer_norm_row (eps ln) r (data (ln_weight ln))
                      (data (ln_bias ln)))
          x n l e).
Proof.
  intros Hx He. unfold LayerNorm_forward.
  rewrite (rows_rowwise _ _ x n l e Hx). rewrite Hx. cbn [last].
  now rewrite He, Z.eqb_refl.
Qed.

Lemma Linear_forward_eq (li : Linear F) x (n l inn out : Z) :
  sizes x = [n; l; inn] -> linear_dims inn out li ->
  Linear_forward li x
  = Ok (rowwise out (affine_row (lin_weight li) (lin_bias li) 0 inn out)
          x n l inn).
Proof.
  intros Hx [Hi Ho]. unfold Linear_forward.
  rewrite (rows_rowwise _ _ x n l inn Hx). rewrite Hx. cbn [last].
  now rewrite Hi, Ho, Z.eqb_refl.
Qed.

Lemma add_eq x y :
  sizes x = sizes y ->
  add x y = Ok {| sizes := sizes x; data := zip_add (data x) (data y) |}.
Proof.
  intros Hxy. unfold add.
  destruct (list_eq_dec Z.eq_dec (sizes x) (sizes y)); [reflexivity |].
  contradiction.
Qed.

Lemma check_attn_mask_ok (am : option (mask F)) (n heads l s : Z) :
  attn_mask_ok am n heads l s ->
  check_attn_mask (option_map canonical_mask am) (n * heads) l s = Ok tt.
Proof.
  destruct am as [mk|]; [| reflexivity]. simpl.
  intros [-> | ->]; now rewrite !Z.eqb_refl.
Qed.

Lemma check_padding_mask_ok (kpm : option (mask F)) (n s : Z) :
  padding_mask_ok kpm n s ->
  check_padding_mask (option_map canonical_mask kpm) n s = Ok tt.
Proof.
  destruct kpm as [mk|]; [| reflexivity]. simpl.
  intros ->. now rewrite !Z.eqb_refl.
Qed.

Lemma check_rank_attn (am : option (mask F)) (n heads l s : Z) :
  attn_mask_ok am n heads l s ->
  check_rank (option_map canonical_mask am) rank_2_or_3 = Ok tt.
Proof.
  destruct am as [mk|]; [| reflexivity]. simpl.
  intros [-> | ->]; reflexivity.
Qed.

Lemma check_rank_padding (kpm : option (mask F)) (n s : Z) :
  padding_mask_ok kpm n s ->
  check_rank (option_map canonical_mask kpm) rank_2 = Ok tt.
Proof.
  destruct kpm as [mk|]; [| reflexivity]. simpl.
  intros ->. reflexivity.
Qed.

Lemma infer_size_one_inferred (a b c x : Z) :
  0 <= a -> 0 <= b -> 0 <= c ->
  infer_size [a; b; -1; c] (x * (a * b * c))
  = if a * b * c =? 0 then Err ViewAmbiguous else Ok [a; b; x; c].
Proof.
  intros Ha Hb Hc. unfold infer_size. cbn [infer_scan].
  destruct (Z.eqb_spec a (-1)); [lia |].
  destruct (Z.leb_spec 0 a); [| lia].
  destruct (Z.eqb_spec b (-1)); [lia |].
  destruct (Z.leb_spec 0 b); [| lia].
  change (-1 =? -1) with true. cbv iota.
  destruct (Z.eqb_spec c (-1)); [lia |].
  destruct (Z.leb_spec 0 c); [| lia].
  cbn [bind fst snd].
  replace (1 * a * b * c) with (a * b * c) by ring.
  destruct (Z.eqb_spec (a * b * c) 0) as [Hz | Hz].
  - rewrite Hz, Z.mul_0_r. reflexivity.
  - assert (Hp : 0 < a * b * c) by nia.
    rewrite Z.mod_mul by lia.
    destruct (Z.ltb_spec 0 (a * b * c)); [| lia].
    cbn [Z.eqb andb]. rewrite orb_true_r.
    rewrite Z.div_mul by lia. reflexivity.
Qed.

(** The merged mask has a multiple of [bsz * num_heads * src_len]
    elements. *)
Lemma merged_sizes_numel (am kpm : option (tensor F)) (n heads l s : Z)
  (sz : list Z) :
  merged_sizes am kpm n heads l s = Some sz ->
  hd 0 sz = 1 \/ exists c : Z, numel sz = c * (n * heads * s).
Proof.
  unfold merged_sizes. intros Hm.
  destruct am as [m|], kpm as [k|]; try discriminate.
  - injection Hm as <-. right. exists l. cbn [numel]. ring.
  - destruct (sizes m) as [|a [|b [|c r]]]; injection Hm as <-;
      try (right; exists l; cbn [numel]; ring).
    left. reflexivity.
  - injection Hm as <-. right. exists 1. cbn [numel]. ring.
Qed.

(** The reshape of the merged mask fails exactly on a per-head mask of an
    empty batch or an empty source. *)
Lemma check_mask_view_cases (am kpm : option (tensor F)) (n heads l s : Z) :
  0 <= n -> 0 <= heads -> 0 <= s ->
  check_mask_view am kpm n heads l s = Ok tt
  \/ (n * heads * s = 0
      /\ check_mask_view am kpm n heads l s = Err ViewAmbiguous).
Proof.
  intros Hn Hh Hs. unfold check_mask_view.
  destruct (merged_sizes am kpm n heads l s) as [sz|] eqn:Hm;
    [| now left].
  destruct (Z.eqb_spec (hd 0 sz) 1) as [|Hne]; [now left |].
  destruct (merged_sizes_numel am kpm n heads l s sz Hm) as [H1 | [c Hc]];
    [contradiction |].
  rewrite Hc, infer_size_one_inferred by assumption.
  destruct (Z.eqb_spec (n * heads * s) 0); [right | left]; auto.
Qed.

Lemma check_mask_view_ok (am kpm : option (tensor F)) (n heads l s : Z) :
  1 <= n -> 1 <= heads -> 1 <= s ->
  check_mask_view am kpm n heads l s = Ok tt.
Proof.
  intros Hn Hh Hs.
  destruct (check_mask_view_cases am kpm n heads l s
              ltac:(lia) ltac:(lia) ltac:(lia)) as [Hv | [Hz _]];
    [exact Hv | nia].
Qed.

(** The reshape of the projected keys, for a key of the query's batch. *)
Lemma infer_size_heads (n heads e s : Z) :
  0 <= n -> 0 < heads -> 0 < e -> 0 <= s -> e / heads * heads = e ->
  infer_size [s; n * heads; e / heads] (numel [s; n; e])
  = Ok [s; n * heads; e / heads].
Proof.
  intros Hn Hh He Hs Hdiv.
  assert (Hhd : 0 <= e / heads) by (apply Z.div_pos; lia).
  assert (Hnh : 0 <= n * heads) by nia.
  rewrite infer_size_nonneg by (repeat constructor; assumption).
  cbn [numel].
  replace (s * (n * (e * 1)) =? s * (n * heads * (e / heads * 1))) with true;
    [reflexivity |].
  symmetry. apply Z.eqb_eq.
  transitivity (s * (n * (e / heads * heads))); [rewrite Hdiv |]; ring.
Qed.

(** The attention, with its shape checks passed, as the steps it runs. *)
Lemma MultiheadAttention_forward_eq (a : MultiheadAttention F) (tr : bool)
  (query key : tensor F) (kpm am : option (mask F)) (n l s e heads : Z) :
  mha_dims e heads a ->
  sizes query = [n; l; e] -> sizes key = [n; s; e] ->
  0 <= n -> 0 <= s ->
  attn_mask_ok am n heads l s -> padding_mask_ok kpm n s ->
  forall g,
    MultiheadAttention_forward a tr query key key kpm am g
    = (_ <~ lift (check_mask_view (option_map canonical_mask am)
                    (option_map canonical_mask kpm) n heads l s) ;;
       w <~ Dropout_forward (attn_dropout a) tr
              (attn_weights a
                 (rowwise e
                    (affine_row (in_proj_weight a) (in_proj_bias a)
                       (0 * e) e e) query n l e)
                 (rowwise e
                    (affine_row (in_proj_weight a) (in_proj_bias a)
                       (1 * e) e e) key n s e)
                 (option_map canonical_mask am)
                 (option_map canonical_mask kpm) n l s) ;;
       lift (Linear_forward (out_proj a)
               (attn_output a w
                  (rowwise e
                     (affine_row (in_proj_weight a) (in_proj_bias a)
                        (2 * e) e e) key n s e)
                  n l s))) g.
Proof.
  intros (He & Hh & Hep & Hhp & Hdiv & _) Hq Hk Hn Hs Ham Hkpm g.
  unfold MultiheadAttention_forward. rewrite Hq, Hk.
  cbn [length Nat.ltb Nat.leb Nat.eqb orb andb negb].
  unfold mbind at 1.
  rewrite (check_rank_padding kpm n s Hkpm). cbn [lift].
  unfold mbind at 1.
  rewrite (check_rank_attn am n heads l s Ham). cbn [lift].
  unfold attention. rewrite Hq, Hk. unfold head_dim. rewrite He, Hh, Hdiv.
  rewrite !Z.eqb_refl. cbn [negb andb].
  unfold mbind at 1.
  rewrite (check_attn_mask_ok am n heads l s Ham). cbn [lift].
  unfold mbind at 1.
  rewrite (infer_size_heads n heads e s Hn Hhp Hep Hs Hdiv). cbn [lift].
  unfold mbind at 1.
  rewrite (check_padding_mask_ok kpm n s Hkpm). cbn [lift].
  reflexivity.
Qed.

Lemma MultiheadAttention_forward_shape (a : MultiheadAttention F)
  (tr : bool) (query key : tensor F) (kpm am : option (mask F))
  (n l s e heads : Z) :
  mha_dims e heads a ->
  sizes query = [n; l; e] -> sizes key = [n; s; e] ->
  1 <= n -> 1 <= s ->
  attn_mask_ok am n heads l s -> padding_mask_ok kpm n s ->
  returns_shape (MultiheadAttention_forward a tr query key key kpm am)
    [n; l; e].
Proof.
  intros Ha Hq Hk Hn Hs Ham Hkpm g.
  rewrite (MultiheadAttention_forward_eq a tr query key kpm am n l s e heads
             Ha Hq Hk ltac:(lia) ltac:(lia) Ham Hkpm g).
  destruct Ha as (He & Hh & _ & Hhp & _ & Ho).
  unfold mbind at 1.
  rewrite check_mask_view_ok by lia. cbn [lift].
  revert g. apply returns_shape_bind with (s := [n; heads; l; s]).
  - rewrite <- Hh. apply Dropout_forward_shape.
  - intros w Hw. eapply returns_shape_lift.
    + apply Linear_forward_eq with (n := n) (l := l); [| exact Ho].
      cbn [sizes attn_output tabulate]. now rewrite He.
    + reflexivity.
Qed.

Lemma TransformerDecoderLayer_forward_shape (ly : TransformerDecoderLayer F)
  (tr : bool) (tgt memory : tensor F) (tm mm tk mk : option (mask F))
  (n l s e heads : Z) :
  layer_dims e heads ly ->
  sizes tgt = [n; l; e] -> sizes memory = [n; s; e] ->
  1 <= n -> 1 <= l -> 1 <= s ->
  attn_mask_ok tm n heads l l -> attn_mask_ok mm n heads l s ->
  padding_mask_ok tk n l -> padding_mask_ok mk n s ->
  returns_shape (TransformerDecoderLayer_forward ly tr tgt memory tm mm tk mk)
    [n; l; e].
Proof.
  intros (Hsa & Hca & Hl1 & _ & Hl2 & Hn1 & Hn2 & Hn3) Ht Hm Hn Hl Hs
         Htm Hmm Htk Hmk.
  assert (Hsab : forall x, sizes x = [n; l; e] ->
                   returns_shape (sa_block ly tr x tm tk) [n; l; e]).
  { intros x Hx. unfold sa_block.
    eapply returns_shape_bind.
    - eapply MultiheadAttention_forward_shape; eauto.
    - intros a Ha. rewrite <- Ha. apply Dropout_forward_shape. }
  assert (Hcab : forall x, sizes x = [n; l; e] ->
                   returns_shape (mha_block ly tr x memory mm mk) [n; l; e]).
  { intros x Hx. unfold mha_block.
    eapply returns_shape_bind.
    - eapply MultiheadAttention_forward_shape; eauto.
    - intros a Ha. rewrite <- Ha. apply Dropout_forward_shape. }
  assert (Hffb : forall x, sizes x = [n; l; e] ->
                   returns_shape (ff_block ly tr x) [n; l; e]).
  { intros x Hx. unfold ff_block.
    eapply returns_shape_bind.
    { eapply returns_shape_lift;
        [apply (Linear_forward_eq _ _ n l _ _ Hx Hl1) | reflexivity]. }
    intros a Ha. eapply returns_shape_bind.
    { apply Dropout_forward_shape. }
    intros b Hb. rewrite relu_sizes in Hb.
    assert (Hb' : sizes b = [n; l; out_features (linear1 ly)])
      by (rewrite Hb; exact Ha).
    eapply returns_shape_bind.
    { eapply returns_shape_lift;
        [apply (Linear_forward_eq _ _ n l _ _ Hb' Hl2) | reflexivity]. }
    intros c Hc.
    replace [n; l; e] with (sizes c) by (rewrite Hc; reflexivity).
    apply Dropout_forward_shape. }
  assert (Hln : forall ln x, normalized_shape ln = e -> sizes x = [n; l; e] ->
                  returns_shape (G := G) (lift (LayerNorm_forward ln x))
                    [n; l; e]).
  { intros ln x Hne Hx. eapply returns_shape_lift;
      [eapply LayerNorm_forward_eq; eauto | reflexivity]. }
  assert (Hadd : forall x y, sizes x = [n; l; e] -> sizes y = [n; l; e] ->
                   returns_shape (G := G) (lift (add x y)) [n; l; e]).
  { intros x y Hx Hy. eapply returns_shape_lift;
      [apply add_eq; congruence | exact Hx]. }
  unfold TransformerDecoderLayer_forward.
  destruct (norm_first ly).
  - eapply returns_shape_bind; [apply Hln; assumption |]. intros y1 Hy1.
    eapply returns_shape_bind; [apply Hsab; assumption |]. intros y2 Hy2.
    eapply returns_shape_bind; [apply Hadd; assumption |]. intros x1 Hx1.
    eapply returns_shape_bind; [apply Hln; assumption |]. intros y3 Hy3.
    eapply returns_shape_bind; [apply Hcab; assumption |]. intros y4 Hy4.
    eapply returns_shape_bind; [apply Hadd; assumption |]. intros x2 Hx2.
    eapply returns_shape_bind; [apply Hln; assumption |]. intros y5 Hy5.
    eapply returns_shape_bind; [apply Hffb; assumption |]. intros y6 Hy6.
    apply Hadd; assumption.
  - eapply returns_shape_bind; [apply Hsab; assumption |]. intros y1 Hy1.
    eapply returns_shape_bind; [apply Hadd; assumption |]. intros x1 Hx1.
    eapply returns_shape_bind; [apply Hln; assumption |]. intros x2 Hx2.
    eapply returns_shape_bind; [apply Hcab; assumption |]. intros y2 Hy2.
    eapply returns_shape_bind; [apply Hadd; assumption |]. intros x3 Hx3.
    eapply returns_shape_bind; [apply Hln; assumption |]. intros x4 Hx4.
    eapply returns_shape_bind; [apply Hffb; assumption |]. intros y3 Hy3.
    eapply returns_shape_bind; [apply Hadd; assumption |]. intros x5 Hx5.
    apply Hln; assumption.
Qed.

Lemma layers_forward_shape (ls : list (TransformerDecoderLayer F))
  (tr : bool) (memory : tensor F) (tm mm tk mk : option (mask F))
  (n l s e heads : Z) :
  Forall (layer_dims e heads) ls ->
  sizes memory = [n; s; e] ->
  1 <= n -> 1 <= l -> 1 <= s ->
  attn_mask_ok tm n heads l l -> attn_mask_ok mm n heads l s ->
  padding_mask_ok tk n l -> padding_mask_ok mk n s ->
  forall tgt, sizes tgt = [n; l; e] ->
    returns_shape (layers_forward ls tr tgt memory tm mm tk mk) [n; l; e].
Proof.
  intros Hls Hm Hn Hl Hs Htm Hmm Htk Hmk.
  induction Hls as [|ly ls Hly _ IH]; intros tgt Ht; cbn [layers_forward].
  - eapply returns_shape_lift; [reflexivity | exact Ht].
  - eapply returns_shape_bind.
    + eapply TransformerDecoderLayer_forward_shape; eauto.
    + intros a Ha. apply IH. exact Ha.
Qed.

End TransformerShape.

(** ** [TransformerDecoder]: construction and output shape *)

Section TransformerClaims.
Context {F : Type} {SF : Scalar F} {G : Type} {LB : Library F G}.
Implicit Types (self : TransformerDecoder F) (g : G).

Lemma nn_Linear_dims (inn out : Z) (i : param_init) (k : nat)
  (li : Linear F) :
  nn_Linear inn out i k = Ok li -> linear_dims inn out li /\ 0 <= out.
Proof.
  unfold nn_Linear.
  destruct (Z.ltb_spec inn 0); [discriminate |].
  destruct (Z.ltb_spec out 0); [discriminate |]. cbn [orb].
  intros [= <-]. repeat split; try reflexivity; lia.
Qed.

Lemma nn_MultiheadAttention_dims (e heads : Z) (p : Q) (i : param_init)
  (k : nat) (a : MultiheadAttention F) :
  nn_MultiheadAttention e heads p i k = Ok a ->
  mha_dims e heads a /\ attn_dropout a = p.
Proof.
  unfold nn_MultiheadAttention.
  destruct (Z.leb_spec e 0); [discriminate |].
  destruct (Z.leb_spec heads 0); [discriminate |]. cbn [orb].
  destruct (Z.eqb_spec (e / heads * heads) e); [| discriminate].
  cbn [negb]. intros Hb. apply bind_ok in Hb.
  destruct Hb as (o & Ho & [= <-]).
  apply nn_Linear_dims in Ho. destruct Ho as [Ho _].
  repeat split; try assumption; try reflexivity; apply Ho.
Qed.

Lemma nn_LayerNorm_dims (e : Z) (i : param_init) (k : nat)
  (ln : LayerNorm F) :
  nn_LayerNorm e i k = Ok ln -> normalized_shape ln = e.
Proof.
  unfold nn_LayerNorm. destruct (e <? 0); [discriminate |].
  now intros [= <-].
Qed.

Lemma nn_Dropout_eq (p q : Q) : nn_Dropout p = Ok q -> q = p.
Proof.
  unfold nn_Dropout. destruct (Qle_bool 0 p && Qle_bool p 1);
    [| discriminate].
  now intros [= <-].
Qed.

Lemma nn_TransformerDecoderLayer_dims (d_model nhead dff : Z) (p : Q)
  (nf : bool) (i : param_init) (ly : TransformerDecoderLayer F) :
  nn_TransformerDecoderLayer d_model nhead dff p nf i = Ok ly ->
  layer_dims d_model nhead ly
  /\ norm_first ly = nf
  /\ (forall tr, dropout_off tr p -> layer_dropout_off tr ly).
Proof.
  unfold nn_TransformerDecoderLayer. intros H.
  apply bind_ok in H. destruct H as (sa & Hsa & H).
  apply bind_ok in H. destruct H as (ca & Hca & H).
  apply bind_ok in H. destruct H as (l1 & Hl1 & H).
  apply bind_ok in H. destruct H as (d0 & Hd0 & H).
  apply bind_ok in H. destruct H as (l2 & Hl2 & H).
  apply bind_ok in H. destruct H as (n1 & Hn1 & H).
  apply bind_ok in H. destruct H as (n2 & Hn2 & H).
  apply bind_ok in H. destruct H as (n3 & Hn3 & H).
  apply bind_ok in H. destruct H as (d1 & Hd1 & H).
  apply bind_ok in H. destruct H as (d2 & Hd2 & H).
  apply bind_ok in H. destruct H as (d3 & Hd3 & [= <-]).
  apply nn_MultiheadAttention_dims in Hsa, Hca.
  apply nn_Linear_dims in Hl1, Hl2.
  apply nn_LayerNorm_dims in Hn1, Hn2, Hn3.
  apply nn_Dropout_eq in Hd0, Hd1, Hd2, Hd3. subst d0 d1 d2 d3.
  destruct Hsa as [Hsa Hsp], Hca as [Hca Hcp].
  split; [| split; [reflexivity |]].
  - unfold layer_dims. cbn.
    destruct Hl1 as [[Hi1 Ho1] Hff], Hl2 as [[Hi2 Ho2] _].
    split; [exact Hsa |]. split; [exact Hca |].
    split; [split; [exact Hi1 | reflexivity] |].
    split; [lia |].
    split; [split; [congruence | exact Ho2] |].
    repeat split; assumption.
  - intros tr Hoff. unfold layer_dropout_off. cbn.
    rewrite Hsp, Hcp. repeat split; assumption.
Qed.

Lemma TransformerDecoder_init_dims (d_model nhead dff : Z) (p : Q)
  (n_layers : Z) (i : param_init) self :
  TransformerDecoder_init d_model nhead dff p n_layers i = Ok self ->
  decoder_dims d_model nhead self
  /\ decoder_dims d_model nhead (eval self)
  /\ no_active_dropout (eval self)
  /\ (Qeq_bool p 0 = true -> no_active_dropout self).
Proof.
  unfold TransformerDecoder_init. intros H.
  apply bind_ok in H. destruct H as (ly & Hly & [= <-]).
  apply nn_TransformerDecoderLayer_dims in Hly.
  destruct Hly as (Hdims & _ & Hoff).
  unfold decoder_dims, no_active_dropout, eval. cbn.
  split; [| split; [| split]]; try intros Hp0;
    apply Forall_forall; intros l Hl;
    apply repeat_spec in Hl; subst l; try assumption.
  - apply Hoff. now left.
  - apply Hoff. now right.
Qed.

Lemma TransformerDecoder_forward_returns self
  (tgt memory : tensor F) (tm mm tk mk : option (mask F))
  (n l s e heads : Z) :
  decoder_dims e heads self ->
  layers (transformer_decoder self) <> [] ->
  sizes tgt = [n; l; e] -> sizes memory = [n; s; e] ->
  1 <= n -> 1 <= l -> 1 <= s ->
  attn_mask_ok tm n heads l l -> attn_mask_ok mm n heads l s ->
  padding_mask_ok tk n l -> padding_mask_ok mk n s ->
  returns_shape (TransformerDecoder_forward self tgt memory tm mm tk mk)
    [n; l; e].
Proof.
  intros Hd Hne Ht Hm Hn Hl Hs Htm Hmm Htk Hmk.
  unfold TransformerDecoder_forward, nn_TransformerDecoder_forward.
  unfold decoder_dims in Hd.
  destruct (layers (transformer_decoder self)) as [|ly ls] eqn:Hls;
    [contradiction |].
  rewrite Ht. cbn [length Nat.ltb Nat.leb].
  eapply returns_shape_bind.
  - exact (layers_forward_shape (ly :: ls) (training self) memory
             tm mm tk mk n l s e heads Hd Hm Hn Hl Hs Htm Hmm Htk Hmk
             tgt Ht).
  - intros a Ha. eapply returns_shape_lift; [reflexivity | exact Ha].
Qed.


End TransformerClaims.


(** ** The attention stack draws nothing when dropout is off *)

Section TransformerPure.
Context {F : Type} {SF : Scalar F} {G : Type} {LB : Library F G}.
Implicit Types (self : TransformerDecoder F) (g : G) (x : tensor F).

Lemma pure_lift (A : Type) (r : result A) : pure (G := G) (lift r).
Proof.
  exists r. reflexivity.
Qed.

Lemma pure_bind (A B : Type) (m : M G A) (k : A -> M G B) :
  pure m -> (forall a, pure (k a)) -> pure (mbind m k).
Proof.
  intros [r Hr] Hk. destruct r as [a | e].
  - destruct (Hk a) as [r' Hr']. exists r'. intros g.
    unfold mbind. rewrite Hr. cbn [lift]. apply Hr'.
  - exists (Err e). intros g. unfold mbind. now rewrite Hr.
Qed.

Lemma Dropout_forward_off (p : Q) (tr : bool) x g :
  dropout_off tr p -> Dropout_forward p tr x g = Ok (x, g).
Proof.
  intros [-> | Hp]; unfold Dropout_forward.
  - reflexivity.
  - rewrite Hp. now rewrite orb_true_r.
Qed.

Lemma Dropout_forward_pure (p : Q) (tr : bool) x :
  dropout_off tr p -> pure (Dropout_forward p tr x).
Proof.
  intros Hoff. exists (Ok x). intros g. now apply Dropout_forward_off.
Qed.

Lemma attention_pure (a : MultiheadAttention F) (tr : bool)
  (query key value : tensor F) (kpm am : option (tensor F)) :
  dropout_off tr (attn_dropout a) ->
  pure (attention a tr query key value kpm am).
Proof.
  intros Hoff. unfold attention.
  destruct (sizes query) as [|n [|l [|e [|]]]]; try apply pure_lift.
  destruct (sizes key) as [|kn [|s [|ke [|]]]]; try apply pure_lift.
  destruct (sizes value) as [|vn [|vs [|ve [|]]]]; try apply pure_lift.
  repeat match goal with
         | |- pure (if ?c then _ else _) => destruct c; [apply pure_lift |]
         end.
  repeat (apply pure_bind; [apply pure_lift | intros _]).
  apply pure_bind; [now apply Dropout_forward_pure | intros w].
  apply pure_lift.
Qed.

Lemma MultiheadAttention_forward_pure (a : MultiheadAttention F) (tr : bool)
  (query key value : tensor F) (kpm am : option (mask F)) :
  dropout_off tr (attn_dropout a) ->
  pure (MultiheadAttention_forward a tr query key value kpm am).
Proof.
  intros Hoff. unfold MultiheadAttention_forward.
  destruct (sizes query) as [|n [|l [|e [|]]]]; try apply pure_lift;
    repeat match goal with
           | |- pure (if ?c then _ else _) => destruct c; [apply pure_lift |]
           end;
    repeat (apply pure_bind; [apply pure_lift | intros _]).
  - apply pure_bind; [now apply attention_pure | intros out].
    apply pure_lift.
  - now apply attention_pure.
Qed.

Lemma TransformerDecoderLayer_forward_pure (ly : TransformerDecoderLayer F)
  (tr : bool) (tgt memory : tensor F) (tm mm tk mk : option (mask F)) :
  layer_dropout_off tr ly ->
  pure (TransformerDecoderLayer_forward ly tr tgt memory tm mm tk mk).
Proof.
  intros (Hsa & Hca & Hd & Hd1 & Hd2 & Hd3).
  assert (Hsab : forall x, pure (sa_block ly tr x tm tk)).
  { intros x. unfold sa_block. apply pure_bind.
    - now apply MultiheadAttention_forward_pure.
    - intros y. now apply Dropout_forward_pure. }
  assert (Hcab : forall x, pure (mha_block ly tr x memory mm mk)).
  { intros x. unfold mha_block. apply pure_bind.
    - now apply MultiheadAttention_forward_pure.
    - intros y. now apply Dropout_forward_pure. }
  assert (Hffb : forall x, pure (ff_block ly tr x)).
  { intros x. unfold ff_block.
    apply pure_bind; [apply pure_lift | intros y1].
    apply pure_bind; [now apply Dropout_forward_pure | intros y2].
    apply pure_bind; [apply pure_lift | intros y3].
    now apply Dropout_forward_pure. }
  unfold TransformerDecoderLayer_forward.
  destruct (norm_first ly);
    repeat (apply pure_bind;
            [first [apply pure_lift | apply Hsab | apply Hcab | apply Hffb]
            | intro]);
    apply pure_lift.
Qed.

Lemma layers_forward_pure (ls : list (TransformerDecoderLayer F)) (tr : bool)
  (memory : tensor F) (tm mm tk mk : option (mask F)) :
  Forall (layer_dropout_off tr) ls ->
  forall tgt, pure (layers_forward ls tr tgt memory tm mm tk mk).
Proof.
  induction 1 as [|ly ls Hly _ IH]; intros tgt; cbn [layers_forward].
  - apply pure_lift.
  - apply pure_bind.
    + now apply TransformerDecoderLayer_forward_pure.
    + exact IH.
Qed.

Lemma TransformerDecoder_forward_pure self (tgt memory : tensor F)
  (tm mm tk mk : option (mask F)) :
  no_active_dropout self ->
  pure (TransformerDecoder_forward self tgt memory tm mm tk mk).
Proof.
  intros Hoff. unfold TransformerDecoder_forward.
  apply pure_bind; [| intros out; apply pure_lift].
  unfold nn_TransformerDecoder_forward. unfold no_active_dropout in Hoff.
  destruct (layers (transformer_decoder self)) as [|ly ls];
    [apply pure_lift |].
  destruct (length (sizes tgt) <? 2)%nat; [apply pure_lift |].
  now apply layers_forward_pure.
Qed.

End TransformerPure.

(** ** The attention stack on a reordered batch *)

Section TransformerBatch.
Context {F : Type} {SF : Scalar F} {G : Type} {LB : Library F G}.
Implicit Types (x y : tensor F) (g : G) (p : Z -> Z).

Lemma shape_ok_3 (n l e : Z) :
  shape_ok [n; l; e] <-> 0 <= n /\ 0 <= l /\ 0 <= e.
Proof.
  split.
  - intros H. inversion H as [|? ? ? Ha]; inversion Ha as [|? ? ? Hb];
      inversion Hb; subst. lia.
  - intros (Hn & Hl & He). range_intro.
Qed.

Lemma sync_lift p (r r' : result (tensor F)) (a : tensor F) (s : list Z) :
  r = Ok a -> r' = Ok (bperm p a) -> wf a -> sizes a = s ->
  sync (G := G) p (lift r) (lift r') s.
Proof.
  intros -> -> Hwf Hs. left. exists a.
  repeat split; try assumption; apply Hwf.
Qed.

Lemma sync_err p (m m' : M G (tensor F)) (e : error) (s : list Z) :
  (forall g, m g = Err e) -> (forall g, m' g = Err e) -> sync p m m' s.
Proof.
  intros Hm Hm'. right. exists e. split; assumption.
Qed.

Lemma sync_bind p (m m' : M G (tensor F))
  (k k' : tensor F -> M G (tensor F)) (s s' : list Z) :
  sync p m m' s ->
  (forall a, wf a -> sizes a = s -> sync p (k a) (k' (bperm p a)) s') ->
  sync p (mbind m k) (mbind m' k') s'.
Proof.
  intros [(a & Hwf & Hs & Hm & Hm') | (e & Hm & Hm')] Hk.
  - destruct (Hk a Hwf Hs)
      as [(b & Hwfb & Hsb & Hkb & Hkb') | (e & Hkb & Hkb')].
    + left. exists b. repeat split; try assumption; try apply Hwfb.
      * intros g. unfold mbind. rewrite Hm. apply Hkb.
      * intros g. unfold mbind. rewrite Hm'. apply Hkb'.
    + right. exists e. split; intros g; unfold mbind.
      * rewrite Hm. apply Hkb.
      * rewrite Hm'. apply Hkb'.
  - right. exists e. split; intros g; unfold mbind.
    + now rewrite Hm.
    + now rewrite Hm'.
Qed.

Lemma sync_dropout p (pr : Q) (tr : bool) x :
  dropout_off tr pr -> wf x ->
  sync p (Dropout_forward pr tr x) (Dropout_forward pr tr (bperm p x))
    (sizes x).
Proof.
  intros Hoff Hwf. left. exists x. repeat split; try apply Hwf.
  - intros g. now apply Dropout_forward_off.
  - intros g. now apply Dropout_forward_off.
Qed.

Lemma rowwise_wf (out : Z) (k : list F -> list F) x (n l e : Z) :
  0 <= n -> 0 <= l -> 0 <= out -> wf (rowwise out k x n l e).
Proof.
  intros Hn Hl Ho. apply tabulate_wf. range_intro.
Qed.

Lemma rowwise_bperm (out : Z) (k : list F -> list F) p x (n l e : Z) :
  0 <= n -> 0 <= l -> 0 <= out ->
  sizes x = [n; l; e] -> maps_into n p ->
  rowwise out k (bperm p x) n l e = bperm p (rowwise out k x n l e).
Proof.
  intros Hn Hl Ho Hx Hp. unfold rowwise.
  assert (Hs : shape_ok [n; l; out]) by range_intro.
  rewrite bperm_tabulate by assumption.
  apply tabulate_ext; [exact Hs |].
  intros idx Hin. apply in_range_3 in Hin.
  destruct Hin as (b & t & o & -> & Hb & Ht & Hoo).
  f_equal. f_equal. unfold row. apply map_ext_in.
  intros i Hi. apply in_zrange in Hi.
  apply get_bperm. rewrite Hx. range_intro.
Qed.

Lemma sync_LayerNorm p (ln : LayerNorm F) x (n l e : Z) :
  wf x -> sizes x = [n; l; e] -> normalized_shape ln = e ->
  maps_into n p ->
  sync (G := G) p (lift (LayerNorm_forward ln x))
    (lift (LayerNorm_forward ln (bperm p x))) [n; l; e].
Proof.
  intros [Hok _] Hx Hln Hp. rewrite Hx in Hok.
  apply shape_ok_3 in Hok. destruct Hok as (Hn & Hl & He).
  eapply sync_lift.
  - apply (LayerNorm_forward_eq ln x n l e Hx Hln).
  - rewrite (LayerNorm_forward_eq ln (bperm p x) n l e Hx Hln).
    now rewrite rowwise_bperm.
  - now apply rowwise_wf.
  - reflexivity.
Qed.

Lemma sync_Linear p (li : Linear F) x (n l inn out : Z) :
  wf x -> sizes x = [n; l; inn] -> linear_dims inn out li -> 0 <= out ->
  maps_into n p ->
  sync (G := G) p (lift (Linear_forward li x))
    (lift (Linear_forward li (bperm p x))) [n; l; out].
Proof.
  intros [Hok _] Hx Hli Ho Hp. rewrite Hx in Hok.
  apply shape_ok_3 in Hok. destruct Hok as (Hn & Hl & He).
  eapply sync_lift.
  - apply (Linear_forward_eq li x n l inn out Hx Hli).
  - rewrite (Linear_forward_eq li (bperm p x) n l inn out Hx Hli).
    now rewrite rowwise_bperm.
  - now apply rowwise_wf.
  - reflexivity.
Qed.

Lemma zip_add_length (l1 l2 : list F) :
  length l1 = length l2 -> length (zip_add l1 l2) = length l1.
Proof.
  revert l2. induction l1 as [|a l1 IH]; intros [|b l2] Hl; simpl in *;
    try reflexivity; try discriminate.
  f_equal. apply IH. now injection Hl.
Qed.

Lemma nth_zip_add (l1 l2 : list F) (k : nat) (d : F) :
  (k < length l1)%nat -> (k < length l2)%nat ->
  nth k (zip_add l1 l2) d = sadd (nth k l1 d) (nth k l2 d).
Proof.
  revert l2 k. induction l1 as [|a l1 IH]; intros [|b l2] [|k] H1 H2;
    simpl in *; try lia; try reflexivity.
  apply IH; lia.
Qed.

Lemma get_add x y idx :
  wf x -> wf y -> sizes x = sizes y -> in_range (sizes x) idx ->
  get {| sizes := sizes x; data := zip_add (data x) (data y) |} idx
  = sadd (get x idx) (get y idx).
Proof.
  intros [Hox Hlx] [Hoy Hly] Hs Hin. unfold get, get_def. cbn [sizes data].
  pose proof (ravel_bounds _ _ Hin) as Hb.
  rewrite <- Hs. apply nth_zip_add.
  - rewrite Hlx. lia.
  - rewrite Hly, <- Hs. lia.
Qed.

Lemma add_wf x y :
  wf x -> wf y -> sizes x = sizes y ->
  wf {| sizes := sizes x; data := zip_add (data x) (data y) |}.
Proof.
  intros [Hox Hlx] [Hoy Hly] Hs. split; [exact Hox |]. cbn [sizes data].
  rewrite zip_add_length; [exact Hlx |]. rewrite Hlx, Hly. now rewrite Hs.
Qed.

Lemma sync_add p x y (n : Z) (s : list Z) :
  wf x -> wf y -> sizes x = n :: s -> sizes y = n :: s -> maps_into n p ->
  sync (G := G) p (lift (add x y)) (lift (add (bperm p x) (bperm p y)))
    (n :: s).
Proof.
  intros Hwx Hwy Hx Hy Hp.
  assert (Hxy : sizes x = sizes y) by congruence.
  eapply sync_lift.
  - apply (add_eq x y Hxy).
  - rewrite (add_eq (bperm p x) (bperm p y)) by exact Hxy. f_equal.
    apply (tensor_ext szero).
    + apply add_wf; try apply batch_permute_wf; try apply Hwx;
        try apply Hwy; exact Hxy.
    + apply batch_permute_wf. apply Hwx.
    + reflexivity.
    + cbn [sizes batch_permute bperm tabulate]. intros idx Hin.
      pose proof Hin as Hin'. rewrite Hx in Hin'.
      apply in_range_cons_inv in Hin'.
      destruct Hin' as (b & r & -> & Hb & Hr).
      change (get {| sizes := sizes (bperm p x);
                     data := zip_add (data (bperm p x)) (data (bperm p y)) |}
                (b :: r)
              = get (bperm p {| sizes := sizes x;
                                data := zip_add (data x) (data y) |})
                  (b :: r)).
      rewrite get_add;
        try (apply batch_permute_wf; first [apply Hwx | apply Hwy]);
        try assumption.
      rewrite !get_bperm by (try rewrite <- Hxy; exact Hin).
      symmetry. apply get_add; try assumption.
      rewrite Hx. constructor; [apply Hp; exact Hb | exact Hr].
  - now apply add_wf.
  - exact Hx.
Qed.

Lemma relu_wf x : wf x -> wf (relu x).
Proof.
  intros [Ho Hl]. split; [exact Ho |]. cbn [relu sizes data].
  now rewrite length_map.
Qed.

End TransformerBatch.

Section AttentionBatch.
Context {F : Type} {SF : Scalar F} {G : Type} {LB : Library F G}.
Implicit Types (x y q k v w : tensor F) (g : G) (p : Z -> Z).

Lemma get_canonical_bool (t : tensor bool) (idx : list Z) :
  get (canonical_mask (BoolMask t)) idx
  = if get_def false t idx then neg_inf else szero.
Proof.
  unfold get, get_def. cbn [canonical_mask sizes data].
  exact (map_nth (fun b : bool => if b then neg_inf else szero)
           (data t) false (Z.to_nat (ravel (sizes t) idx))).
Qed.

Lemma canonical_mask_map (f : Z -> Z) (m : mask F) :
  canonical_mask (mask_map (fun A d => batch_permute d f) m)
  = bperm f (canonical_mask m).
Proof.
  destruct m as [t | t]; [| reflexivity].
  unfold bperm, batch_permute, tabulate.
  cbn [mask_map canonical_mask sizes data]. f_equal.
  rewrite map_map. apply map_ext. intros o.
  destruct (unravel (sizes t) o) as [|b r]; symmetry;
    apply get_canonical_bool.
Qed.

Lemma canonical_mask_permute_sizes (f : Z -> Z) (m : mask F) :
  sizes (canonical_mask (mask_map (fun A d => batch_permute d f) m))
  = sizes (canonical_mask m).
Proof.
  now rewrite canonical_mask_map.
Qed.

Lemma attn_mask_permute_2d (heads : Z) p (m : mask F) (l s : Z) :
  sizes (canonical_mask m) = [l; s] -> attn_mask_permute heads p m = m.
Proof.
  intros Hs. unfold attn_mask_permute. now rewrite Hs.
Qed.

Lemma attn_mask_permute_3d (heads : Z) p (m : mask F) (a l s : Z) :
  sizes (canonical_mask m) = [a; l; s] ->
  canonical_mask (attn_mask_permute heads p m)
  = bperm (head_perm heads p) (canonical_mask m).
Proof.
  intros Hs. unfold attn_mask_permute. rewrite Hs.
  apply canonical_mask_map.
Qed.

Lemma attn_mask_permute_ok (heads : Z) p (am : option (mask F))
  (n l s : Z) :
  attn_mask_ok am n heads l s ->
  attn_mask_ok (option_map (attn_mask_permute heads p) am) n heads l s.
Proof.
  destruct am as [m|]; [| exact id]. cbn.
  intros [Hs | Hs].
  - left. now rewrite (attn_mask_permute_2d heads p m l s Hs).
  - right. rewrite (attn_mask_permute_3d heads p m _ _ _ Hs). exact Hs.
Qed.

Lemma padding_mask_permute_ok p (kpm : option (mask F)) (n s : Z) :
  padding_mask_ok kpm n s ->
  padding_mask_ok (option_map (padding_mask_permute p) kpm) n s.
Proof.
  destruct kpm as [m|]; [| exact id]. cbn. intros Hs.
  unfold padding_mask_permute. now rewrite canonical_mask_permute_sizes.
Qed.

Lemma head_perm_block (heads : Z) p (b h : Z) :
  0 <= h < heads -> head_perm heads p (b * heads + h) = p b * heads + h.
Proof.
  intros Hh. unfold head_perm.
  assert (Hq : (b * heads + h) / heads = b)
    by (symmetry; apply Z.div_unique with (r := h); lia).
  assert (Hm : (b * heads + h) mod heads = h)
    by (symmetry; apply Z.mod_unique with (q := b); lia).
  now rewrite Hq, Hm.
Qed.

Lemma merged_mask_bperm (heads : Z) p (am kpm : option (mask F))
  (n l s b h i j : Z) :
  attn_mask_ok am n heads l s -> padding_mask_ok kpm n s ->
  0 <= b < n -> 0 <= h < heads -> 0 <= i < l -> 0 <= j < s ->
  merged_mask
    (option_map canonical_mask (option_map (attn_mask_permute heads p) am))
    (option_map canonical_mask (option_map (padding_mask_permute p) kpm))
    heads b h i j
  = merged_mask (option_map canonical_mask am)
      (option_map canonical_mask kpm) heads (p b) h i j.
Proof.
  intros Ham Hkpm Hb Hh Hi Hj. unfold merged_mask.
  assert (Ha :
    match option_map canonical_mask
            (option_map (attn_mask_permute heads p) am) with
    | None => None
    | Some m =>
        match sizes m with
        | [_; _] => Some (get m [i; j])
        | _ => Some (get m [b * heads + h; i; j])
        end
    end
    = match option_map canonical_mask am with
      | None => None
      | Some m =>
          match sizes m with
          | [_; _] => Some (get m [i; j])
          | _ => Some (get m [p b * heads + h; i; j])
          end
      end).
  { destruct am as [m|]; [| reflexivity]. cbn in Ham |- *.
    destruct Ham as [Hs | Hs].
    - now rewrite (attn_mask_permute_2d heads p m l s Hs), Hs.
    - rewrite (attn_mask_permute_3d heads p m _ _ _ Hs).
      replace (sizes (bperm (head_perm heads p) (canonical_mask m)))
        with (sizes (canonical_mask m)) by reflexivity.
      rewrite Hs. f_equal.
      rewrite get_bperm by (rewrite Hs; range_intro; nia).
      now rewrite head_perm_block. }
  assert (Hk :
    match option_map canonical_mask
            (option_map (padding_mask_permute p) kpm) with
    | None => None
    | Some m => Some (get m [b; j])
    end
    = match option_map canonical_mask kpm with
      | None => None
      | Some m => Some (get m [p b; j])
      end).
  { destruct kpm as [m|]; [| reflexivity]. cbn in Hkpm |- *.
    unfold padding_mask_permute. rewrite canonical_mask_map. f_equal.
    apply get_bperm. rewrite Hkpm. range_intro. }
  now rewrite Ha, Hk.
Qed.

Lemma attn_weights_bperm (a : MultiheadAttention F) p q k
  (am kpm : option (mask F)) (n l s e heads : Z) :
  mha_dims e heads a ->
  0 <= n -> 0 <= l -> 0 <= s ->
  sizes q = [n; l; e] -> sizes k = [n; s; e] ->
  attn_mask_ok am n heads l s -> padding_mask_ok kpm n s ->
  maps_into n p ->
  attn_weights a (bperm p q) (bperm p k)
    (option_map canonical_mask (option_map (attn_mask_permute heads p) am))
    (option_map canonical_mask (option_map (padding_mask_permute p) kpm))
    n l s
  = bperm p
      (attn_weights a q k (option_map canonical_mask am)
         (option_map canonical_mask kpm) n l s).
Proof.
  intros (He & Hh & Hep & Hhp & Hdiv & _) Hn Hl Hs Hq Hk Ham Hkpm Hp.
  unfold attn_weights. rewrite Hh.
  assert (Hok : shape_ok [n; heads; l; s]) by range_intro.
  rewrite bperm_tabulate by assumption.
  apply tabulate_ext; [exact Hok |].
  intros idx Hin. apply in_range_4 in Hin.
  destruct Hin as (b & h & i & j & -> & Hb & Hhh & Hi & Hj).
  f_equal. f_equal. apply map_ext_in. intros j' Hj'.
  apply in_zrange in Hj'.
  unfold attn_score, head_dim. rewrite He, Hh.
  assert (Hhd : 0 < e / heads) by nia.
  rewrite (merged_mask_bperm heads p am kpm n l s b h i j')
    by assumption.
  assert (Hdot :
    sum_over (zrange (e / heads))
      (fun d => smul (get (bperm p q) [b; i; h * (e / heads) + d])
                     (get (bperm p k) [b; j'; h * (e / heads) + d]))
    = sum_over (zrange (e / heads))
        (fun d => smul (get q [p b; i; h * (e / heads) + d])
                       (get k [p b; j'; h * (e / heads) + d]))).
  { apply sum_over_ext. intros d Hd. apply in_zrange in Hd.
    rewrite !get_bperm; [reflexivity | |].
    - rewrite Hk. range_intro; nia.
    - rewrite Hq. range_intro; nia. }
  now rewrite Hdot.
Qed.

Lemma attn_output_bperm (a : MultiheadAttention F) p w v
  (n l s e heads : Z) :
  mha_dims e heads a ->
  0 <= n -> 0 <= l -> 0 <= s ->
  sizes w = [n; heads; l; s] -> sizes v = [n; s; e] ->
  maps_into n p ->
  attn_output a (bperm p w) (bperm p v) n l s
  = bperm p (attn_output a w v n l s).
Proof.
  intros (He & Hh & Hep & Hhp & Hdiv & _) Hn Hl Hs Hw Hv Hp.
  unfold attn_output, head_dim. rewrite He, Hh.
  assert (Hok : shape_ok [n; l; e]) by range_intro.
  rewrite bperm_tabulate by assumption.
  apply tabulate_ext; [exact Hok |].
  intros idx Hin. apply in_range_3 in Hin.
  destruct Hin as (b & i & c & -> & Hb & Hi & Hc).
  assert (Hhd : 0 < e / heads) by nia.
  apply sum_over_ext. intros j Hj. apply in_zrange in Hj.
  rewrite !get_bperm; [reflexivity | |].
  - rewrite Hv. range_intro.
  - rewrite Hw. range_intro.
    + apply Z.div_pos; lia.
    + apply Z.div_lt_upper_bound; nia.
Qed.

Lemma attn_mask_permute_sizes (heads : Z) p (m : mask F) :
  sizes (canonical_mask (attn_mask_permute heads p m))
  = sizes (canonical_mask m).
Proof.
  unfold attn_mask_permute.
  destruct (sizes (canonical_mask m)) as [|a [|b [|c r]]] eqn:Hs;
    try (rewrite canonical_mask_permute_sizes; exact Hs).
  exact Hs.
Qed.

(** The reshape of the merged mask looks at sizes only. *)
Lemma check_mask_view_permute (heads : Z) p (am kpm : option (mask F))
  (n l s : Z) :
  check_mask_view
    (option_map canonical_mask (option_map (attn_mask_permute heads p) am))
    (option_map canonical_mask (option_map (padding_mask_permute p) kpm))
    n heads l s
  = check_mask_view (option_map canonical_mask am)
      (option_map canonical_mask kpm) n heads l s.
Proof.
  unfold check_mask_view, merged_sizes.
  destruct am as [m|], kpm as [k|]; cbn [option_map];
    try rewrite attn_mask_permute_sizes; reflexivity.
Qed.

Lemma sync_MultiheadAttention (a : MultiheadAttention F) (tr : bool) p
  (query key : tensor F) (kpm am : option (mask F)) (n l s e heads : Z) :
  mha_dims e heads a -> dropout_off tr (attn_dropout a) ->
  wf query -> wf key ->
  sizes query = [n; l; e] -> sizes key = [n; s; e] ->
  attn_mask_ok am n heads l s -> padding_mask_ok kpm n s ->
  maps_into n p ->
  sync p
    (MultiheadAttention_forward a tr query key key kpm am)
    (MultiheadAttention_forward a tr (bperm p query) (bperm p key)
       (bperm p key) (option_map (padding_mask_permute p) kpm)
       (option_map (attn_mask_permute heads p) am))
    [n; l; e].
Proof.
  intros Ha Hoff [Hoq _] [Hok _] Hq Hk Ham Hkpm Hp.
  rewrite Hq in Hoq. rewrite Hk in Hok.
  apply shape_ok_3 in Hoq. apply shape_ok_3 in Hok.
  destruct Hoq as (Hn & Hl & He0), Hok as (_ & Hs & _).
  pose proof Ha as (He & Hh & Hep & Hhp & Hdiv & Hout).
  pose proof (MultiheadAttention_forward_eq a tr query key kpm am n l s e
                heads Ha Hq Hk Hn Hs Ham Hkpm) as Hfw.
  pose proof (MultiheadAttention_forward_eq a tr (bperm p query)
                (bperm p key) (option_map (padding_mask_permute p) kpm)
                (option_map (attn_mask_permute heads p) am) n l s e heads
                Ha Hq Hk Hn Hs (attn_mask_permute_ok heads p am n l s Ham)
                (padding_mask_permute_ok p kpm n s Hkpm)) as Hfw'.
  rewrite check_mask_view_permute in Hfw'.
  destruct (check_mask_view (option_map canonical_mask am)
              (option_map canonical_mask kpm) n heads l s) as [[]|err].
  2:{ apply sync_err with (e := err); intros g;
        [rewrite Hfw | rewrite Hfw']; reflexivity. }
  set (q := rowwise e
              (affine_row (in_proj_weight a) (in_proj_bias a) (0 * e) e e)
              query n l e) in *.
  set (k := rowwise e
              (affine_row (in_proj_weight a) (in_proj_bias a) (1 * e) e e)
              key n s e) in *.
  set (v := rowwise e
              (affine_row (in_proj_weight a) (in_proj_bias a) (2 * e) e e)
              key n s e) in *.
  set (w := attn_weights a q k (option_map canonical_mask am)
              (option_map canonical_mask kpm) n l s) in *.
  assert (Hww : wf w).
  { apply tabulate_wf. rewrite Hh. range_intro. }
  assert (Hws : sizes w = [n; heads; l; s])
    by (cbn [w attn_weights sizes tabulate]; now rewrite Hh).
  set (o := attn_output a w v n l s) in *.
  assert (Hwo : wf o) by (apply tabulate_wf; rewrite He; range_intro).
  assert (Hos : sizes o = [n; l; e])
    by (cbn [o attn_output sizes tabulate]; now rewrite He).
  assert (HL : Linear_forward (out_proj a) o
               = Ok (rowwise e
                       (affine_row (lin_weight (out_proj a))
                          (lin_bias (out_proj a)) 0 e e) o n l e))
    by (apply (Linear_forward_eq (out_proj a) o n l e e Hos Hout)).
  assert (HL' : Linear_forward (out_proj a) (bperm p o)
                = Ok (bperm p
                        (rowwise e
                           (affine_row (lin_weight (out_proj a))
                              (lin_bias (out_proj a)) 0 e e) o n l e))).
  { rewrite (Linear_forward_eq (out_proj a) (bperm p o) n l e e Hos Hout).
    now rewrite rowwise_bperm by (try assumption; lia). }
  left. eexists. split; [| split; [| split]].
  - apply (rowwise_wf e (affine_row (lin_weight (out_proj a))
                           (lin_bias (out_proj a)) 0 e e) o n l e);
      lia.
  - reflexivity.
  - intros g. rewrite Hfw. unfold mbind. cbn [lift].
    rewrite (Dropout_forward_off _ _ w g Hoff). fold o.
    now rewrite HL.
  - intros g. rewrite Hfw'. unfold mbind. cbn [lift].
    rewrite !rowwise_bperm by assumption.
    fold q. fold k. fold v.
    rewrite (attn_weights_bperm a p q k am kpm n l s e heads Ha Hn Hl Hs
               eq_refl eq_refl Ham Hkpm Hp).
    fold w.
    rewrite (Dropout_forward_off _ _ (bperm p w) g Hoff).
    rewrite (attn_output_bperm a p w v n l s e heads Ha Hn Hl Hs Hws
               eq_refl Hp).
    fold o. now rewrite HL'.
Qed.

End AttentionBatch.

Section LayerBatch.
Context {F : Type} {SF : Scalar F} {G : Type} {LB : Library F G}.
Implicit Types (x y : tensor F) (g : G) (p : Z -> Z).

Lemma sync_layer (ly : TransformerDecoderLayer F) (tr : bool) p
  (tgt memory : tensor F) (tm mm tk mk : option (mask F))
  (n l s e heads : Z) :
  layer_dims e heads ly -> layer_dropout_off tr ly ->
  wf tgt -> wf memory ->
  sizes tgt = [n; l; e] -> sizes memory = [n; s; e] ->
  attn_mask_ok tm n heads l l -> attn_mask_ok mm n heads l s ->
  padding_mask_ok tk n l -> padding_mask_ok mk n s ->
  maps_into n p ->
  sync p
    (TransformerDecoderLayer_forward ly tr tgt memory tm mm tk mk)
    (TransformerDecoderLayer_forward ly tr (bperm p tgt) (bperm p memory)
       (option_map (attn_mask_permute heads p) tm)
       (option_map (attn_mask_permute heads p) mm)
       (option_map (padding_mask_permute p) tk)
       (option_map (padding_mask_permute p) mk))
    [n; l; e].
Proof.
  intros (Hsa & Hca & Hl1 & Hff & Hl2 & Hn1 & Hn2 & Hn3)
         (Osa & Oca & Od & Od1 & Od2 & Od3)
         Hwt Hwm Ht Hm Htm Hmm Htk Hmk Hp.
  assert (Hsab : forall x, wf x -> sizes x = [n; l; e] ->
            sync p (sa_block ly tr x tm tk)
              (sa_block ly tr (bperm p x)
                 (option_map (attn_mask_permute heads p) tm)
                 (option_map (padding_mask_permute p) tk)) [n; l; e]).
  { intros x Hwx Hx. unfold sa_block. eapply sync_bind.
    - apply (sync_MultiheadAttention (self_attn ly) tr p x x tk tm
               n l l e heads); assumption.
    - intros a Hwa Has. rewrite <- Has. now apply sync_dropout. }
  assert (Hcab : forall x, wf x -> sizes x = [n; l; e] ->
            sync p (mha_block ly tr x memory mm mk)
              (mha_block ly tr (bperm p x) (bperm p memory)
                 (option_map (attn_mask_permute heads p) mm)
                 (option_map (padding_mask_permute p) mk)) [n; l; e]).
  { intros x Hwx Hx. unfold mha_block. eapply sync_bind.
    - apply (sync_MultiheadAttention (multihead_attn ly) tr p x memory mk mm
               n l s e heads); assumption.
    - intros a Hwa Has. rewrite <- Has. now apply sync_dropout. }
  assert (Hffb : forall x, wf x -> sizes x = [n; l; e] ->
            sync p (ff_block ly tr x) (ff_block ly tr (bperm p x))
              [n; l; e]).
  { intros x Hwx Hx. unfold ff_block. eapply sync_bind.
    { apply (sync_Linear p (linear1 ly) x n l e _ Hwx Hx Hl1 Hff Hp). }
    intros a Hwa Has. rewrite relu_bperm. eapply sync_bind.
    { apply sync_dropout; [exact Od | now apply relu_wf]. }
    intros b Hwb Hbs. rewrite relu_sizes, Has in Hbs. eapply sync_bind.
    { apply (sync_Linear p (linear2 ly) b n l _ e Hwb Hbs Hl2); [| exact Hp].
      destruct Hsa as (_ & _ & Hep & _). lia. }
    intros c Hwc Hcs. rewrite <- Hcs. now apply sync_dropout. }
  assert (Hln : forall ln x, normalized_shape ln = e -> wf x ->
            sizes x = [n; l; e] ->
            sync (G := G) p (lift (LayerNorm_forward ln x))
              (lift (LayerNorm_forward ln (bperm p x))) [n; l; e]).
  { intros ln x Hne Hwx Hx. now apply sync_LayerNorm. }
  assert (Hadd : forall x y, wf x -> wf y ->
            sizes x = [n; l; e] -> sizes y = [n; l; e] ->
            sync (G := G) p (lift (add x y))
              (lift (add (bperm p x) (bperm p y))) [n; l; e]).
  { intros x y Hwx Hwy Hx Hy. now apply sync_add. }
  unfold TransformerDecoderLayer_forward.
  destruct (norm_first ly).
  - eapply sync_bind; [now apply Hln |]. intros y1 W1 S1.
    eapply sync_bind; [now apply Hsab |]. intros y2 W2 S2.
    eapply sync_bind; [now apply Hadd |]. intros x1 W3 S3.
    eapply sync_bind; [now apply Hln |]. intros y3 W4 S4.
    eapply sync_bind; [now apply Hcab |]. intros y4 W5 S5.
    eapply sync_bind; [now apply Hadd |]. intros x2 W6 S6.
    eapply sync_bind; [now apply Hln |]. intros y5 W7 S7.
    eapply sync_bind; [now apply Hffb |]. intros y6 W8 S8.
    now apply Hadd.
  - eapply sync_bind; [now apply Hsab |]. intros y1 W1 S1.
    eapply sync_bind; [now apply Hadd |]. intros x1 W2 S2.
    eapply sync_bind; [now apply Hln |]. intros x2 W3 S3.
    eapply sync_bind; [now apply Hcab |]. intros y2 W4 S4.
    eapply sync_bind; [now apply Hadd |]. intros x3 W5 S5.
    eapply sync_bind; [now apply Hln |]. intros x4 W6 S6.
    eapply sync_bind; [now apply Hffb |]. intros y3 W7 S7.
    eapply sync_bind; [now apply Hadd |]. intros x5 W8 S8.
    now apply Hln.
Qed.

Lemma sync_layers (ls : list (TransformerDecoderLayer F)) (tr : bool) p
  (memory : tensor F) (tm mm tk mk : option (mask F)) (n l s e heads : Z) :
  Forall (layer_dims e heads) ls -> Forall (layer_dropout_off tr) ls ->
  wf memory -> sizes memory = [n; s; e] ->
  attn_mask_ok tm n heads l l -> attn_mask_ok mm n heads l s ->
  padding_mask_ok tk n l -> padding_mask_ok mk n s ->
  maps_into n p ->
  forall tgt, wf tgt -> sizes tgt = [n; l; e] ->
    sync p
      (layers_forward ls tr tgt memory tm mm tk mk)
      (layers_forward ls tr (bperm p tgt) (bperm p memory)
         (option_map (attn_mask_permute heads p) tm)
         (option_map (attn_mask_permute heads p) mm)
         (option_map (padding_mask_permute p) tk)
         (option_map (padding_mask_permute p) mk))
      [n; l; e].
Proof.
  intros Hd Ho Hwm Hm Htm Hmm Htk Hmk Hp.
  induction ls as [|ly ls IH]; intros tgt Hwt Ht; cbn [layers_forward].
  - eapply sync_lift; [reflexivity | reflexivity | exact Hwt | exact Ht].
  - inversion Hd as [|? ? Hd1 Hd2]; subst.
    inversion Ho as [|? ? Ho1 Ho2]; subst.
    eapply sync_bind.
    + apply (sync_layer ly tr p tgt memory tm mm tk mk n l s e heads);
        assumption.
    + intros a Hwa Has. now apply IH.
Qed.

Lemma sync_TransformerDecoder (self : TransformerDecoder F) p
  (tgt memory : tensor F) (tm mm tk mk : option (mask F))
  (n l s e heads : Z) :
  decoder_dims e heads self -> no_active_dropout self ->
  wf tgt -> wf memory ->
  sizes tgt = [n; l; e] -> sizes memory = [n; s; e] ->
  attn_mask_ok tm n heads l l -> attn_mask_ok mm n heads l s ->
  padding_mask_ok tk n l -> padding_mask_ok mk n s ->
  maps_into n p ->
  sync p
    (TransformerDecoder_forward self tgt memory tm mm tk mk)
    (TransformerDecoder_forward self (bperm p tgt) (bperm p memory)
       (option_map (attn_mask_permute heads p) tm)
       (option_map (attn_mask_permute heads p) mm)
       (option_map (padding_mask_permute p) tk)
       (option_map (padding_mask_permute p) mk))
    [n; l; e].
Proof.
  intros Hd Ho Hwt Hwm Ht Hm Htm Hmm Htk Hmk Hp.
  unfold TransformerDecoder_forward, nn_TransformerDecoder_forward.
  unfold decoder_dims in Hd. unfold no_active_dropout in Ho.
  destruct (layers (transformer_decoder self)) as [|ly ls].
  { apply sync_err with (e := LayersIndex); reflexivity. }
  change (sizes (bperm p tgt)) with (sizes tgt).
  rewrite Ht. cbn [length Nat.ltb Nat.leb].
  eapply sync_bind.
  - apply (sync_layers _ _ p memory tm mm tk mk n l s e heads); assumption.
  - intros a Hwa Has.
    eapply sync_lift; [reflexivity | reflexivity | exact Hwa | exact Has].
Qed.

End LayerBatch.

(** ** Batch independence and determinism of the two decoders *)

Section TwoDecoders.
Context {F : Type} {SF : Scalar F} {G : Type} {LB : Library F G}.
Implicit Types (x y : tensor F) (g : G) (p q : Z -> Z).

Lemma CNNDecoder_forward_wf (E H W : Z) (i1 i2 i3 : conv_init F)
  (d : CNNDecoder F) x y :
  CNNDecoder_init E H W i1 i2 i3 = Ok d ->
  0 <= H -> 0 <= W -> shape_ok (sizes x) ->
  CNNDecoder_forward d x = Ok y ->
  wf y /\ exists s, sizes y = hd 0 (sizes x) :: s.
Proof.
  intros Hd HH HW Hs Hf.
  destruct (CNNDecoder_forward_sizes E H W i1 i2 i3 d x y Hd HH HW Hs Hf)
    as (B & T & Hx & _ & Hy).
  assert (HB : 0 <= B) by (rewrite Hx in Hs; inversion Hs; assumption).
  split; [| rewrite Hx, Hy; eexists; reflexivity].
  apply CNNDecoder_init_inv in Hd. destruct Hd as [_ ->].
  apply CNNDecoder_forward_steps in Hf.
  destruct Hf as (B' & T' & C & x1 & x2 & x3 & x4 & _ & _ & _ & _ & _ & H5).
  cbn [layer3] in H5.
  destruct (stage_run _ _ _ _ _ _ H5)
    as (n & h & w & c & _ & _ & _ & _ & Hsv & Hv).
  rewrite Hv. apply tabulate_wf. rewrite <- Hsv, Hy.
  assert (0 <= H / 8) by (apply Z.div_pos; lia).
  assert (0 <= W / 8) by (apply Z.div_pos; lia).
  range_intro.
Qed.

(** C7, as amended.  Reordering the batch of the input (and, for the
    attention stack, of the memory and of the masks that have a batch
    axis), running [forward], and undoing the reordering on the output
    gives the result of [forward] on the original input: each batch
    element's output depends on that element alone.  This holds for
    [CNNDecoder] always, and for [TransformerDecoder] on accepted shapes
    when no dropout is active (evaluation mode, or probability zero). *)
Theorem forward_batch_independent :
  (forall (E H W : Z) (i1 i2 i3 : conv_init F) (d : CNNDecoder F) x
          (n : Z) (s : list Z) p q,
     CNNDecoder_init E H W i1 i2 i3 = Ok d ->
     0 <= H -> 0 <= W ->
     wf x -> sizes x = n :: s -> permutes n p q ->
     result_map (bperm q) (CNNDecoder_forward d (bperm p x))
     = CNNDecoder_forward d x)
  /\ (forall (self : TransformerDecoder F) (tgt memory : tensor F)
             (tm mm tk mk : option (mask F)) (n l s e heads : Z) p q g,
        decoder_dims e heads self -> no_active_dropout self ->
        wf tgt -> wf memory ->
        sizes tgt = [n; l; e] -> sizes memory = [n; s; e] ->
        attn_mask_ok tm n heads l l -> attn_mask_ok mm n heads l s ->
        padding_mask_ok tk n l -> padding_mask_ok mk n s ->
        permutes n p q ->
        (out <~ TransformerDecoder_forward self (bperm p tgt)
                  (bperm p memory)
                  (option_map (attn_mask_permute heads p) tm)
                  (option_map (attn_mask_permute heads p) mm)
                  (option_map (padding_mask_permute p) tk)
                  (option_map (padding_mask_permute p) mk) ;;
         lift (Ok (bperm q out))) g
        = TransformerDecoder_forward self tgt memory tm mm tk mk g).
Proof.
  split.
  - intros E H W i1 i2 i3 d x n s p q Hd HH HW [Hok Hlen] Hx Hpq.
    pose proof (permutes_maps_into n p q Hpq) as Hp.
    rewrite (CNNDecoder_forward_bperm E H W i1 i2 i3 d p x n s Hd HH HW Hx
               Hok Hp).
    destruct (CNNDecoder_forward d x) as [y|err] eqn:Hf; [| reflexivity].
    cbn [result_map bind]. f_equal.
    destruct (CNNDecoder_forward_wf E H W i1 i2 i3 d x y Hd HH HW Hok Hf)
      as [Hwy [s' Hsy]].
    rewrite Hx in Hsy. cbn [hd] in Hsy.
    apply (batch_permute_inverse szero p q y n s' Hwy Hsy Hpq).
  - intros self tgt memory tm mm tk mk n l s e heads p q g
           Hd Ho Hwt Hwm Ht Hm Htm Hmm Htk Hmk Hpq.
    pose proof (permutes_maps_into n p q Hpq) as Hp.
    destruct (sync_TransformerDecoder self p tgt memory tm mm tk mk
                n l s e heads Hd Ho Hwt Hwm Ht Hm Htm Hmm Htk Hmk Hp)
      as [(a & Hwa & Has & Hfa & Hfa') | (err & Hfa & Hfa')].
    + unfold mbind. rewrite Hfa', Hfa. cbn [lift]. f_equal. f_equal.
      apply (batch_permute_inverse szero p q a n [l; e] Hwa Has Hpq).
    + unfold mbind. now rewrite Hfa', Hfa.
Qed.

(** C8.  With dropout off (evaluation mode, or every dropout probability
    zero) the output of [TransformerDecoder.forward] is a function of the
    parameters and the inputs alone: it is the same for every generator
    state, the generator state is left untouched, and a second invocation
    returns the same output.  [CNNDecoder.forward] has no stochastic layer
    and takes no generator at all. *)
Theorem forward_deterministic (self : TransformerDecoder F)
  (tgt memory : tensor F) (tm mm tk mk : option (mask F)) :
  no_active_dropout self ->
  (exists r : result (tensor F),
     forall g,
       TransformerDecoder_forward self tgt memory tm mm tk mk g = lift r g)
  /\ (forall g1 g2,
        result_map fst
          (TransformerDecoder_forward self tgt memory tm mm tk mk g1)
        = result_map fst
            (TransformerDecoder_forward self tgt memory tm mm tk mk g2))
  /\ (forall g out g',
        TransformerDecoder_forward self tgt memory tm mm tk mk g
        = Ok (out, g') ->
        g' = g
        /\ TransformerDecoder_forward self tgt memory tm mm tk mk g'
           = Ok (out, g'))
  /\ (forall (d : CNNDecoder F) x g1 g2,
        result_map fst (lift (CNNDecoder_forward d x) g1)
        = result_map fst (lift (CNNDecoder_forward d x) g2)).
Proof.
  intros Hoff.
  destruct (TransformerDecoder_forward_pure self tgt memory tm mm tk mk Hoff)
    as [r Hr].
  split; [exists r; exact Hr |]. split; [| split].
  - intros g1 g2. rewrite !Hr. now destruct r.
  - intros g out g' Hf. rewrite Hr in Hf. destruct r as [a | err];
      cbn [lift] in Hf; [| discriminate].
    injection Hf as <- <-. split; [reflexivity | apply Hr].
  - intros d x g1 g2. now destruct (CNNDecoder_forward d x).
Qed.

End TwoDecoders.

Lemma forward_batch_independent_witness :
  match CNNDecoder_init 2 16 16 (const_init f32_one) (const_init f32_one)
          (const_init f32_minus_one) with
  | Ok d =>
      result_map (bperm swap01)
        (CNNDecoder_forward d (bperm swap01 tokens_2x4x2))
      = CNNDecoder_forward d tokens_2x4x2
  | Err _ => False
  end
  /\ match TransformerDecoder_init 4 2 8 (1 # 10) 2 (const_param f32_one) with
     | Ok self =>
         (out <~ TransformerDecoder_forward (eval self)
                   (bperm swap01 target_2x2x4) (bperm swap01 memory_2x3x4)
                   None None None None ;;
          lift (Ok (bperm swap01 out))) [true; false]
         = TransformerDecoder_forward (eval self) target_2x2x4 memory_2x3x4
             None None None None [true; false]
     | Err _ => False
     end.
Proof.
  assert (Hswap : permutes 2 swap01 swap01)
    by (intros b Hb; unfold swap01; lia).
  split.
  - destruct (CNNDecoder_init 2 16 16 (const_init f32_one)
                (const_init f32_one) (const_init f32_minus_one))
      as [d|] eqn:Hd; [| discriminate].
    apply (proj1 (@forward_batch_independent float32 _ (list bool) _)
             2 16 16 (const_init f32_one) (const_init f32_one)
             (const_init f32_minus_one) d tokens_2x4x2 2 [4; 2]
             swap01 swap01 Hd);
      try lia; try reflexivity; try exact Hswap.
    split; [unfold shape_ok; cbn; range_intro | reflexivity].
  - destruct (TransformerDecoder_init 4 2 8 (1 # 10) 2 (const_param f32_one))
      as [self|] eqn:Hs; [| discriminate].
    injection Hs as <-.
    apply (proj2 (@forward_batch_independent float32 _ (list bool) _)
             _ target_2x2x4 memory_2x3x4 None None None None
             2 2 3 4 2 swap01 swap01 [true; false]);
      try exact I; try reflexivity; try exact Hswap.
    + unfold decoder_dims. cbn.
      repeat (apply Forall_cons || apply Forall_nil);
        repeat split; try reflexivity; cbn; lia.
    + unfold no_active_dropout. cbn.
      repeat (apply Forall_cons || apply Forall_nil);
        repeat split; left; reflexivity.
    + split; [unfold shape_ok; cbn; range_intro | reflexivity].
    + split; [unfold shape_ok; cbn; range_intro | reflexivity].
Defined.

Lemma forward_deterministic_witness :
  match TransformerDecoder_init 4 2 8 (1 # 10) 2 (const_param f32_one) with
  | Ok self =>
      result_map fst
        (TransformerDecoder_forward (eval self) target_1x2x4 memory_1x3x4
           None None None None [])
      = result_map fst
          (TransformerDecoder_forward (eval self) target_1x2x4 memory_1x3x4
             None None None None [true; false; true])
  | Err _ => False
  end.
Proof.
  destruct (TransformerDecoder_init 4 2 8 (1 # 10) 2 (const_param f32_one))
    as [self|] eqn:Hs; [| discriminate].
  injection Hs as <-.
  refine (proj1 (proj2 (forward_deterministic _ target_1x2x4 memory_1x3x4
                          None None None None _)) [] [true; false; true]).
  unfold no_active_dropout. cbn.
  repeat (apply Forall_cons || apply Forall_nil);
    repeat split; left; reflexivity.
Defined.

(** C7, as stated, fails for a [TransformerDecoder] left in training mode
    with its dropout of 0.1: the dropout masks are drawn by position, so
    from one and the same generator state the exchanged batch does not give
    the exchanged output. *)
Lemma TransformerDecoder_training_batch_dependent :
  permutes 2 swap01 swap01
  /\ match TransformerDecoder_init 4 2 8 (1 # 10) 1 (const_param f32_one) with
     | Ok self =>
         training self = true
         /\ (out <~ TransformerDecoder_forward self
                      (bperm swap01 target_2x2x4) (bperm swap01 memory_2x3x4)
                      None None None None ;;
             lift (Ok (bperm swap01 out))) (repeat true 24)
            <> TransformerDecoder_forward self target_2x2x4 memory_2x3x4
                 None None None None (repeat true 24)
     | Err _ => False
     end.
Proof.
  split; [intros b Hb; unfold swap01; lia |].
  destruct (TransformerDecoder_init 4 2 8 (1 # 10) 1 (const_param f32_one))
    as [self|] eqn:Hs; [| discriminate].
  injection Hs as <-. split; [reflexivity |].
  intros Heq.
  apply (f_equal (result_map (fun r => nth 0 (data (fst r)) szero))) in Heq.
  vm_compute in Heq. discriminate.
Qed.

(** ** The model run on small inputs *)

Example infer_size_infers : infer_size [2; -1; 3] 12 = Ok [2; 2; 3].
Proof. reflexivity. Qed.

Example infer_size_rejects : infer_size [2; 5; 3] 12 = Err ViewInvalidShape.
Proof. reflexivity. Qed.

(** Tokens (1,2) (1,1) (2,2) (1,-1) become the 2x2 planes of channel 0 and
    of channel 1. *)
Example grid_of_tokens_1x4x2 :
  (x <- view tokens_1x4x2 [1; 2; 2; 2] ;; permute x [0; 3; 1; 2]%nat)
  = Ok {| sizes := [1; 2; 2; 2];
          data := [f32_one; f32_one; f32_two; f32_one;
                   f32_two; f32_one; f32_two; f32_minus_one] |}.
Proof. vm_compute. reflexivity. Qed.

Example relu_clamps :
  relu {| sizes := [3]; data := [f32_minus_one; S754_zero false; f32_two] |}
  = {| sizes := [3]; data := [S754_zero false; S754_zero false; f32_two] |}.
Proof. reflexivity. Qed.

Example relu_keeps_nan : relu_scalar (S754_nan : float32) = S754_nan.
Proof. reflexivity. Qed.

Example upsample_doubles :
  upsample_nearest2d 2 {| sizes := [1; 1; 1; 2]; data := [f32_one; f32_two] |}
  = Ok {| sizes := [1; 1; 2; 4];
          data := [f32_one; f32_one; f32_two; f32_two;
                   f32_one; f32_one; f32_two; f32_two] |}.
Proof. vm_compute. reflexivity. Qed.

(** With every weight one and a zero bias, each output of a 3x3 padded
    convolution over a 2x2 plane is the sum 1 + 2 + 1 + 1 of the plane. *)
Example conv2d_sums_plane :
  conv2d 1 1 3 1 (conv_weight 1 1 (const_init f32_one))
    (conv_bias 1 (const_init f32_one))
    {| sizes := [1; 1; 2; 2]; data := [f32_one; f32_two; f32_one; f32_one] |}
  = Ok {| sizes := [1; 1; 2; 2];
          data := repeat (S754_finite false 10485760 (-21)) 4 |}.
Proof. vm_compute. reflexivity. Qed.

(** A height from -8 to -1 gives [grid_h = -1], which [view] takes as the
    axis to infer: the image height then follows the token count and not
    [img_height]. *)
Example CNNDecoder_negative_height :
  result_map (@grid_h float32)
    (CNNDecoder_init 2 (-8) 16 (const_init f32_one) (const_init f32_one)
       (const_init f32_one)) = Ok (-1)
  /\ (d <- CNNDecoder_init 2 (-8) 16 (const_init f32_one) (const_init f32_one)
            (const_init f32_one) ;;
      y <- CNNDecoder_forward d tokens_1x4x2 ;; Ok (sizes y))
     = Ok [1; 3; 16; 16].
Proof. split; vm_compute; reflexivity. Qed.

(** * Further properties of the two decoders *)

(** ** What [CNNDecoder.forward] accepts, and how it fails *)

Section ForwardCases.
Context {F : Type} {SF : Scalar F}.
Implicit Types (x y : tensor F) (d : CNNDecoder F) (i : conv_init F).

Lemma stage_err_out (cin cout : Z) (wt bs : tensor F) x (n c h w : Z) :
  sizes x = [n; c; h; w] -> cout < 1 ->
  Sequential_forward (stage cin cout wt bs) x = Err ConvOutChannels.
Proof.
  intros Hx Hc. cbn [Sequential_forward stage Module_forward].
  unfold conv2d. rewrite Hx.
  destruct (Z.ltb_spec cout 1); [reflexivity | lia].
Qed.

Lemma stage_err_channels (cin cout : Z) (wt bs : tensor F) x (n c h w : Z) :
  sizes x = [n; c; h; w] -> 1 <= cout -> c <> cin ->
  Sequential_forward (stage cin cout wt bs) x = Err ConvChannels.
Proof.
  intros Hx Hc Hne. cbn [Sequential_forward stage Module_forward].
  unfold conv2d. rewrite Hx.
  destruct (Z.ltb_spec cout 1); [lia |].
  destruct (Z.eqb_spec c cin); [contradiction | reflexivity].
Qed.

Lemma stage_err_kernel (cin cout : Z) (wt bs : tensor F) x (n h w : Z) :
  sizes x = [n; cin; h; w] -> 1 <= cout -> h < 1 \/ w < 1 ->
  Sequential_forward (stage cin cout wt bs) x = Err ConvKernelTooLarge.
Proof.
  intros Hx Hc Hhw. cbn [Sequential_forward stage Module_forward].
  unfold conv2d. rewrite Hx.
  destruct (Z.ltb_spec cout 1); [lia |].
  rewrite Z.eqb_refl. cbn [negb].
  destruct (Z.ltb_spec (h + 2 * 1) 3); [reflexivity |].
  destruct (Z.ltb_spec (w + 2 * 1) 3); [reflexivity | lia].
Qed.

(** The outcome of [forward] on every well-formed input, check by check in
    the order the code meets them. *)
Lemma CNNDecoder_forward_cases (E H W : Z) i1 i2 i3 d x :
  CNNDecoder_init E H W i1 i2 i3 = Ok d ->
  0 <= H -> 0 <= W -> shape_ok (sizes x) ->
  match sizes x with
  | [B; T; C] =>
      if negb (B * T * C =? B * (H / 8) * (W / 8) * C) then
        CNNDecoder_forward d x = Err ViewInvalidShape
      else if E <? 1 then CNNDecoder_forward d x = Err ConvOutChannels
      else if negb (C =? E) then CNNDecoder_forward d x = Err ConvChannels
      else if (H / 8 <? 1) || (W / 8 <? 1) then
        CNNDecoder_forward d x = Err ConvKernelTooLarge
      else
        exists y,
          CNNDecoder_forward d x = Ok y
          /\ sizes y = [B; 3; 8 * (H / 8); 8 * (W / 8)]
  | _ => CNNDecoder_forward d x = Err UnpackError
  end.
Proof.
  intros Hd HH HW Hok.
  apply CNNDecoder_init_inv in Hd. destruct Hd as [HE ->].
  unfold CNNDecoder_forward. cbn [grid_h grid_w layer1 layer2 layer3].
  destruct (sizes x) as [|B [|T [|C [|]]]] eqn:Hx; try reflexivity.
  apply shape_ok_3 in Hok. destruct Hok as (HB & HT & HC).
  assert (Hgh : 0 <= H / 8) by (apply Z.div_pos; lia).
  assert (Hgw : 0 <= W / 8) by (apply Z.div_pos; lia).
  rewrite view_nonneg by range_intro. rewrite Hx. simpl numel.
  replace (B * (T * (C * 1))) with (B * T * C) by ring.
  replace (B * (H / 8 * (W / 8 * (C * 1)))) with (B * (H / 8) * (W / 8) * C)
    by ring.
  destruct (B * T * C =? B * (H / 8) * (W / 8) * C); [| reflexivity].
  cbn [negb bind].
  set (x1 := {| sizes := [B; H / 8; W / 8; C]; data := data x |}).
  rewrite (permute_0312 x1 B (H / 8) (W / 8) C eq_refl). cbn [bind].
  set (x2 := tabulate [B; C; H / 8; W / 8] _).
  assert (Hx2 : sizes x2 = [B; C; H / 8; W / 8]) by reflexivity.
  destruct (Z.ltb_spec E 1) as [HE1 | HE1].
  { now rewrite (stage_err_out E E _ _ x2 B C (H / 8) (W / 8) Hx2 HE1). }
  destruct (Z.eqb_spec C E) as [-> | HCE]; cbn [negb].
  2:{ now rewrite (stage_err_channels E E _ _ x2 B C (H / 8) (W / 8)
                     Hx2 HE1 HCE). }
  destruct (Z.ltb_spec (H / 8) 1) as [Hh | Hh]; cbn [orb].
  { rewrite (stage_err_kernel E E _ _ x2 B (H / 8) (W / 8) Hx2 HE1);
      [reflexivity | now left]. }
  destruct (Z.ltb_spec (W / 8) 1) as [Hw | Hw].
  { rewrite (stage_err_kernel E E _ _ x2 B (H / 8) (W / 8) Hx2 HE1);
      [reflexivity | now right]. }
  destruct (stage_ok E E (conv_weight E E i1) (conv_bias E i1) x2
              B (H / 8) (W / 8) Hx2) as [x3 [H3 Hs3]]; try lia.
  destruct (stage_ok E E (conv_weight E E i2) (conv_bias E i2) x3
              B (H / 8 * 2) (W / 8 * 2) Hs3) as [x4 [H4 Hs4]]; try lia.
  destruct (stage_ok E 3 (conv_weight 3 E i3) (conv_bias 3 i3) x4
              B (H / 8 * 2 * 2) (W / 8 * 2 * 2) Hs4) as [y [H5 Hs5]];
    try lia.
  rewrite H3. cbn [bind]. rewrite H4. cbn [bind]. rewrite H5. cbn [bind].
  exists y. split; [reflexivity |].
  rewrite Hs5. f_equal. f_equal. f_equal; [lia |]. f_equal. lia.
Qed.

End ForwardCases.

Section ForwardOutcome.
Context {F : Type} {SF : Scalar F}.
Implicit Types (x y : tensor F) (d : CNNDecoder F) (i : conv_init F).

(** X1.  On a contiguous input of the parameters' element type, [forward]
    of a decoder constructed for an image of 0 to 65535 pixels a side (so
    that every size stays far inside the 64-bit integers of the library)
    raises one of five errors only, each with its cause: the shape does
    not unpack into three names; the element count does not fit the grid;
    the decoder has no channel; the input's channel count is not
    [embed_dim]; the grid has no row or no column. *)
Theorem CNNDecoder_forward_errors (E H W : Z) i1 i2 i3 d x (e : error) :
  CNNDecoder_init E H W i1 i2 i3 = Ok d ->
  0 <= H < 65536 -> 0 <= W < 65536 -> shape_ok (sizes x) ->
  CNNDecoder_forward d x = Err e ->
  (e = UnpackError /\ length (sizes x) <> 3%nat)
  \/ (e = ViewInvalidShape
      /\ exists B T C,
           sizes x = [B; T; C] /\ B * T * C <> B * (H / 8) * (W / 8) * C)
  \/ (e = ConvOutChannels /\ E = 0)
  \/ (e = ConvChannels /\ exists B T C, sizes x = [B; T; C] /\ C <> E)
  \/ (e = ConvKernelTooLarge /\ (H < 8 \/ W < 8)).
Proof.
  intros Hd [HH _] [HW _] Hok Hf.
  pose proof (CNNDecoder_forward_cases E H W i1 i2 i3 d x Hd HH HW Hok)
    as Hc.
  apply CNNDecoder_init_inv in Hd. destruct Hd as [HE _].
  destruct (sizes x) as [|B [|T [|C [|]]]] eqn:Hx;
    try (left; split; [congruence | simpl; lia]).
  destruct (Z.eqb_spec (B * T * C) (B * (H / 8) * (W / 8) * C)) as [Hn | Hn];
    cbn [negb] in Hc.
  2:{ right. left. split; [congruence |]. exists B, T, C. auto. }
  destruct (Z.ltb_spec E 1) as [HE1 | HE1].
  { right. right. left. split; [congruence | lia]. }
  destruct (Z.eqb_spec C E) as [HCE | HCE]; cbn [negb] in Hc.
  2:{ right. right. right. left. split; [congruence |].
      exists B, T, C. auto. }
  destruct (Z.ltb_spec (H / 8) 1) as [Hh | Hh]; cbn [orb] in Hc.
  { right. right. right. right. split; [congruence |]. left.
    pose proof (Z.div_mod H 8 ltac:(lia)).
    pose proof (Z.mod_pos_bound H 8 ltac:(lia)). lia. }
  destruct (Z.ltb_spec (W / 8) 1) as [Hw | Hw].
  { right. right. right. right. split; [congruence |]. right.
    pose proof (Z.div_mod W 8 ltac:(lia)).
    pose proof (Z.mod_pos_bound W 8 ltac:(lia)). lia. }
  destruct Hc as [y [Hy _]]. congruence.
Qed.

(** X2.  A decoder constructed for an image of 0 to 65535 pixels a side
    accepts a contiguous input of the parameters' element type exactly
    when the input has three axes with [embed_dim] channels, its batch is
    empty or its token count is [grid_h * grid_w], [embed_dim] is at least
    1 and both image dimensions are at least 8. *)
Theorem CNNDecoder_forward_accepts (E H W : Z) i1 i2 i3 d x :
  CNNDecoder_init E H W i1 i2 i3 = Ok d ->
  0 <= H < 65536 -> 0 <= W < 65536 -> shape_ok (sizes x) ->
  (exists y, CNNDecoder_forward d x = Ok y)
  <-> (exists B T,
         sizes x = [B; T; E]
         /\ (B = 0 \/ T = grid_h d * grid_w d)
         /\ 1 <= E /\ 8 <= H /\ 8 <= W).
Proof.
  intros Hd [HH _] [HW _] Hok.
  pose proof (CNNDecoder_forward_cases E H W i1 i2 i3 d x Hd HH HW Hok)
    as Hc.
  apply CNNDecoder_init_inv in Hd. destruct Hd as [HE ->].
  cbn [grid_h grid_w].
  pose proof (Z.div_mod H 8 ltac:(lia)) as HdH.
  pose proof (Z.mod_pos_bound H 8 ltac:(lia)) as HmH.
  pose proof (Z.div_mod W 8 ltac:(lia)) as HdW.
  pose proof (Z.mod_pos_bound W 8 ltac:(lia)) as HmW.
  destruct (sizes x) as [|B [|T [|C [|]]]] eqn:Hx;
    try (split; [intros [y Hy]; congruence
                | intros (B' & T' & Hs & _); discriminate]).
  apply shape_ok_3 in Hok. destruct Hok as (HB & HT & HC).
  destruct (Z.eqb_spec (B * T * C) (B * (H / 8) * (W / 8) * C)) as [Hn | Hn];
    cbn [negb] in Hc.
  2:{ split; [intros [y Hy]; congruence |].
      intros (B' & T' & [= <- <- ->] & [-> | ->] & _);
        exfalso; apply Hn; ring. }
  destruct (Z.ltb_spec E 1) as [HE1 | HE1].
  { split; [intros [y Hy]; congruence |].
    intros (B' & T' & _ & _ & HE' & _). exfalso. lia. }
  destruct (Z.eqb_spec C E) as [-> | HCE]; cbn [negb] in Hc.
  2:{ split; [intros [y Hy]; congruence |].
      intros (B' & T' & [= _ _ ->] & _). exfalso. now apply HCE. }
  destruct (Z.ltb_spec (H / 8) 1) as [Hh | Hh]; cbn [orb] in Hc.
  { split; [intros [y Hy]; congruence |].
    intros (B' & T' & _ & _ & _ & H8 & _). exfalso. lia. }
  destruct (Z.ltb_spec (W / 8) 1) as [Hw | Hw].
  { split; [intros [y Hy]; congruence |].
    intros (B' & T' & _ & _ & _ & _ & W8). exfalso. lia. }
  destruct Hc as [y [Hy _]]. split; [| intros _; exists y; exact Hy].
  intros _. exists B, T. split; [reflexivity |].
  split; [| lia].
  destruct (Z.eq_dec B 0) as [-> | HB0]; [now left | right].
  apply Z.mul_reg_l with (p := B); [exact HB0 |].
  apply Z.mul_reg_r with (p := E); [lia |]. lia.
Qed.

(** X3.  The image returned by [forward] is constant on 2x2 blocks: two
    positions of one channel whose rows and whose columns have the same
    half hold the same value, the last step being a 2x nearest upsample. *)
Theorem CNNDecoder_forward_blocks (E H W : Z) i1 i2 i3 d x y
  (b c p q p' q' : Z) :
  CNNDecoder_init E H W i1 i2 i3 = Ok d ->
  CNNDecoder_forward d x = Ok y ->
  in_range (sizes y) [b; c; p; q] ->
  in_range (sizes y) [b; c; p'; q'] ->
  p / 2 = p' / 2 -> q / 2 = q' / 2 ->
  get y [b; c; p; q] = get y [b; c; p'; q'].
Proof.
  intros Hd Hf Hin Hin' Hp Hq.
  apply CNNDecoder_init_inv in Hd. destruct Hd as [_ ->].
  apply CNNDecoder_forward_steps in Hf.
  destruct Hf as (B & T & C & x1 & x2 & x3 & x4 & _ & _ & _ & _ & _ & H5).
  cbn [layer3] in H5.
  destruct (stage_run _ _ _ _ _ _ H5)
    as (n & h & w & cv & _ & _ & _ & _ & Hsv & Hv).
  rewrite Hsv in Hin, Hin'. rewrite Hv. unfold get at 1 3.
  rewrite !get_tabulate by assumption. now rewrite Hp, Hq.
Qed.

(** X4.  In a stage the ReLU and the nearest upsample commute: running the
    upsample before the ReLU gives the same result, errors included, as the
    order the decoder uses. *)
Theorem stage_relu_upsample_commute (cin cout : Z) (wt bs : tensor F) x :
  Sequential_forward [Conv2d cin cout 3 1 wt bs; ReLU true;
                      Upsample 2 nearest] x
  = Sequential_forward [Conv2d cin cout 3 1 wt bs; Upsample 2 nearest;
                        ReLU true] x.
Proof.
  cbn [Sequential_forward Module_forward].
  destruct (conv2d cin cout 3 1 wt bs x) as [c | e]; [| reflexivity].
  cbn [bind]. unfold upsample_nearest2d. rewrite relu_sizes.
  destruct (sizes c) as [|n [|ch [|h [|w [|]]]]]; try reflexivity.
  destruct ((ch =? 0) || (h =? 0) || (w =? 0)); [reflexivity |].
  cbn [bind]. f_equal. unfold relu, tabulate. cbn [sizes data]. f_equal.
  rewrite map_map. apply map_ext. intros o.
  destruct (unravel [n; ch; h * 2; w * 2] o) as [|b [|k [|p [|q [|]]]]];
    try (symmetry; apply relu_scalar_zero).
  apply get_relu.
Qed.

End ForwardOutcome.

Section InferredHeight.
Context {F : Type} {SF : Scalar F}.
Implicit Types (x y : tensor F) (d : CNNDecoder F) (i : conv_init F).

Lemma infer_size_second_axis (B w c n : Z) :
  0 <= B -> 0 <= w -> 0 <= c ->
  infer_size [B; -1; w; c] n
  = if (n =? B * w * c) || ((0 <? B * w * c) && (n mod (B * w * c) =? 0))
    then if B * w * c =? 0 then Err ViewAmbiguous
         else Ok [B; n / (B * w * c); w; c]
    else Err ViewInvalidShape.
Proof.
  intros HB Hw Hc. unfold infer_size. cbn [infer_scan].
  destruct (Z.eqb_spec B (-1)); [lia |].
  destruct (Z.leb_spec 0 B); [| lia].
  cbn [Z.eqb Pos.eqb].
  destruct (Z.eqb_spec w (-1)); [lia |].
  destruct (Z.leb_spec 0 w); [| lia].
  destruct (Z.eqb_spec c (-1)); [lia |].
  destruct (Z.leb_spec 0 c); [| lia].
  cbn [bind fst snd].
  replace (1 * B * w * c) with (B * w * c) by ring.
  reflexivity.
Qed.

(** X5.  An [img_height] from -8 to -1 is accepted by the constructor and
    gives [grid_h = -1], which the reshape reads as the axis to infer:
    [forward] then accepts every token count that is a positive multiple
    [k * grid_w] of the grid width, and returns an image of height
    [8 * k]. *)
Theorem CNNDecoder_forward_inferred_height (E H W B k : Z) i1 i2 i3 d x :
  CNNDecoder_init E H W i1 i2 i3 = Ok d ->
  -8 <= H <= -1 -> 8 <= W -> 1 <= E -> 1 <= B -> 1 <= k ->
  sizes x = [B; k * (W / 8); E] ->
  grid_h d = -1
  /\ exists y,
       CNNDecoder_forward d x = Ok y
       /\ sizes y = [B; 3; 8 * k; 8 * (W / 8)].
Proof.
  intros Hd HH HW HE HB Hk Hx.
  apply CNNDecoder_init_inv in Hd. destruct Hd as [_ ->].
  cbn [grid_h].
  assert (Hgh : H / 8 = -1).
  { pose proof (Z.div_mod H 8 ltac:(lia)).
    pose proof (Z.mod_pos_bound H 8 ltac:(lia)). lia. }
  assert (Hgw : 1 <= W / 8) by (apply Z.div_le_lower_bound; lia).
  split; [exact Hgh |].
  set (gw := W / 8) in *.
  assert (Hpos : 0 < B * gw * E) by nia.
  set (x1 := {| sizes := [B; k; gw; E]; data := data x |}).
  assert (H1 : view x [B; H / 8; gw; E] = Ok x1).
  { unfold view. rewrite Hgh, Hx.
    rewrite infer_size_second_axis by lia. simpl numel.
    replace (B * (k * gw * (E * 1))) with (k * (B * gw * E)) by ring.
    rewrite Z.mod_mul, Z.div_mul by lia.
    destruct (Z.ltb_spec 0 (B * gw * E)); [| lia].
    rewrite Z.eqb_refl, orb_true_r.
    destruct (Z.eqb_spec (B * gw * E) 0); [lia | reflexivity]. }
  pose proof (permute_0312 x1 B k gw E eq_refl) as H2.
  set (x2 := tabulate [B; E; k; gw] _) in H2.
  destruct (stage_ok E E (conv_weight E E i1) (conv_bias E i1) x2
              B k gw eq_refl) as [x3 [H3 Hs3]]; try lia.
  destruct (stage_ok E E (conv_weight E E i2) (conv_bias E i2) x3
              B (k * 2) (gw * 2) Hs3) as [x4 [H4 Hs4]]; try lia.
  destruct (stage_ok E 3 (conv_weight 3 E i3) (conv_bias 3 i3) x4
              B (k * 2 * 2) (gw * 2 * 2) Hs4) as [y [H5 Hs5]]; try lia.
  exists y. split.
  - eapply CNNDecoder_forward_compose; eauto.
  - rewrite Hs5. f_equal. f_equal. f_equal; [lia |]. f_equal. lia.
Qed.

End InferredHeight.

(** ** Construction of [TransformerDecoder], and the two decoders in a row *)

Section TransformerInit.
Context {F : Type} {SF : Scalar F} {G : Type} {LB : Library F G}.
Implicit Types (self : TransformerDecoder F) (g : G).

Lemma TransformerDecoder_init_cases (d_model nhead dff : Z) (p : Q)
  (n_layers : Z) (i : param_init) :
  if (d_model <=? 0) || (nhead <=? 0) then
    TransformerDecoder_init (F := F) d_model nhead dff p n_layers i
    = Err HeadsNotPositive
  else if negb (d_model / nhead * nhead =? d_model) then
    TransformerDecoder_init (F := F) d_model nhead dff p n_layers i
    = Err HeadsNotDividing
  else if dff <? 0 then
    TransformerDecoder_init (F := F) d_model nhead dff p n_layers i
    = Err NegativeDimension
  else if negb (Qle_bool 0 p && Qle_bool p 1) then
    TransformerDecoder_init (F := F) d_model nhead dff p n_layers i
    = Err DropoutRange
  else
    exists self,
      TransformerDecoder_init (F := F) d_model nhead dff p n_layers i
      = Ok self
      /\ training self = true
      /\ layers (transformer_decoder self)
         = repeat (decoder_layer self) (Z.to_nat n_layers)
      /\ norm_first (decoder_layer self) = true.
Proof.
  unfold TransformerDecoder_init, nn_TransformerDecoderLayer,
    nn_MultiheadAttention, nn_Linear, nn_LayerNorm, nn_Dropout.
  destruct (Z.leb_spec d_model 0); [reflexivity |].
  destruct (Z.leb_spec nhead 0); [reflexivity |]. cbn [orb].
  destruct (d_model / nhead * nhead =? d_model); [| reflexivity].
  cbn [negb].
  destruct (Z.ltb_spec d_model 0); [lia |]. cbn [orb bind].
  destruct (Z.ltb_spec dff 0); [reflexivity |]. cbn [bind].
  destruct (Qle_bool 0 p && Qle_bool p 1); [| reflexivity].
  cbn [negb bind].
  eexists. split; [reflexivity |]. cbn. auto.
Qed.

(** X6.  The constructor succeeds exactly when [d_model] and [nhead] are
    positive, [nhead] divides [d_model], [dim_feedforward] is not negative
    and [dropout] lies in [0, 1]; a [d_model] that [nhead] does not divide
    is refused with the divisibility error.  The decoder it returns is in
    training mode and holds [n_layers] copies of its pre-norm
    [decoder_layer] (none for a count that is not positive). *)
Theorem TransformerDecoder_init_accepts (d_model nhead dff : Z) (p : Q)
  (n_layers : Z) (i : param_init) :
  ((exists self,
      TransformerDecoder_init (F := F) d_model nhead dff p n_layers i
      = Ok self)
   <-> 0 < d_model /\ 0 < nhead /\ d_model mod nhead = 0 /\ 0 <= dff
       /\ (0 <= p)%Q /\ (p <= 1)%Q)
  /\ (0 < d_model -> 0 < nhead -> d_model mod nhead <> 0 ->
      TransformerDecoder_init (F := F) d_model nhead dff p n_layers i
      = Err HeadsNotDividing)
  /\ (forall self,
        TransformerDecoder_init (F := F) d_model nhead dff p n_layers i
        = Ok self ->
        training self = true
        /\ length (layers (transformer_decoder self)) = Z.to_nat n_layers
        /\ forall ly, In ly (layers (transformer_decoder self)) ->
             ly = decoder_layer self /\ norm_first ly = true).
Proof.
  pose proof (TransformerDecoder_init_cases d_model nhead dff p n_layers i)
    as Hc.
  assert (Hdiv : 0 < nhead ->
            (d_model / nhead * nhead = d_model <-> d_model mod nhead = 0)).
  { intros Hh. pose proof (Z.div_mod d_model nhead ltac:(lia)). lia. }
  destruct (Z.leb_spec d_model 0) as [Hd0 | Hd0].
  { cbn [orb] in Hc. split; [| split].
    - split; [intros [self Hs]; congruence | intros (Hd & _); lia].
    - intros Hd. lia.
    - intros self Hs. congruence. }
  destruct (Z.leb_spec nhead 0) as [Hh0 | Hh0].
  { cbn [orb] in Hc. split; [| split].
    - split; [intros [self Hs]; congruence | intros (_ & Hh & _); lia].
    - intros _ Hh. lia.
    - intros self Hs. congruence. }
  cbn [orb] in Hc. specialize (Hdiv Hh0).
  destruct (Z.eqb_spec (d_model / nhead * nhead) d_model) as [He | He];
    cbn [negb] in Hc.
  2:{ split; [| split].
      - split; [intros [self Hs]; congruence |].
        intros (_ & _ & Hm & _). apply Hdiv in Hm. contradiction.
      - intros _ _ _. exact Hc.
      - intros self Hs. congruence. }
  apply Hdiv in He.
  destruct (Z.ltb_spec dff 0) as [Hf | Hf].
  { split; [| split].
    - split; [intros [self Hs]; congruence | intros (_ & _ & _ & Hf' & _); lia].
    - intros _ _ Hm. contradiction.
    - intros self Hs. congruence. }
  destruct (Qle_bool 0 p) eqn:Hp0; cbn [andb negb] in Hc.
  2:{ split; [| split].
      - split; [intros [self Hs]; congruence |].
        intros (_ & _ & _ & _ & Hp & _). apply Qle_bool_iff in Hp.
        congruence.
      - intros _ _ Hm. contradiction.
      - intros self Hs. congruence. }
  destruct (Qle_bool p 1) eqn:Hp1; cbn [negb] in Hc.
  2:{ split; [| split].
      - split; [intros [self Hs]; congruence |].
        intros (_ & _ & _ & _ & _ & Hp). apply Qle_bool_iff in Hp.
        congruence.
      - intros _ _ Hm. contradiction.
      - intros self Hs. congruence. }
  destruct Hc as (self & Hs & Htr & Hls & Hnf).
  apply Qle_bool_iff in Hp0. apply Qle_bool_iff in Hp1.
  split; [| split].
  - split; [intros _; repeat split; try assumption; lia |].
    intros _. exists self. exact Hs.
  - intros _ _ Hm. contradiction.
  - intros self' Hs'. rewrite Hs in Hs'. injection Hs' as <-.
    split; [exact Htr |]. split.
    + rewrite Hls. apply repeat_length.
    + intros ly Hin. rewrite Hls in Hin. apply repeat_spec in Hin.
      subst ly. split; [reflexivity | exact Hnf].
Qed.

End TransformerInit.

Section Pipeline.
Context {F : Type} {SF : Scalar F} {G : Type} {LB : Library F G}.
Implicit Types (self : TransformerDecoder F) (g : G) (x y : tensor F).

(** X7.  The two decoders fit: with both constructed for the same width,
    at least one layer and an image of at least 8x8, the output of the
    sequence decoder on a batch (not empty) of [grid_h * grid_w] target
    tokens is accepted by the spatial decoder, in training and in
    evaluation mode, and the image has shape
    [(batch, 3, 8 * grid_h, 8 * grid_w)]. *)
Theorem decoders_compose (d_model nhead dff : Z) (p : Q) (n_layers : Z)
  (i : param_init) self (H W : Z) (i1 i2 i3 : conv_init F)
  (d : CNNDecoder F) (tgt memory : tensor F)
  (tm mm tk mk : option (mask F)) (B S : Z) :
  TransformerDecoder_init d_model nhead dff p n_layers i = Ok self ->
  CNNDecoder_init d_model H W i1 i2 i3 = Ok d ->
  1 <= n_layers ->
  8 <= H -> 8 <= W -> 1 <= B -> 1 <= S ->
  sizes tgt = [B; grid_h d * grid_w d; d_model] ->
  sizes memory = [B; S; d_model] ->
  attn_mask_ok tm B nhead (grid_h d * grid_w d) (grid_h d * grid_w d) ->
  attn_mask_ok mm B nhead (grid_h d * grid_w d) S ->
  padding_mask_ok tk B (grid_h d * grid_w d) ->
  padding_mask_ok mk B S ->
  forall self' g,
    self' = self \/ self' = eval self ->
    exists feat g' img,
      TransformerDecoder_forward self' tgt memory tm mm tk mk g
      = Ok (feat, g')
      /\ CNNDecoder_forward d feat = Ok img
      /\ sizes img = [B; 3; 8 * grid_h d; 8 * grid_w d].
Proof.
  intros Hs Hd Hnl H8 W8 HB HS Ht Hm Htm Hmm Htk Hmk self' g Hself.
  pose proof (TransformerDecoder_init_cases d_model nhead dff p n_layers i)
    as Hc.
  assert (Hpos : 1 <= d_model).
  { destruct (Z.leb_spec d_model 0); [| lia].
    cbn [orb] in Hc. congruence. }
  assert (Hne : layers (transformer_decoder self') <> []).
  { assert (Hlen : length (layers (transformer_decoder self'))
                   = Z.to_nat n_layers).
    { destruct ((d_model <=? 0) || (nhead <=? 0)); [congruence |].
      destruct (negb (d_model / nhead * nhead =? d_model)); [congruence |].
      destruct (dff <? 0); [congruence |].
      destruct (negb (Qle_bool 0 p && Qle_bool p 1)); [congruence |].
      destruct Hc as (self0 & Hs0 & _ & Hls & _).
      rewrite Hs in Hs0. injection Hs0 as <-.
      destruct Hself; subst self'; cbn [eval transformer_decoder];
        rewrite Hls; apply repeat_length. }
    intros Hnil. rewrite Hnil in Hlen. cbn [length] in Hlen. lia. }
  destruct (TransformerDecoder_init_dims d_model nhead dff p n_layers i self
              Hs) as (Hdims & Hdims' & _).
  assert (Hdd : decoder_dims d_model nhead self')
    by (destruct Hself; subst; assumption).
  pose proof (CNNDecoder_init_inv d_model H W i1 i2 i3 d Hd) as [_ Hrec].
  assert (Hg : grid_h d = H / 8 /\ grid_w d = W / 8)
    by (rewrite Hrec; split; reflexivity).
  destruct Hg as [Hgh Hgw]. rewrite Hgh, Hgw in *.
  assert (Hh1 : 1 <= H / 8) by (apply Z.div_le_lower_bound; lia).
  assert (Hw1 : 1 <= W / 8) by (apply Z.div_le_lower_bound; lia).
  destruct (TransformerDecoder_forward_returns self' tgt memory tm mm tk mk
              B (H / 8 * (W / 8)) S d_model nhead
              Hdd Hne Ht Hm HB ltac:(nia) HS Htm Hmm Htk Hmk g)
    as (feat & g' & Hf & Hfs).
  destruct (CNNDecoder_forward_ok d_model H W B i1 i2 i3 d feat Hd Hpos H8 W8
              ltac:(lia) Hfs) as (img & Hi & His).
  exists feat, g', img. auto.
Qed.

Lemma mbind_err (A B : Type) (m : M G A) (k : A -> M G B) (e : error)
  (g : G) :
  m g = Err e -> mbind m k g = Err e.
Proof.
  intros Hm. unfold mbind. now rewrite Hm.
Qed.

(** On batched inputs and masks of the ranks it supports, the module runs
    the batched attention. *)
Lemma MultiheadAttention_forward_batched (a : MultiheadAttention F)
  (tr : bool) (query key : tensor F) (kpm am : option (mask F))
  (n l e kn s ke : Z) g :
  sizes query = [n; l; e] -> sizes key = [kn; s; ke] ->
  check_rank (option_map canonical_mask kpm) rank_2 = Ok tt ->
  check_rank (option_map canonical_mask am) rank_2_or_3 = Ok tt ->
  MultiheadAttention_forward a tr query key key kpm am g
  = attention a tr query key key (option_map canonical_mask kpm)
      (option_map canonical_mask am) g.
Proof.
  intros Hq Hk Hrk Hra. unfold MultiheadAttention_forward.
  rewrite Hq, Hk. cbn [length Nat.ltb Nat.leb Nat.eqb orb andb negb].
  unfold mbind at 1. rewrite Hrk. cbn [lift].
  unfold mbind at 1. rewrite Hra. reflexivity.
Qed.

Lemma sa_block_shape (ly : TransformerDecoderLayer F) (tr : bool) x
  (tm tk : option (mask F)) (n l e heads : Z) :
  layer_dims e heads ly -> sizes x = [n; l; e] ->
  1 <= n -> 1 <= l ->
  attn_mask_ok tm n heads l l -> padding_mask_ok tk n l ->
  returns_shape (sa_block ly tr x tm tk) [n; l; e].
Proof.
  intros (Hsa & _) Hx Hn Hl Htm Htk. unfold sa_block.
  eapply returns_shape_bind.
  - eapply MultiheadAttention_forward_shape; eauto.
  - intros a Ha. rewrite <- Ha. apply Dropout_forward_shape.
Qed.

(** The layers of a constructed decoder, and the first of them when there
    is one. *)
Lemma TransformerDecoder_init_layers (d_model nhead dff : Z) (p : Q)
  (n_layers : Z) (i : param_init) self :
  TransformerDecoder_init d_model nhead dff p n_layers i = Ok self ->
  layers (transformer_decoder self)
  = repeat (decoder_layer self) (Z.to_nat n_layers)
  /\ norm_first (decoder_layer self) = true.
Proof.
  intros Hs.
  pose proof (TransformerDecoder_init_cases d_model nhead dff p n_layers i)
    as Hc.
  destruct ((d_model <=? 0) || (nhead <=? 0)); [congruence |].
  destruct (negb (d_model / nhead * nhead =? d_model)); [congruence |].
  destruct (dff <? 0); [congruence |].
  destruct (negb (Qle_bool 0 p && Qle_bool p 1)); [congruence |].
  destruct Hc as (self0 & Hs0 & _ & Hls & Hnf).
  rewrite Hs in Hs0. injection Hs0 as <-. auto.
Qed.

Lemma TransformerDecoder_init_first (d_model nhead dff : Z) (p : Q)
  (n_layers : Z) (i : param_init) self :
  TransformerDecoder_init d_model nhead dff p n_layers i = Ok self ->
  1 <= n_layers ->
  exists ly rest,
    layers (transformer_decoder self) = ly :: rest
    /\ layer_dims d_model nhead ly /\ norm_first ly = true.
Proof.
  intros Hs Hn.
  destruct (TransformerDecoder_init_dims d_model nhead dff p n_layers i self
              Hs) as (Hdims & _).
  destruct (TransformerDecoder_init_layers d_model nhead dff p n_layers i
              self Hs) as [Hls Hnf].
  unfold decoder_dims in Hdims. rewrite Hls in Hdims |- *.
  destruct (Z.to_nat n_layers) as [|k] eqn:Hk; [lia |].
  cbn [repeat] in *. inversion Hdims; subst.
  exists (decoder_layer self), (repeat (decoder_layer self) k).
  auto.
Qed.

(** X8.  A target whose feature width is not [d_model] is refused by the
    first normalisation of the first layer, in either mode and before any
    draw from the generator. *)
Theorem TransformerDecoder_forward_target_width (d_model nhead dff : Z)
  (p : Q) (n_layers : Z) (i : param_init) self
  (tgt memory : tensor F) (tm mm tk mk : option (mask F)) (n l c : Z) :
  TransformerDecoder_init d_model nhead dff p n_layers i = Ok self ->
  1 <= n_layers ->
  sizes tgt = [n; l; c] -> c <> d_model ->
  forall self' g,
    self' = self \/ self' = eval self ->
    TransformerDecoder_forward self' tgt memory tm mm tk mk g
    = Err NormShape.
Proof.
  intros Hs Hn Ht Hc self' g Hself.
  destruct (TransformerDecoder_init_first d_model nhead dff p n_layers i self
              Hs Hn) as (ly & rest & Hls & Hdims & Hnf).
  assert (Hls' : layers (transformer_decoder self') = ly :: rest)
    by (destruct Hself; subst; exact Hls).
  unfold TransformerDecoder_forward, nn_TransformerDecoder_forward.
  rewrite Hls', Ht. cbn [length Nat.ltb Nat.leb layers_forward].
  apply mbind_err. apply mbind_err.
  unfold TransformerDecoderLayer_forward. rewrite Hnf.
  apply mbind_err.
  destruct Hdims as (_ & _ & _ & _ & _ & Hn1 & _).
  unfold LayerNorm_forward. rewrite Ht, Hn1. cbn [last].
  destruct (Z.eqb_spec c d_model); [contradiction | reflexivity].
Qed.

(** X9.  A memory whose feature width differs from that of the target is
    refused by the cross-attention of the first layer (a target that is
    not empty, masks of accepted shapes). *)
Theorem TransformerDecoder_forward_memory_width (d_model nhead dff : Z)
  (p : Q) (n_layers : Z) (i : param_init) self
  (tgt memory : tensor F) (tm mm tk mk : option (mask F)) (n l s c : Z) :
  TransformerDecoder_init d_model nhead dff p n_layers i = Ok self ->
  1 <= n_layers ->
  sizes tgt = [n; l; d_model] ->
  sizes memory = [n; s; c] -> c <> d_model ->
  1 <= n -> 1 <= l ->
  attn_mask_ok tm n nhead l l -> padding_mask_ok tk n l ->
  attn_mask_ok mm n nhead l s -> padding_mask_ok mk n s ->
  forall self' g,
    self' = self \/ self' = eval self ->
    TransformerDecoder_forward self' tgt memory tm mm tk mk g
    = Err LinearShape.
Proof.
  intros Hs Hn Ht Hm Hc Hn1' Hl1 Htm Htk Hmm Hmk self' g Hself.
  destruct (TransformerDecoder_init_first d_model nhead dff p n_layers i self
              Hs Hn) as (ly & rest & Hls & Hdims & Hnf).
  assert (Hls' : layers (transformer_decoder self') = ly :: rest)
    by (destruct Hself; subst; exact Hls).
  unfold TransformerDecoder_forward, nn_TransformerDecoder_forward.
  rewrite Hls', Ht. cbn [length Nat.ltb Nat.leb layers_forward].
  apply mbind_err. apply mbind_err.
  unfold TransformerDecoderLayer_forward. rewrite Hnf.
  pose proof Hdims as (Hsa & Hca & _ & _ & _ & Hn1 & Hn2 & _).
  pose proof (LayerNorm_forward_eq (norm1 ly) tgt n l d_model Ht Hn1) as H1.
  set (y1 := rowwise d_model _ tgt n l d_model) in H1.
  unfold mbind at 1. rewrite H1. cbn [lift].
  destruct (sa_block_shape ly (training self') y1 tm tk n l d_model nhead
              Hdims eq_refl Hn1' Hl1 Htm Htk g) as (y2 & g1 & Hsa2 & Hy2).
  unfold mbind at 1. rewrite Hsa2.
  assert (Hadd : add tgt y2
                 = Ok {| sizes := sizes tgt;
                         data := zip_add (data tgt) (data y2) |})
    by (apply add_eq; congruence).
  set (x1 := {| sizes := sizes tgt; data := _ |}) in Hadd.
  unfold mbind at 1. rewrite Hadd. cbn [lift].
  pose proof (LayerNorm_forward_eq (norm2 ly) x1 n l d_model Ht Hn2) as H2.
  set (y3 := rowwise d_model _ x1 n l d_model) in H2.
  unfold mbind at 1. rewrite H2. cbn [lift].
  apply mbind_err. unfold mha_block. apply mbind_err.
  rewrite (MultiheadAttention_forward_batched (multihead_attn ly)
             (training self') y3 memory mk mm n l d_model n s c g1
             eq_refl Hm (check_rank_padding mk n s Hmk)
             (check_rank_attn mm n nhead l s Hmm)).
  unfold attention.
  replace (sizes y3) with [n; l; d_model] by reflexivity.
  rewrite Hm. destruct Hca as (He & Hh & _ & _ & Hdiv & _).
  unfold head_dim. rewrite He, Hh, Hdiv.
  rewrite !Z.eqb_refl. cbn [negb andb].
  destruct (Z.eqb_spec c d_model); [contradiction | reflexivity].
Qed.

(** X10.  A two-dimensional target mask whose shape is not
    [(tgt_len, tgt_len)] is refused by the self-attention of the first
    layer. *)
Theorem TransformerDecoder_forward_mask_shape (d_model nhead dff : Z)
  (p : Q) (n_layers : Z) (i : param_init) self
  (tgt memory : tensor F) (m : mask F) (mm tk mk : option (mask F))
  (n l a b : Z) :
  TransformerDecoder_init d_model nhead dff p n_layers i = Ok self ->
  1 <= n_layers ->
  sizes tgt = [n; l; d_model] ->
  sizes (canonical_mask m) = [a; b] -> a <> l \/ b <> l ->
  padding_mask_ok tk n l ->
  forall self' g,
    self' = self \/ self' = eval self ->
    TransformerDecoder_forward self' tgt memory (Some m) mm tk mk g
    = Err AttnMaskShape.
Proof.
  intros Hs Hn Ht Hms Hab Htk self' g Hself.
  destruct (TransformerDecoder_init_first d_model nhead dff p n_layers i self
              Hs Hn) as (ly & rest & Hls & Hdims & Hnf).
  assert (Hls' : layers (transformer_decoder self') = ly :: rest)
    by (destruct Hself; subst; exact Hls).
  unfold TransformerDecoder_forward, nn_TransformerDecoder_forward.
  rewrite Hls', Ht. cbn [length Nat.ltb Nat.leb layers_forward].
  apply mbind_err. apply mbind_err.
  unfold TransformerDecoderLayer_forward. rewrite Hnf.
  pose proof Hdims as (Hsa & _ & _ & _ & _ & Hn1 & _).
  pose proof (LayerNorm_forward_eq (norm1 ly) tgt n l d_model Ht Hn1) as H1.
  set (y1 := rowwise d_model _ tgt n l d_model) in H1.
  unfold mbind at 1. rewrite H1. cbn [lift].
  apply mbind_err. unfold sa_block. apply mbind_err.
  assert (Hra : check_rank (option_map canonical_mask (Some m)) rank_2_or_3
                = Ok tt)
    by (cbn [option_map check_rank]; now rewrite Hms).
  rewrite (MultiheadAttention_forward_batched (self_attn ly)
             (training self') y1 y1 tk (Some m) n l d_model n l d_model g
             eq_refl eq_refl (check_rank_padding tk n l Htk) Hra).
  unfold attention.
  replace (sizes y1) with [n; l; d_model] by reflexivity.
  destruct Hsa as (He & Hh & _ & _ & Hdiv & _).
  unfold head_dim. rewrite He, Hh, Hdiv.
  rewrite !Z.eqb_refl. cbn [negb andb].
  apply mbind_err. cbn [option_map check_attn_mask lift]. rewrite Hms.
  destruct (Z.eqb_spec a l); destruct (Z.eqb_spec b l); cbn [andb];
    try reflexivity.
  destruct Hab; contradiction.
Qed.

(** X12.  A decoder constructed with [n_layers] zero or negative holds no
    layer, and its [forward] fails on every input, in either mode: it
    reads [layers[0]] before its loop. *)
Theorem TransformerDecoder_forward_no_layers (d_model nhead dff : Z)
  (p : Q) (n_layers : Z) (i : param_init) self
  (tgt memory : tensor F) (tm mm tk mk : option (mask F)) :
  TransformerDecoder_init d_model nhead dff p n_layers i = Ok self ->
  n_layers <= 0 ->
  layers (transformer_decoder self) = []
  /\ forall self' g,
       self' = self \/ self' = eval self ->
       TransformerDecoder_forward self' tgt memory tm mm tk mk g
       = Err LayersIndex.
Proof.
  intros Hs Hn.
  destruct (TransformerDecoder_init_layers d_model nhead dff p n_layers i
              self Hs) as [Hls _].
  replace (Z.to_nat n_layers) with 0%nat in Hls by lia.
  cbn [repeat] in Hls. split; [exact Hls |].
  intros self' g Hself.
  assert (Hls' : layers (transformer_decoder self') = [])
    by (destruct Hself; subst; exact Hls).
  unfold TransformerDecoder_forward, nn_TransformerDecoder_forward.
  now rewrite Hls'.
Qed.

End Pipeline.

(** ** The further properties on the sample values *)

Lemma CNNDecoder_forward_errors_witness :
  match CNNDecoder_init 2 16 16 (const_init f32_one) (const_init f32_one)
          (const_init f32_one) with
  | Ok d =>
      (ViewInvalidShape = UnpackError /\ length [1; 5; 2] <> 3%nat)
      \/ (ViewInvalidShape = ViewInvalidShape
          /\ exists B T C,
               [1; 5; 2] = [B; T; C]
               /\ B * T * C <> B * (16 / 8) * (16 / 8) * C)
      \/ (ViewInvalidShape = ConvOutChannels /\ 2 = 0)
      \/ (ViewInvalidShape = ConvChannels
          /\ exists B T C, [1; 5; 2] = [B; T; C] /\ C <> 2)
      \/ (ViewInvalidShape = ConvKernelTooLarge /\ (16 < 8 \/ 16 < 8))
  | Err _ => False
  end.
Proof.
  destruct (CNNDecoder_init 2 16 16 (const_init f32_one) (const_init f32_one)
              (const_init f32_one)) as [d|] eqn:Hd; [| discriminate].
  apply (CNNDecoder_forward_errors 2 16 16 (const_init f32_one)
           (const_init f32_one) (const_init f32_one) d
           {| sizes := [1; 5; 2]; data := repeat f32_one 10 |}
           ViewInvalidShape Hd); try lia.
  - unfold shape_ok; cbn; range_intro.
  - injection Hd as <-. reflexivity.
Defined.

Lemma CNNDecoder_forward_accepts_witness :
  match CNNDecoder_init 2 16 16 (const_init f32_one) (const_init f32_one)
          (const_init f32_one) with
  | Ok d =>
      (exists y, CNNDecoder_forward d tokens_1x4x2 = Ok y)
      <-> (exists B T,
             sizes tokens_1x4x2 = [B; T; 2]
             /\ (B = 0 \/ T = grid_h d * grid_w d)
             /\ 1 <= 2 /\ 8 <= 16 /\ 8 <= 16)
  | Err _ => False
  end.
Proof.
  destruct (CNNDecoder_init 2 16 16 (const_init f32_one) (const_init f32_one)
              (const_init f32_one)) as [d|] eqn:Hd; [| discriminate].
  apply (CNNDecoder_forward_accepts 2 16 16 (const_init f32_one)
           (const_init f32_one) (const_init f32_one) d tokens_1x4x2 Hd);
    try lia.
  unfold shape_ok; cbn; range_intro.
Defined.

Lemma CNNDecoder_forward_blocks_witness :
  match CNNDecoder_init 2 16 16 (const_init f32_one) (const_init f32_one)
          (const_init f32_minus_one) with
  | Ok d =>
      match CNNDecoder_forward d tokens_1x4x2 with
      | Ok y => get y [0; 2; 6; 9] = get y [0; 2; 7; 8]
      | Err _ => False
      end
  | Err _ => False
  end.
Proof.
  destruct (CNNDecoder_init 2 16 16 (const_init f32_one) (const_init f32_one)
              (const_init f32_minus_one)) as [d|] eqn:Hd; [| discriminate].
  destruct (CNNDecoder_forward d tokens_1x4x2) as [y|] eqn:Hy.
  - destruct (CNNDecoder_forward_sizes 2 16 16 (const_init f32_one)
                (const_init f32_one) (const_init f32_minus_one) d
                tokens_1x4x2 y Hd) as (B & T & Hx & _ & Hsz);
      [lia | lia | unfold shape_ok; cbn; range_intro | exact Hy |].
    injection Hx as <- _.
    apply (CNNDecoder_forward_blocks 2 16 16 (const_init f32_one)
             (const_init f32_one) (const_init f32_minus_one) d
             tokens_1x4x2 y 0 2 6 9 7 8 Hd Hy);
      try reflexivity; rewrite Hsz; cbn; range_intro.
  - injection Hd as <-. vm_compute in Hy. discriminate.
Defined.

Lemma CNNDecoder_forward_inferred_height_witness :
  match CNNDecoder_init 2 (-8) 16 (const_init f32_one) (const_init f32_one)
          (const_init f32_one) with
  | Ok d =>
      grid_h d = -1
      /\ exists y,
           CNNDecoder_forward d tokens_1x4x2 = Ok y
           /\ sizes y = [1; 3; 8 * 2; 8 * (16 / 8)]
  | Err _ => False
  end.
Proof.
  destruct (CNNDecoder_init 2 (-8) 16 (const_init f32_one)
              (const_init f32_one) (const_init f32_one)) as [d|] eqn:Hd;
    [| discriminate].
  apply (CNNDecoder_forward_inferred_height 2 (-8) 16 1 2
           (const_init f32_one) (const_init f32_one) (const_init f32_one)
           d tokens_1x4x2 Hd); try lia.
  reflexivity.
Defined.

Lemma TransformerDecoder_init_accepts_witness :
  TransformerDecoder_init (F := float32) 6 4 8 (1 # 10) 2
    (const_param f32_one) = Err HeadsNotDividing
  /\ match TransformerDecoder_init 4 2 8 (1 # 10) 2 (const_param f32_one) with
     | Ok self =>
         training self = true
         /\ length (layers (transformer_decoder self)) = Z.to_nat 2
         /\ forall ly, In ly (layers (transformer_decoder self)) ->
              ly = decoder_layer self /\ norm_first ly = true
     | Err _ => False
     end.
Proof.
  split.
  - apply (proj1 (proj2 (TransformerDecoder_init_accepts (F := float32)
                           6 4 8 (1 # 10) 2 (const_param f32_one))));
      [lia | lia | discriminate].
  - destruct (TransformerDecoder_init 4 2 8 (1 # 10) 2 (const_param f32_one))
      as [self|] eqn:Hs; [| discriminate].
    exact (proj2 (proj2 (TransformerDecoder_init_accepts (F := float32)
                           4 2 8 (1 # 10) 2 (const_param f32_one)))
             self Hs).
Defined.

Lemma decoders_compose_witness :
  match TransformerDecoder_init 4 2 8 (1 # 10) 2 (const_param f32_one) with
  | Ok self =>
      match CNNDecoder_init 4 16 16 (const_init f32_one) (const_init f32_one)
              (const_init f32_one) with
      | Ok d =>
          exists feat g' img,
            TransformerDecoder_forward self
              {| sizes := [1; 4; 4]; data := repeat f32_one 16 |}
              memory_1x3x4 None None None None (repeat true 64)
            = Ok (feat, g')
            /\ CNNDecoder_forward d feat = Ok img
            /\ sizes img = [1; 3; 8 * grid_h d; 8 * grid_w d]
      | Err _ => False
      end
  | Err _ => False
  end.
Proof.
  destruct (TransformerDecoder_init 4 2 8 (1 # 10) 2 (const_param f32_one))
    as [self|] eqn:Hs; [| discriminate].
  destruct (CNNDecoder_init 4 16 16 (const_init f32_one) (const_init f32_one)
              (const_init f32_one)) as [d|] eqn:Hd; [| discriminate].
  apply (decoders_compose 4 2 8 (1 # 10) 2 (const_param f32_one) self
           16 16 (const_init f32_one) (const_init f32_one)
           (const_init f32_one) d
           {| sizes := [1; 4; 4]; data := repeat f32_one 16 |}
           memory_1x3x4 None None None None 1 3 Hs Hd);
    try lia; try exact I.
  - injection Hd as <-. reflexivity.
  - reflexivity.
  - left. reflexivity.
Defined.

Lemma TransformerDecoder_forward_target_width_witness :
  match TransformerDecoder_init 4 2 8 (1 # 10) 2 (const_param f32_one) with
  | Ok self =>
      TransformerDecoder_forward self tokens_1x4x2 memory_1x3x4
        None None None None [true; false; true]
      = Err NormShape
  | Err _ => False
  end.
Proof.
  destruct (TransformerDecoder_init 4 2 8 (1 # 10) 2 (const_param f32_one))
    as [self|] eqn:Hs; [| discriminate].
  apply (TransformerDecoder_forward_target_width 4 2 8 (1 # 10) 2
           (const_param f32_one) self tokens_1x4x2 memory_1x3x4
           None None None None 1 4 2 Hs); try lia.
  - reflexivity.
  - left. reflexivity.
Defined.

Lemma TransformerDecoder_forward_memory_width_witness :
  match TransformerDecoder_init 4 2 8 (1 # 10) 2 (const_param f32_one) with
  | Ok self =>
      TransformerDecoder_forward (eval self) target_1x2x4 tokens_1x4x2
        None None None None [true; false; true]
      = Err LinearShape
  | Err _ => False
  end.
Proof.
  destruct (TransformerDecoder_init 4 2 8 (1 # 10) 2 (const_param f32_one))
    as [self|] eqn:Hs; [| discriminate].
  apply (TransformerDecoder_forward_memory_width 4 2 8 (1 # 10) 2
           (const_param f32_one) self target_1x2x4 tokens_1x4x2
           None None None None 1 2 4 2 Hs); try lia; try exact I.
  - reflexivity.
  - reflexivity.
  - right. reflexivity.
Defined.

Lemma TransformerDecoder_forward_mask_shape_witness :
  match TransformerDecoder_init 4 2 8 (1 # 10) 2 (const_param f32_one) with
  | Ok self =>
      TransformerDecoder_forward self target_1x2x4 memory_1x3x4
        (Some (BoolMask {| sizes := [3; 3]; data := repeat false 9 |}))
        None None None [true; false; true]
      = Err AttnMaskShape
  | Err _ => False
  end.
Proof.
  destruct (TransformerDecoder_init 4 2 8 (1 # 10) 2 (const_param f32_one))
    as [self|] eqn:Hs; [| discriminate].
  apply (TransformerDecoder_forward_mask_shape 4 2 8 (1 # 10) 2
           (const_param f32_one) self target_1x2x4 memory_1x3x4
           (BoolMask {| sizes := [3; 3]; data := repeat false 9 |})
           None None None 1 2 3 3 Hs); try lia; try exact I.
  - reflexivity.
  - reflexivity.
  - left. reflexivity.
Defined.

Lemma TransformerDecoder_forward_no_layers_witness :
  match TransformerDecoder_init 4 2 8 (1 # 10) 0 (const_param f32_one) with
  | Ok self =>
      layers (transformer_decoder self) = []
      /\ TransformerDecoder_forward (eval self) target_1x2x4 memory_1x3x4
           None None None None [true; false; true]
         = Err LayersIndex
  | Err _ => False
  end.
Proof.
  destruct (TransformerDecoder_init 4 2 8 (1 # 10) 0 (const_param f32_one))
    as [self|] eqn:Hs; [| discriminate].
  destruct (TransformerDecoder_forward_no_layers 4 2 8 (1 # 10) 0
              (const_param f32_one) self target_1x2x4 memory_1x3x4
              None None None None Hs ltac:(lia)) as [Hls Hfw].
  split; [exact Hls |].
  apply Hfw. right. reflexivity.
Defined.

(** Why the statements on the attention stack ask for a batch and
    sequences that are not empty: on an empty batch with a padding mask
    the reshape of the merged mask has a size to infer and nothing to
    infer it from. *)
Example TransformerDecoder_forward_empty_batch_mask :
  match TransformerDecoder_init 4 2 8 (1 # 10) 1 (const_param f32_one) with
  | Ok self =>
      TransformerDecoder_forward (eval self)
        {| sizes := [0; 2; 4]; data := [] |}
        {| sizes := [0; 3; 4]; data := [] |}
        None None
        (Some (BoolMask {| sizes := [0; 2]; data := [] |})) None
        [true; false; true]
      = Err ViewAmbiguous
  | Err _ => False
  end.
Proof.
  vm_compute. reflexivity.
Qed.

(** The same with a memory of another width: the self-attention fails
    before the cross-attention sees the memory. *)
Example TransformerDecoder_forward_empty_batch_memory :
  match TransformerDecoder_init 4 2 8 (1 # 10) 1 (const_param f32_one) with
  | Ok self =>
      TransformerDecoder_forward (eval self)
        {| sizes := [0; 2; 4]; data := [] |}
        {| sizes := [0; 3; 2]; data := [] |}
        None None
        (Some (BoolMask {| sizes := [0; 2]; data := [] |})) None
        [true; false; true]
      = Err ViewAmbiguous
  | Err _ => False
  end.
Proof.
  vm_compute. reflexivity.
Qed.

(** An unbatched target and memory go through as a batch of one. *)
Example TransformerDecoder_forward_unbatched :
  match TransformerDecoder_init 4 2 8 (1 # 10) 1 (const_param f32_one) with
  | Ok self =>
      result_map (fun r => sizes (fst r))
        (TransformerDecoder_forward (eval self)
           {| sizes := [2; 4]; data := data target_1x2x4 |}
           {| sizes := [3; 4]; data := data memory_1x3x4 |}
           None None None None [true; false; true])
      = Ok [2; 4]
      /\ result_map (fun r => data (fst r))
           (TransformerDecoder_forward (eval self)
              {| sizes := [2; 4]; data := data target_1x2x4 |}
              {| sizes := [3; 4]; data := data memory_1x3x4 |}
              None None None None [true; false; true])
         = result_map (fun r => data (fst r))
             (TransformerDecoder_forward (eval self) target_1x2x4
                memory_1x3x4 None None None None [true; false; true])
  | Err _ => False
  end.
Proof.
  vm_compute. split; reflexivity.
Qed.
